(** * VoiceClone Studio backend: audio validation, voice-model registry and
      cloned synthesis

    A shallow embedding of [backend/utils/audio_utils.py],
    [backend/voice_cloner.py] and [backend/tts_engine.py].

    - Python [str] values are sequences of Unicode code points.
    - Floating-point scalars and samples are values of a type [F] that
      implements the interface [Arith]; [ieee_arith] instantiates it with
      binary64 arithmetic and [exact_arith] with the rationals.
    - The file system, the clock, the log and the speech model are threaded
      through a state-and-exception monad.
    - Numerical library routines (numpy reductions, libm, librosa, scipy) and
      the speech model are class parameters: the code is verified for
      every behaviour they may have. *)

From Stdlib Require Import ZArith NArith QArith Qabs Qminmax Lia Lqa.
From Stdlib Require Import PrimFloat FloatOps FloatAxioms Uint63 SpecFloat.
From Stdlib Require Import Ascii String.
From stdpp Require Import gmap list.

Set Default Proof Using "Type".
Set Warnings "-inexact-float".

(* ================================================================= *)
(** * Part I: definitions *)
(* ================================================================= *)

(** ** Python strings *)

Module PyStr.

(** A Python [str]: its code points. *)
Abbreviation pystr := (list N).

(** [u "text"] is the [str] whose code points are the bytes of an ASCII
    literal. *)
Definition u (s : string) : pystr := map N_of_ascii (list_ascii_of_string s).

(** [s.startswith(p)] *)
Fixpoint startswith (p s : pystr) : bool :=
  match p, s with
  | [], _ => true
  | _ :: _, [] => false
  | a :: p', b :: s' => (a =? b)%N && startswith p' s'
  end.

(** [sub in s] *)
Fixpoint contains (sub s : pystr) : bool :=
  startswith sub s ||
  match s with
  | [] => false
  | _ :: s' => contains sub s'
  end.

(** [s.replace(old, new)] for a non-empty [old]: the occurrences of [old]
    are found left to right and do not overlap.  [skip] counts the
    characters of a matched occurrence that are still to be passed over. *)
Fixpoint replace_from (old new : pystr) (skip : nat) (s : pystr) : pystr :=
  match s with
  | [] => []
  | c :: rest =>
      match skip with
      | S k => replace_from old new k rest
      | O =>
          if startswith old s
          then new ++ replace_from old new (length old - 1) rest
          else c :: replace_from old new 0 rest
      end
  end.

Definition replace (s old new : pystr) : pystr := replace_from old new 0 s.

Definition slash : N := 47.

(** [s.rfind(c) + 1]: the length of the shortest prefix of [s] that
    holds the last occurrence of [c], or [0] when there is none. *)
Fixpoint rfind_succ (c : N) (s : pystr) : nat :=
  match s with
  | [] => 0
  | x :: s' =>
      match rfind_succ c s' with
      | S r => S (S r)
      | O => if (x =? c)%N then 1 else 0
      end
  end.

(** [s.rstrip(c)] *)
Fixpoint rstrip (c : N) (s : pystr) : pystr :=
  match s with
  | [] => []
  | x :: s' =>
      match rstrip c s' with
      | [] => if (x =? c)%N then [] else [x]
      | r => x :: r
      end
  end.

(** [os.path.dirname] (posixpath): the head up to the last slash, with
    trailing slashes removed unless the head consists of slashes only. *)
Definition dirname (p : pystr) : pystr :=
  let head := take (rfind_succ slash p) p in
  if forallb (λ c, (c =? slash)%N) head then head else rstrip slash head.

Definition dot : N := 46.

(** [os.path.splitext(p)[1]] (posixpath): the last component of [p] from
    its last dot on; empty when the component has no dot, or nothing but
    dots before its last one. *)
Definition extension (p : pystr) : pystr :=
  let name := drop (rfind_succ slash p) p in
  match rfind_succ dot name with
  | O => []
  | S k => if forallb (λ c, (c =? dot)%N) (take k name) then [] else drop k name
  end.

(** [str(Path(a) / b)] for a directory [a] in normal form and a relative
    component [b]. *)
Definition path_join (a b : pystr) : pystr := a ++ [slash] ++ b.

(** *** Character classes *)

Definition in_range (lo hi c : N) : bool := (lo <=? c)%N && (c <=? hi)%N.

Definition is_ascii (c : N) : bool := (c <? 128)%N.
Definition ascii_isdigit (c : N) : bool := in_range 48 57 c.
Definition ascii_isupper (c : N) : bool := in_range 65 90 c.
Definition ascii_islower (c : N) : bool := in_range 97 122 c.
Definition ascii_isalnum (c : N) : bool :=
  ascii_isdigit c || ascii_isupper c || ascii_islower c.
Definition ascii_lower (c : N) : N :=
  if ascii_isupper c then (c + 32)%N else c.

(** The character class [[a-z0-9_]]. *)
Definition underscore : N := 95.
Definition is_word_char (c : N) : bool :=
  ascii_islower c || ascii_isdigit c || (c =? underscore)%N.

(** The Unicode character database, consulted by [str.isalnum] and
    [str.lower] for code points outside ASCII.  [uni_lower s i c] is the
    lowercase expansion of the non-ASCII character [c] found at index [i]
    of [s] (the expansion may have several code points and may depend on
    the neighbours of [c]). *)
Class Unicode := {
  uni_isalnum : N → bool;
  uni_lower : pystr → nat → N → pystr
}.

Section with_unicode.
Context `{Unicode}.

(** [c.isalnum()] for a one-character string [c]. *)
Definition isalnum (c : N) : bool :=
  if is_ascii c then ascii_isalnum c else uni_isalnum c.

(** [s.lower()] *)
Definition lower (s : pystr) : pystr :=
  mjoin (imap (λ i c, if is_ascii c then [ascii_lower c] else uni_lower s i c) s).
End with_unicode.

(** The database restricted to the Latin-1 Supplement block (U+0080 to
    U+00FF); code points above U+00FF are not covered by this instance. *)
Definition latin1_isalnum (c : N) : bool :=
  bool_decide (c ∈ [170; 178; 179; 181; 185; 186; 188; 189; 190]%N)
  || in_range 192 214 c || in_range 216 246 c || in_range 248 255 c.

Definition latin1_lower (c : N) : N :=
  if in_range 192 222 c && negb (c =? 215)%N then (c + 32)%N else c.

Definition latin1 : Unicode :=
  {| uni_isalnum := latin1_isalnum;
     uni_lower := λ _ _ c, [latin1_lower c] |}.

End PyStr.
Import PyStr.


(** ** Numbers *)

Module Num.

(** The scalar arithmetic the code relies on: Python [float] and numpy
    scalar operations.  [lit q] is the value denoted by the decimal literal
    [q] of the source, [of_int] the implicit conversion of an [int] operand,
    [to_int] the truncation [int(x)], [fmaximum] the pairwise maximum
    folded by [ndarray.max]. *)
Class Arith (F : Type) := {
  lit : Q → F;
  of_int : Z → F;
  fadd : F → F → F;
  fsub : F → F → F;
  fmul : F → F → F;
  fdiv : F → F → F;
  fabs : F → F;
  flt : F → F → bool;
  feq : F → F → bool;
  fmaximum : F → F → F;
  to_int : F → Z
}.

(** The same arithmetic with another division operator. *)
Definition with_fdiv {F} (A : Arith F) (division : F → F → F) : Arith F :=
  {| lit := @lit F A;
     of_int := @of_int F A;
     fadd := @fadd F A;
     fsub := @fsub F A;
     fmul := @fmul F A;
     fdiv := division;
     fabs := @fabs F A;
     flt := @flt F A;
     feq := @feq F A;
     fmaximum := @fmaximum F A;
     to_int := @to_int F A |}.

(** Numerical library routines whose rounding is not fixed by the source:
    [np.sqrt], [np.log10], [np.mean], [np.std] and the float power
    operator.  They are parameters of the development. *)
Class NumLib (F : Type) := {
  np_sqrt : F → F;
  np_log10 : F → F;
  np_mean : list F → F;
  np_std : list F → F;
  py_pow : F → F → F
}.

(** *** IEEE 754 binary64 *)

(** Conversion of an integer; exact for magnitudes below [2^53]. *)
Definition float_of_Z (z : Z) : float :=
  if (z <? 0)%Z then PrimFloat.opp (PrimFloat.of_uint63 (Uint63.of_Z (- z)))
  else PrimFloat.of_uint63 (Uint63.of_Z z).

(** A decimal literal: the correctly rounded quotient of its numerator
    and denominator. *)
Definition float_lit (q : Q) : float :=
  PrimFloat.div (float_of_Z (Qnum q)) (float_of_Z (Zpos (Qden q))).

(** [np.maximum]: a NaN operand wins. *)
Definition float_maximum (a b : float) : float :=
  if PrimFloat.is_nan a then a
  else if PrimFloat.is_nan b then b
  else if PrimFloat.ltb a b then b else a.

(** [int(x)] for a finite [x]: truncation toward zero. *)
Definition float_to_int (x : float) : Z :=
  match Prim2SF x with
  | S754_finite s m e =>
      let v := if (0 <=? e)%Z then Z.shiftl (Zpos m) e
               else Z.shiftr (Zpos m) (- e) in
      if s then (- v)%Z else v
  | _ => 0%Z
  end.

Definition ieee_arith : Arith float :=
  {| lit := float_lit;
     of_int := float_of_Z;
     fadd := PrimFloat.add;
     fsub := PrimFloat.sub;
     fmul := PrimFloat.mul;
     fdiv := PrimFloat.div;
     fabs := PrimFloat.abs;
     flt := PrimFloat.ltb;
     feq := PrimFloat.eqb;
     fmaximum := float_maximum;
     to_int := float_to_int |}.

(** *** Exact rational arithmetic *)

Definition Q_ltb (a b : Q) : bool := negb (Qle_bool b a).

Definition exact_arith : Arith Q :=
  {| lit := λ q, q;
     of_int := inject_Z;
     fadd := Qplus;
     fsub := Qminus;
     fmul := Qmult;
     fdiv := Qdiv;
     fabs := Qabs;
     flt := Q_ltb;
     feq := Qeq_bool;
     fmaximum := λ a b, if Q_ltb a b then b else a;
     to_int := λ q, Z.quot (Qnum q) (Zpos (Qden q)) |}.

(** *** Stand-ins for the numerical library

    Used to run the code on concrete inputs.  Square roots are taken to
    64 fractional bits, logarithms to the nearest power of two below, and
    powers at integral exponents; the mean of an empty array is [0/0]. *)

Definition Q_sqrt (q : Q) : Q :=
  Z.sqrt (Qnum q * Zpos (Qden q) * 2 ^ 128) # (Qden q * 2 ^ 64).

Definition Q_sum (l : list Q) : Q := fold_left Qplus l 0%Q.

Definition Q_mean (l : list Q) : Q := Q_sum l / inject_Z (Z.of_nat (length l)).

Definition Q_std (l : list Q) : Q :=
  let m := Q_mean l in
  Q_sqrt (Q_mean (map (λ x, Qabs (x - m) * Qabs (x - m))%Q l)).

Definition Q_log10 (q : Q) : Q :=
  inject_Z (Z.log2 (Qnum q * 2 ^ 64 / Zpos (Qden q)) - 64) * (30103 # 100000).

Definition Q_pow (a b : Q) : Q := Qpower a (Z.quot (Qnum b) (Zpos (Qden b))).

Definition exact_numlib : NumLib Q :=
  {| np_sqrt := Q_sqrt;
     np_log10 := Q_log10;
     np_mean := Q_mean;
     np_std := Q_std;
     py_pow := Q_pow |}.

(** The rational denoted by a finite float. *)
Definition float_to_Q (x : float) : Q :=
  match Prim2SF x with
  | S754_finite s m e =>
      let v := if (0 <=? e)%Z then inject_Z (Zpos m * 2 ^ e)
               else Zpos m # (2 ^ Z.to_pos (- e)) in
      if s then Qopp v else v
  | _ => 0%Q
  end.

Definition float_mean (l : list float) : float :=
  PrimFloat.div (fold_left PrimFloat.add l 0%float)
                (float_of_Z (Z.of_nat (length l))).

Definition float_std (l : list float) : float :=
  let m := float_mean l in
  PrimFloat.sqrt
    (float_mean (map (λ x, let d := PrimFloat.abs (PrimFloat.sub x m) in
                           PrimFloat.mul d d) l)).

Definition ieee_numlib : NumLib float :=
  {| np_sqrt := PrimFloat.sqrt;
     np_log10 := λ x, float_lit (Q_log10 (float_to_Q x));
     np_mean := float_mean;
     np_std := float_std;
     py_pow := λ a b, float_lit (Q_pow (float_to_Q a) (float_to_Q b)) |}.

End Num.
Import Num.

(** ** Exceptions *)

Inductive exn : Type :=
  | ValueError (msg : pystr)
  | TypeError (msg : pystr)
  | ZeroDivisionError
  | FileNotFoundError (path : pystr)
  | FileExistsError (path : pystr)
  | IsADirectoryError (path : pystr)
  | KeyError (key : pystr)
  | LibraryError (msg : pystr)
  | Exception (msg : pystr).

(** [str(e)] *)
Definition str_of_exn (e : exn) : pystr :=
  match e with
  | ValueError msg | TypeError msg | LibraryError msg | Exception msg => msg
  | ZeroDivisionError => u "division by zero"
  | KeyError k => k
  | FileNotFoundError p => u "No such file or directory: " ++ p
  | FileExistsError p => u "File exists: " ++ p
  | IsADirectoryError p => u "Is a directory: " ++ p
  end.

(** The outcome of a call: a value, or a raised exception. *)
Inductive outcome (A : Type) : Type :=
  | Ok (a : A)
  | Raise (e : exn).
Arguments Ok {A} a.
Arguments Raise {A} e.

Definition outcome_bind {A B} (o : outcome A) (k : A → outcome B) : outcome B :=
  match o with
  | Ok a => k a
  | Raise e => Raise e
  end.

Notation "'do' x <- o ; k" := (outcome_bind o (λ x, k))
  (at level 10, x name, o at level 100, k at level 200).

(** ** [utils/audio_utils.py]: class [AudioProcessor] *)

Module AudioUtils.

(** Signal-processing library routines: [librosa.effects.trim], the
    high-pass Butterworth design followed by [scipy.signal.filtfilt], the
    resampler of [librosa.load], and the short-time Fourier transform gate
    of [reduce_noise].  The transforms may raise (on an empty or too short
    input, on non-finite samples). *)
Class Dsp (F : Type) := {
  librosa_effects_trim : list F → Z → outcome (list F);
  butter_highpass_filtfilt : Z → F → list F → outcome (list F);
  librosa_resample : Z → Z → list F → list F;
  stft_gate : list F → F → outcome (list F)
}.

Record AudioProcessor := { sample_rate : Z }.

(** [AudioProcessor()] *)
Definition default_processor : AudioProcessor := {| sample_rate := 22050 |}.

Section with_numbers.
Context {F : Type} `{Arith F, NumLib F, Dsp F}.

(** One entry of the [issues] list of a validation report. *)
Inductive issue : Type :=
  | AudioTooShort (duration min_duration : F)
  | AudioLevelTooLow
  | AudioMayBeClipping
  | LowSignalToNoiseRatio.

(** The dictionary returned by [validate_audio_quality]. *)
Record validation := {
  is_valid : bool;
  duration : F;
  rms : F;
  peak : F;
  snr_db : F;
  issues : list issue
}.

(** [a.max()] on an array: raises on an empty one. *)
Definition ndarray_max (a : list F) : outcome F :=
  match a with
  | [] => Raise (ValueError (u "zero-size array to reduction operation maximum which has no identity"))
  | x :: xs => Ok (fold_left fmaximum xs x)
  end.

(** [a[:n]] *)
Definition slice_to (a : list F) (n : Z) : list F :=
  if (0 <=? n)%Z then take (Z.to_nat n) a
  else take (length a - Z.to_nat (- n)) a.

(** [np.sqrt(np.mean(audio**2))] *)
Definition rms_of (audio : list F) : F :=
  np_sqrt (np_mean (map (λ x, fmul x x) audio)).

(** [np.abs(audio).max()] *)
Definition peak_of (audio : list F) : outcome F :=
  ndarray_max (map fabs audio).

Definition normalize_audio (self : AudioProcessor) (audio : list F)
    (target_level : F) : outcome (list F) :=
  let rms := rms_of audio in
  if feq rms (of_int 0) then Ok audio
  else
    let target_rms := py_pow (of_int 10) (fdiv target_level (of_int 20)) in
    let normalized := map (λ x, fmul x (fdiv target_rms rms)) audio in
    do max_val <- peak_of normalized;
    if flt (lit (1 # 1)) max_val
    then Ok (map (λ x, fmul (fdiv x max_val) (lit (99 # 100))) normalized)
    else Ok normalized.

(** The default [target_level=-20.0]. *)
Definition default_target_level : F := lit (-20 # 1).

Definition reduce_noise (self : AudioProcessor) (audio : list F)
    (noise_threshold : F) : outcome (list F) :=
  stft_gate audio noise_threshold.

Definition apply_highpass_filter (self : AudioProcessor) (audio : list F)
    (cutoff : F) (order : Z) : outcome (list F) :=
  let nyquist := fdiv (of_int (sample_rate self)) (of_int 2) in
  let normal_cutoff := fdiv cutoff nyquist in
  butter_highpass_filtfilt order normal_cutoff audio.

Definition trim_silence (self : AudioProcessor) (audio : list F)
    (top_db : Z) : outcome (list F) :=
  librosa_effects_trim audio top_db.

Definition add_issue (v : validation) (i : issue) : validation :=
  {| is_valid := is_valid v; duration := duration v; rms := rms v;
     peak := peak v; snr_db := snr_db v; issues := issues v ++ [i] |}.

Definition set_invalid (v : validation) : validation :=
  {| is_valid := false; duration := duration v; rms := rms v;
     peak := peak v; snr_db := snr_db v; issues := issues v |}.

Definition validate_audio_quality (self : AudioProcessor) (audio : list F)
    (min_duration : F) : outcome validation :=
  if (sample_rate self =? 0)%Z then Raise ZeroDivisionError
  else
    let duration :=
      fdiv (of_int (Z.of_nat (length audio))) (of_int (sample_rate self)) in
    let rms := rms_of audio in
    do peak <- peak_of audio;
    let noise_estimate :=
      np_std (slice_to audio
                (to_int (fmul (lit (1 # 10)) (of_int (sample_rate self))))) in
    let signal_estimate := np_std audio in
    let snr_value :=
      fmul (of_int 20)
           (np_log10 (fdiv signal_estimate
                           (fadd noise_estimate (lit (1 # 10000000000))))) in
    let validation :=
      {| is_valid := true; duration := duration; rms := rms; peak := peak;
         snr_db := snr_value; issues := [] |} in
    let validation :=
      if flt duration min_duration
      then add_issue (set_invalid validation) (AudioTooShort duration min_duration)
      else validation in
    let validation :=
      if flt rms (lit (1 # 100))
      then add_issue (set_invalid validation) AudioLevelTooLow
      else validation in
    let validation :=
      if flt (lit (99 # 100)) peak
      then add_issue validation AudioMayBeClipping
      else validation in
    let validation :=
      if flt snr_value (of_int 10)
      then add_issue validation LowSignalToNoiseRatio
      else validation in
    Ok validation.

Definition preprocess_for_tts (self : AudioProcessor) (audio : list F)
    : outcome (list F) :=
  do audio <- trim_silence self audio 30;
  do audio <- apply_highpass_filter self audio (lit (80 # 1)) 5;
  do audio <- reduce_noise self audio (lit (2 # 100));
  do audio <- normalize_audio self audio default_target_level;
  Ok audio.

End with_numbers.

Arguments issue : clear implicits.
Arguments validation : clear implicits.

End AudioUtils.
Import AudioUtils.

(** ** [datetime] *)

Module DateTime.

Record datetime := {
  year : N; month : N; day : N;
  hour : N; minute : N; second : N;
  microsecond : N
}.

Definition digit (n : N) : N := (48 + n mod 10)%N.
Definition pad2 (n : N) : pystr := [digit (n / 10); digit n].
Definition pad4 (n : N) : pystr :=
  [digit (n / 1000); digit (n / 100); digit (n / 10); digit n].
Definition pad6 (n : N) : pystr :=
  [digit (n / 100000); digit (n / 10000); digit (n / 1000);
   digit (n / 100); digit (n / 10); digit n].

(** [t.strftime("%Y%m%d_%H%M%S")] *)
Definition strftime_compact (t : datetime) : pystr :=
  pad4 (year t) ++ pad2 (month t) ++ pad2 (day t) ++ [underscore]
  ++ pad2 (hour t) ++ pad2 (minute t) ++ pad2 (second t).

(** [t.isoformat()] *)
Definition isoformat (t : datetime) : pystr :=
  pad4 (year t) ++ u "-" ++ pad2 (month t) ++ u "-" ++ pad2 (day t) ++ u "T"
  ++ pad2 (hour t) ++ u ":" ++ pad2 (minute t) ++ u ":" ++ pad2 (second t)
  ++ (if (microsecond t =? 0)%N then [] else u "." ++ pad6 (microsecond t)).

(** The values [datetime.now()] can return. *)
Definition wf_datetime (t : datetime) : Prop :=
  (1000 ≤ year t ≤ 9999 ∧ 1 ≤ month t ≤ 12 ∧ 1 ≤ day t ≤ 31
   ∧ hour t < 24 ∧ minute t < 60 ∧ second t < 60
   ∧ microsecond t < 1000000)%N.

(** The time of a [datetime] at the resolution of a second. *)
Definition to_second (t : datetime) : N * N * N * N * N * N :=
  (year t, month t, day t, hour t, minute t, second t).

End DateTime.
Import DateTime.

(** ** The process environment: file system, clock, log *)

Module OS.

(** JSON values stored in the metadata document. *)
#[warnings="-register-all"]
Inductive json (F : Type) : Type :=
  | JStr (s : pystr)
  | JNum (x : F)
  | JObj (fields : list (pystr * json F)).
Arguments JStr {F} s.
Arguments JNum {F} x.
Arguments JObj {F} fields.

(** One model record (a [dict]) and the [models] mapping of the metadata
    document [{"models": {...}}]. *)
Abbreviation model_info F := (gmap pystr (json F)).
Abbreviation models_metadata F := (gmap pystr (model_info F)).

(** What a file holds: a recording, a metadata document
    [{"models": {...}}], any other JSON value, or bytes that are none of
    these. *)
Inductive content (F : Type) : Type :=
  | Audio (rate : Z) (samples : list F)
  | Json (models : models_metadata F)
  | OtherJson (value : json F)
  | Bytes (data : list N).
Arguments Audio {F} rate samples.
Arguments Json {F} models.
Arguments OtherJson {F} value.
Arguments Bytes {F} data.

Inductive node (F : Type) : Type :=
  | File (c : content F)
  | Dir.
Arguments File {F} c.
Arguments Dir {F}.

Abbreviation filesystem F := (gmap pystr (node F)).

(** The arguments of one invocation of the speech model,
    [self.tts.tts_to_file(...)]. *)
Record tts_request := {
  rq_text : pystr;
  rq_file_path : pystr;
  rq_speaker_wav : option pystr;
  rq_language : option pystr
}.

Inductive level := INFO | WARNING | ERROR.

Inductive log_arg (F : Type) : Type :=
  | AStr (s : pystr)
  | AInt (n : Z)
  | AIssues (l : list (issue F))
  | AExn (e : exn).
Arguments AStr {F} s.
Arguments AInt {F} n.
Arguments AIssues {F} l.
Arguments AExn {F} e.

(** Observable events: log records and invocations of the speech model. *)
Inductive event (F : Type) : Type :=
  | Log (lvl : level) (template : pystr) (args : list (log_arg F))
  | ModelCall (rq : tts_request).
Arguments Log {F} lvl template args.
Arguments ModelCall {F} rq.

Record world (F : Type) := {
  fs : filesystem F;
  trace : list (event F);
  ticks : nat
}.
Arguments fs {F} w.
Arguments trace {F} w.
Arguments ticks {F} w.
Arguments Build_world {F} fs trace ticks.

(** What lies outside the program: the wall clock (its reading at each
    successive call of [datetime.now()]), the size of a file's encoding,
    the speech model, which may change the file system in any way and
    may raise, and the containers soundfile can write.  [sf_format_error]
    takes a file extension without its dot and returns the exception
    [sf.write] raises for it, if any: [TypeError] when the extension names
    no format or a format without default subtype, [ValueError] when the
    installed libsndfile cannot encode the format.  WAV is written by every
    build. *)
Class Env (F : Type) := {
  clock : nat → datetime;
  size_of : content F → Z;
  tts_to_file : tts_request → filesystem F → option exn * filesystem F;
  sf_format_error : pystr → option exn;
  sf_format_wav : sf_format_error (u "wav") = None
}.

(** *** A state and exception monad *)

Definition M (S A : Type) : Type := S → outcome A * S.

Definition ret {S A} (a : A) : M S A := λ s, (Ok a, s).

Definition raise {S A} (e : exn) : M S A := λ s, (Raise e, s).

Definition bind {S A B} (m : M S A) (k : A → M S B) : M S B :=
  λ s, match m s with
       | (Ok a, s') => k a s'
       | (Raise e, s') => (Raise e, s')
       end.

(** [try: m  except Exception as e: h e] *)
Definition try_except {S A} (m : M S A) (h : exn → M S A) : M S A :=
  λ s, match m s with
       | (Ok a, s') => (Ok a, s')
       | (Raise e, s') => h e s'
       end.

Definition lift {S A} (o : outcome A) : M S A := λ s, (o, s).

#[export] Instance M_ret {S} : MRet (M S) := λ A, ret.
#[export] Instance M_bind {S} : MBind (M S) := λ A B k m, bind m k.

Section operations.
Context {F : Type} `{Env F}.

Definition get_fs : M (world F) (filesystem F) := λ w, (Ok (fs w), w).

Definition put_fs (fs' : filesystem F) : M (world F) unit :=
  λ w, (Ok tt, {| fs := fs'; trace := trace w; ticks := ticks w |}).

Definition emit (e : event F) : M (world F) unit :=
  λ w, (Ok tt, {| fs := fs w; trace := trace w ++ [e]; ticks := ticks w |}).

(** [logger.info], [logger.warning], [logger.error] *)
Definition logger (lvl : level) (template : string) (args : list (log_arg F))
    : M (world F) unit :=
  emit (Log lvl (u template) args).

(** [datetime.now()] *)
Definition now : M (world F) datetime :=
  λ w, (Ok (clock (ticks w)),
        {| fs := fs w; trace := trace w; ticks := S (ticks w) |}).

(** [os.path.exists(p)] *)
Definition os_path_exists (p : pystr) : M (world F) bool :=
  fs0 ← get_fs; ret (bool_decide (is_Some (fs0 !! p))).

(** [os.path.getsize(p)] *)
Definition os_path_getsize (p : pystr) : M (world F) Z :=
  fs0 ← get_fs;
  match fs0 !! p with
  | Some (File c) => ret (size_of c)
  | Some Dir => ret 4096%Z
  | None => raise (FileNotFoundError p)
  end.

(** [os.makedirs(d, exist_ok=True)] *)
Definition os_makedirs (d : pystr) : M (world F) unit :=
  fs0 ← get_fs;
  match d with
  | [] => raise (FileNotFoundError d)
  | _ =>
      match fs0 !! d with
      | Some (File _) => raise (FileExistsError d)
      | Some Dir => ret tt
      | None => put_fs (<[d := Dir]> fs0)
      end
  end.

(** [os.remove(p)] *)
Definition os_remove (p : pystr) : M (world F) unit :=
  fs0 ← get_fs;
  match fs0 !! p with
  | Some (File _) => put_fs (delete p fs0)
  | Some Dir => raise (IsADirectoryError p)
  | None => raise (FileNotFoundError p)
  end.

(** Opening [p] for writing and storing [c]: the target must not be a
    directory and its parent directory must exist (an empty parent is the
    working directory). *)
Definition write_file (p : pystr) (c : content F) : M (world F) unit :=
  fs0 ← get_fs;
  match fs0 !! p with
  | Some Dir => raise (IsADirectoryError p)
  | _ =>
      match dirname p with
      | [] => put_fs (<[p := File c]> fs0)
      | d =>
          match fs0 !! d with
          | Some Dir => put_fs (<[p := File c]> fs0)
          | _ => raise (FileNotFoundError p)
          end
      end
  end.

(** Opening [p] for reading. *)
Definition read_file (p : pystr) : M (world F) (content F) :=
  fs0 ← get_fs;
  match fs0 !! p with
  | Some (File c) => ret c
  | Some Dir => raise (IsADirectoryError p)
  | None => raise (FileNotFoundError p)
  end.

(** One invocation of the speech model. *)
Definition call_tts (rq : tts_request) : M (world F) unit :=
  emit (ModelCall rq);;
  fs0 ← get_fs;
  let '(o, fs1) := tts_to_file rq fs0 in
  put_fs fs1;;
  match o with
  | None => ret tt
  | Some e => raise e
  end.

End operations.

End OS.
Import OS.

(** ** [utils/audio_utils.py]: the file operations of [AudioProcessor] *)

Module AudioIO.

Section with_env.
Context {F : Type} `{Arith F, NumLib F, Dsp F, Env F}.

(** [bool(s)] for a [str] *)
Definition truthy (s : pystr) : bool := negb (bool_decide (s = [])).

(** [librosa.load(file_path, sr=target_sr, mono=True)] *)
Definition librosa_load (file_path : pystr) (target_sr : Z)
    : M (world F) (list F * Z) :=
  c ← read_file file_path;
  match c with
  | Audio rate samples =>
      ret (if (rate =? target_sr)%Z then samples
           else librosa_resample rate target_sr samples, target_sr)
  | _ => raise (LibraryError (u "Format not recognised"))
  end.

Definition load_audio (self : AudioProcessor) (file_path : pystr)
    (target_sr : option Z) : M (world F) (list F * Z) :=
  let target_sr :=
    match target_sr with
    | None => sample_rate self
    | Some sr => sr
    end in
  librosa_load file_path target_sr.

(** [sf.write(file, data, samplerate)]: the container is derived from
    the extension of [file] before the file is opened. *)
Definition sf_write (file : pystr) (data : list F) (samplerate : Z)
    : M (world F) unit :=
  match sf_format_error (drop 1 (extension file)) with
  | Some e => raise e
  | None => write_file file (Audio samplerate data)
  end.

Definition save_audio (self : AudioProcessor) (audio_data : list F)
    (output_path : pystr) (sample_rate : option Z) : M (world F) unit :=
  let sample_rate :=
    match sample_rate with
    | None => AudioUtils.sample_rate self
    | Some sr => sr
    end in
  os_makedirs (dirname output_path);;
  audio_data ← lift (normalize_audio self audio_data default_target_level);
  sf_write output_path audio_data sample_rate.

End with_env.

End AudioIO.
Import AudioIO.

(** ** [tts_engine.py]: class [TTSEngine] *)

Module TtsEngine.

Record TTSEngine := {
  device : pystr;
  audio_processor : AudioProcessor;
  current_model : pystr
}.

Section with_env.
Context {F : Type} `{Arith F, NumLib F, Dsp F, Env F}.

(** The dictionary returned by [synthesize_speech] and [clone_voice]:
    with ["success": True] and the output description, to which
    [clone_voice] adds ["audio_quality"], or with ["success": False] and
    ["error"]. *)
Inductive synthesis_result : Type :=
  | Synthesized (output_path : pystr) (file_size : Z) (text_length : nat)
                (model : pystr) (audio_quality : option (validation F))
  | SynthesisFailed (error : pystr).

Definition success (r : synthesis_result) : bool :=
  match r with
  | Synthesized _ _ _ _ _ => true
  | SynthesisFailed _ => false
  end.

Definition set_audio_quality (r : synthesis_result) (v : validation F)
    : synthesis_result :=
  match r with
  | Synthesized p sz n m _ => Synthesized p sz n m (Some v)
  | SynthesisFailed e => SynthesisFailed e
  end.

Definition default_voice (text output_path : pystr) : M (world F) unit :=
  logger INFO "Using default voice" [];;
  call_tts {| rq_text := text; rq_file_path := output_path;
              rq_speaker_wav := None; rq_language := None |}.

Definition synthesize_speech (self : TTSEngine) (text output_path : pystr)
    (speaker_wav : option pystr) (language : pystr)
    : M (world F) synthesis_result :=
  try_except
    (os_makedirs (dirname output_path);;
     logger INFO "Synthesizing: '{}...'" [AStr (take 50 text)];;
     match speaker_wav with
     | Some wav =>
         cloning ← (if truthy wav then os_path_exists wav else ret false);
         if cloning : bool then
           logger INFO "Using speaker reference: {}" [AStr wav];;
           call_tts {| rq_text := text; rq_file_path := output_path;
                       rq_speaker_wav := Some wav;
                       rq_language := Some language |}
         else default_voice text output_path
     | None => default_voice text output_path
     end;;
     created ← os_path_exists output_path;
     if created : bool then
       file_size ← os_path_getsize output_path;
       logger INFO "Synthesis complete. Output size: {} bytes" [AInt file_size];;
       ret (Synthesized output_path file_size (length text)
                        (current_model self) None)
     else raise (Exception (u "Output file was not created")))
    (λ e,
       logger ERROR "Synthesis error: {}" [AExn e];;
       ret (SynthesisFailed (str_of_exn e))).

(** [reference_audio.replace(".wav", "_processed.wav")] *)
Definition temp_path_of (reference_audio : pystr) : pystr :=
  replace reference_audio (u ".wav") (u "_processed.wav").

Definition clone_voice (self : TTSEngine) (text reference_audio output_path
    language : pystr) : M (world F) synthesis_result :=
  logger INFO "Voice cloning with reference: {}" [AStr reference_audio];;
  try_except
    (loaded ← load_audio (audio_processor self) reference_audio None;
     let audio := loaded.1 in
     validation ← lift (validate_audio_quality (audio_processor self) audio
                                               (lit (5 # 1)));
     (if negb (is_valid validation)
      then logger WARNING "Audio quality issues: {}" [AIssues (issues validation)]
      else ret tt);;
     processed_audio ← lift (preprocess_for_tts (audio_processor self) audio);
     let temp_path := temp_path_of reference_audio in
     save_audio (audio_processor self) processed_audio temp_path None;;
     result ← synthesize_speech self text output_path (Some temp_path) language;
     present ← os_path_exists temp_path;
     (if present : bool then os_remove temp_path else ret tt);;
     ret (if success result then set_audio_quality result validation
          else result))
    (λ e,
       logger ERROR "Voice cloning error: {}" [AExn e];;
       ret (SynthesisFailed (str_of_exn e))).

End with_env.

Arguments synthesis_result : clear implicits.

End TtsEngine.
Import TtsEngine.

(** ** [voice_cloner.py]: class [VoiceCloner] *)

Module VoiceClonerModule.

(** The attributes of a [VoiceCloner] fixed at construction. *)
Record VoiceCloner := {
  models_dir : pystr;
  audio_processor : AudioProcessor;
  metadata_file : pystr
}.

Section with_env.
Context {F : Type} `{Arith F, NumLib F, Dsp F, Env F, Unicode}.

(** The mutable state a method runs in: the process environment and
    [self.metadata["models"]]. *)
Record state := {
  env : world F;
  metadata : models_metadata F
}.

(** Running an action of the process environment. *)
Definition in_env {A} (m : M (world F) A) : M state A :=
  λ s, let '(o, w) := m (env s) in
       (o, {| env := w; metadata := metadata s |}).

Definition get_metadata : M state (models_metadata F) :=
  λ s, (Ok (metadata s), s).

Definition put_metadata (md : models_metadata F) : M state unit :=
  λ s, (Ok tt, {| env := env s; metadata := md |}).

(** The dictionaries returned by [create_voice_model] and
    [update_model_info]. *)
Inductive create_result : Type :=
  | Created (model_id : pystr) (info : model_info F)
  | ValidationFailed (error : pystr) (issues : list (issue F))
  | CreateFailed (error : pystr).

Inductive update_result : Type :=
  | Updated (info : model_info F)
  | UpdateFailed (error : pystr).

(** What [json.load] returns, and so what [self.metadata] is bound to:
    a document [{"models": {...}}], given by its mapping, or any other
    JSON value.  The methods below are those of a cloner whose metadata
    is a document of the first kind. *)
Inductive document : Type :=
  | RegistryDoc (models : models_metadata F)
  | ForeignDoc (value : json F).

Definition _load_metadata (self : VoiceCloner) : M (world F) document :=
  present ← os_path_exists (metadata_file self);
  if present : bool then
    try_except
      (c ← read_file (metadata_file self);
       match c with
       | Json models => ret (RegistryDoc models)
       | OtherJson value => ret (ForeignDoc value)
       | _ => raise (ValueError (u "Expecting value"))
       end)
      (λ e,
         logger ERROR "Error loading metadata: {}" [AExn e];;
         ret (RegistryDoc ∅))
  else ret (RegistryDoc ∅).

Definition _save_metadata (self : VoiceCloner) : M state unit :=
  try_except
    (md ← get_metadata;
     in_env (write_file (metadata_file self) (Json md)))
    (λ e, in_env (logger ERROR "Error saving metadata: {}" [AExn e])).

(** [VoiceCloner(models_dir)] *)
Definition new_VoiceCloner (dir : pystr) : M (world F) (VoiceCloner * document) :=
  os_makedirs dir;;
  let self := {| models_dir := dir;
                 audio_processor := default_processor;
                 metadata_file := path_join dir (u "models_metadata.json") |} in
  md ← _load_metadata self;
  ret (self, md).

Definition _generate_model_id (self : VoiceCloner) (model_name : pystr)
    : M (world F) pystr :=
  let clean_name :=
    map (λ c, if isalnum c then c else underscore) (lower model_name) in
  t ← now;
  let timestamp := strftime_compact t in
  ret (clean_name ++ [underscore] ++ timestamp).

Definition new_model_info (model_id model_name description created_at
    reference_path : pystr) (validation : validation F) : model_info F :=
  list_to_map
    [ (u "id", JStr model_id);
      (u "name", JStr model_name);
      (u "description", JStr description);
      (u "created_at", JStr created_at);
      (u "reference_audio", JStr reference_path);
      (u "duration", JNum (duration validation));
      (u "quality_metrics",
         JObj [ (u "snr_db", JNum (snr_db validation));
                (u "rms", JNum (rms validation)) ]);
      (u "type", JStr (u "custom")) ].

Definition create_voice_model (self : VoiceCloner) (audio_path model_name
    description : pystr) : M state create_result :=
  try_except
    (in_env (logger INFO "Creating voice model: {}" [AStr model_name]);;
     loaded ← in_env (load_audio (audio_processor self) audio_path None);
     let audio := loaded.1 in
     validation ← lift (validate_audio_quality (audio_processor self) audio
                                               (lit (10 # 1)));
     if negb (is_valid validation) then
       ret (ValidationFailed (u "Audio quality validation failed")
                             (issues validation))
     else
       processed_audio ← lift (preprocess_for_tts (audio_processor self) audio);
       model_id ← in_env (_generate_model_id self model_name);
       let model_dir := path_join (models_dir self) model_id in
       in_env (os_makedirs model_dir);;
       let reference_path := path_join model_dir (u "reference.wav") in
       in_env (save_audio (audio_processor self) processed_audio
                          reference_path None);;
       created_at ← in_env now;
       let model_info :=
         new_model_info model_id model_name description
                        (isoformat created_at) reference_path validation in
       md ← get_metadata;
       put_metadata (<[model_id := model_info]> md);;
       _save_metadata self;;
       in_env (logger INFO "Voice model created successfully: {}" [AStr model_id]);;
       ret (Created model_id model_info))
    (λ e,
       in_env (logger ERROR "Error creating voice model: {}" [AExn e]);;
       ret (CreateFailed (str_of_exn e))).

(** [self.metadata["models"].get(model_id)] *)
Definition get_model (md : models_metadata F) (model_id : pystr)
    : option (model_info F) :=
  md !! model_id.

(** [self.metadata["models"][model_id][key] = value] *)
Definition set_field (model_id key : pystr) (value : json F) : M state unit :=
  md ← get_metadata;
  match md !! model_id with
  | Some info => put_metadata (<[model_id := <[key := value]> info]> md)
  | None => raise (KeyError model_id)
  end.

(** [self.metadata["models"][model_id]] *)
Definition get_item (model_id : pystr) : M state (model_info F) :=
  md ← get_metadata;
  match md !! model_id with
  | Some info => ret info
  | None => raise (KeyError model_id)
  end.

Definition update_model_info (self : VoiceCloner) (model_id : pystr)
    (name description : option pystr) : M state update_result :=
  try_except
    (md ← get_metadata;
     if bool_decide (model_id ∉ dom md) then
       ret (UpdateFailed (u "Model not found"))
     else
       (match name with
        | Some name =>
            if truthy name then set_field model_id (u "name") (JStr name)
            else ret tt
        | None => ret tt
        end);;
       (match description with
        | Some description =>
            set_field model_id (u "description") (JStr description)
        | None => ret tt
        end);;
       t ← in_env now;
       set_field model_id (u "updated_at") (JStr (isoformat t));;
       _save_metadata self;;
       info ← get_item model_id;
       ret (Updated info))
    (λ e,
       in_env (logger ERROR "Error updating model: {}" [AExn e]);;
       ret (UpdateFailed (str_of_exn e))).

End with_env.

Arguments state : clear implicits.
Arguments document : clear implicits.
Arguments create_result : clear implicits.
Arguments update_result : clear implicits.

End VoiceClonerModule.
Import VoiceClonerModule.

(** ** Vocabulary of the properties

    Derived notions in which the properties of Part II are stated: the
    effect of the elementary steps on the file system, the two halves of
    [clone_voice], and the record a call of [update_model_info] leaves. *)

Module Vocabulary.

Section audio.
Context {F : Type} `{Arith F, NumLib F}.

(** The issues a report carries, in the order the checks are made. *)
Definition expected_issues (d m r p s : F) : list (issue F) :=
  (if flt d m then [AudioTooShort d m] else [])
  ++ (if flt r (lit (1 # 100)) then [AudioLevelTooLow] else [])
  ++ (if flt (lit (99 # 100)) p then [AudioMayBeClipping] else [])
  ++ (if flt s (of_int 10) then [LowSignalToNoiseRatio] else []).

(** The RMS-scaled signal [audio * (target_rms / rms)]. *)
Definition rms_scaled (audio : list F) (target_level : F) : list F :=
  map (λ x, fmul x (fdiv (py_pow (of_int 10) (fdiv target_level (of_int 20)))
                         (rms_of audio))) audio.

End audio.

(** The pairwise maximum of the exact arithmetic. *)
Definition Q_maximum (a b : Q) : Q := if Q_ltb a b then b else a.

(** The format [YYYYMMDD_HHMMSS]. *)
Definition is_timestamp (s : list N) : bool :=
  match s with
  | [y1; y2; y3; y4; m1; m2; d1; d2; sep; h1; h2; n1; n2; s1; s2] =>
      forallb ascii_isdigit [y1; y2; y3; y4; m1; m2; d1; d2; h1; h2; n1; n2; s1; s2]
      && (sep =? underscore)%N
  | _ => false
  end.

Section files.
Context {F : Type} `{Env F}.

(** There is a regular file at [p]. *)
Definition is_file (fs0 : filesystem F) (p : pystr) : Prop :=
  ∃ c, fs0 !! p = Some (File c).

(** The file system after [os.makedirs(d, exist_ok=True)] has succeeded. *)
Definition with_dir (d : pystr) (fs0 : filesystem F) : filesystem F :=
  match fs0 !! d with
  | None => <[d := Dir]> fs0
  | Some _ => fs0
  end.

(** The world with another file system, and with one more event. *)
Definition set_fs (w : world F) (fs1 : filesystem F) : world F :=
  {| fs := fs1; trace := trace w; ticks := ticks w |}.

Definition add_event (w : world F) (e : event F) : world F :=
  {| fs := fs w; trace := trace w ++ [e]; ticks := ticks w |}.

(** The file system after the file at [p], if any, has been removed. *)
Definition without_file (p : pystr) (fs0 : filesystem F) : filesystem F :=
  match fs0 !! p with
  | Some (File _) => delete p fs0
  | _ => fs0
  end.

(** The clean-up step of [clone_voice]. *)
Definition cleanup (p : pystr) : M (world F) unit :=
  present ← os_path_exists p;
  if present : bool then os_remove p else ret tt.

(** The metadata file can be opened for writing. *)
Definition writable (fs0 : filesystem F) (p : list N) : Prop :=
  fs0 !! p ≠ Some Dir ∧ (dirname p = [] ∨ fs0 !! dirname p = Some Dir).

(** The world after one reading of the clock. *)
Definition after_now (w : world F) : world F :=
  {| fs := fs w; trace := trace w; ticks := S (ticks w) |}.

End files.

Section cloning.
Context {F : Type} `{Arith F, NumLib F, Dsp F, Env F}.

(** The samples [load_audio] returns for a stored recording. *)
Definition loaded_samples (self : AudioProcessor) (rate : Z) (samples : list F)
    : list F :=
  if (rate =? sample_rate self)%Z then samples
  else librosa_resample rate (sample_rate self) samples.

(** The warning [clone_voice] logs for an invalid reference. *)
Definition quality_warning (v : validation F) : list (event F) :=
  if is_valid v then []
  else [Log WARNING (u "Audio quality issues: {}") [AIssues (issues v)]].

(** The world once [clone_voice] has logged its first line. *)
Definition announced (w : world F) (reference_audio : pystr) : world F :=
  add_event w (Log INFO (u "Voice cloning with reference: {}")
                   [AStr reference_audio]).

(** The steps of [clone_voice] up to and including the creation of the
    temporary file: load, validate, warn, preprocess, save. *)
Definition prepare_reference (self : TTSEngine) (reference_audio : pystr)
    : M (world F) (validation F) :=
  loaded ← load_audio (TtsEngine.audio_processor self) reference_audio None;
  let audio := loaded.1 in
  validation ← lift (validate_audio_quality (TtsEngine.audio_processor self)
                                            audio (lit (5 # 1)));
  (if negb (is_valid validation)
   then logger WARNING "Audio quality issues: {}" [AIssues (issues validation)]
   else ret tt);;
  processed_audio ← lift (preprocess_for_tts (TtsEngine.audio_processor self) audio);
  save_audio (TtsEngine.audio_processor self) processed_audio
             (temp_path_of reference_audio) None;;
  ret validation.

(** The steps that follow: synthesis, clean-up, result. *)
Definition finish_cloning (self : TTSEngine) (text reference_audio output_path
    language : pystr) (validation : validation F)
    : M (world F) (synthesis_result F) :=
  result ← synthesize_speech self text output_path
                             (Some (temp_path_of reference_audio)) language;
  cleanup (temp_path_of reference_audio);;
  ret (if success result then set_audio_quality result validation else result).

(** The [except] clause of [clone_voice]. *)
Definition cloning_failed (e : exn) : M (world F) (synthesis_result F) :=
  logger ERROR "Voice cloning error: {}" [AExn e];;
  ret (SynthesisFailed (str_of_exn e)).

(** What makes the preparation succeed: the reference is a readable
    recording, validation, preprocessing and normalization return, and
    the temporary file can be created (its parent directory can be made,
    its path is not taken by a directory and its extension names a
    container soundfile writes). *)
Record reference_usable (self : TTSEngine) (fs0 : filesystem F)
    (reference_audio : pystr) (v : validation F) (out : list F) : Prop := {
  usable_recording :
    ∃ rate samples processed,
      let ap := TtsEngine.audio_processor self in
      fs0 !! reference_audio = Some (File (Audio rate samples))
      ∧ validate_audio_quality ap (loaded_samples ap rate samples) (lit (5 # 1))
        = Ok v
      ∧ preprocess_for_tts ap (loaded_samples ap rate samples) = Ok processed
      ∧ normalize_audio ap processed default_target_level = Ok out;
  usable_parent : dirname (temp_path_of reference_audio) ≠ [];
  usable_parent_dir : ¬ is_file fs0 (dirname (temp_path_of reference_audio));
  usable_target : fs0 !! temp_path_of reference_audio ≠ Some Dir;
  usable_target_name :
    temp_path_of reference_audio ≠ dirname (temp_path_of reference_audio);
  usable_format :
    sf_format_error (drop 1 (extension (temp_path_of reference_audio))) = None
}.

(** The file system once the temporary file has been written. *)
Definition with_temp_file (self : TTSEngine) (reference_audio : pystr)
    (out : list F) (fs0 : filesystem F) : filesystem F :=
  <[temp_path_of reference_audio :=
      File (Audio (sample_rate (TtsEngine.audio_processor self)) out)]>
    (with_dir (dirname (temp_path_of reference_audio)) fs0).

(** The request [synthesize_speech] makes in voice-cloning mode. *)
Definition cloning_request (text output_path wav language : list N)
    : tts_request :=
  {| rq_text := text; rq_file_path := output_path;
     rq_speaker_wav := Some wav; rq_language := Some language |}.

End cloning.

Section registry.
Context {F : Type} `{Env F, Unicode}.

(** The model name, lowercased, with every character that is not
    alphanumeric replaced by an underscore. *)
Definition sanitized_name (model_name : list N) : list N :=
  map (λ c, if isalnum c then c else underscore) (lower model_name).

(** The effect of the optional arguments on a model record: a name is
    applied when it is given and non-empty, a description when it is
    given. *)
Definition apply_name (name : option (list N)) (info : model_info F)
    : model_info F :=
  match name with
  | Some n => if truthy n then <[u "name" := JStr n]> info else info
  | None => info
  end.

(** See [apply_name]. *)
Definition apply_description (description : option (list N))
    (info : model_info F) : model_info F :=
  match description with
  | Some d => <[u "description" := JStr d]> info
  | None => info
  end.

(** The record after an update stamped [stamp]. *)
Definition updated_info (name description : option (list N))
    (stamp : list N) (info : model_info F) : model_info F :=
  <[u "updated_at" := JStr stamp]>
    (apply_description description (apply_name name info)).

(** The state an update leaves: the record is replaced in memory and the
    metadata document on disk holds the new mapping. *)
Definition update_outcome (self : VoiceCloner) (model_id : list N)
    (s s' : state F) (info' : model_info F) : Prop :=
  get_model (metadata s') model_id = Some info'
  ∧ (∀ other, other ≠ model_id →
       get_model (metadata s') other = get_model (metadata s) other)
  ∧ info' !! u "updated_at"
    = Some (JStr (isoformat (clock (ticks (env s)))))
  ∧ fs (env s') !! metadata_file self = Some (File (Json (metadata s'))).

End registry.

End Vocabulary.
Import Vocabulary.

(** ** Test doubles

    Concrete libraries and environments on which the code can be run. *)

Module Fixtures.

(** Signal-processing routines that pass the samples through. *)
Definition passthrough_dsp {F} : Dsp F :=
  {| librosa_effects_trim := λ a _, Ok a;
     butter_highpass_filtfilt := λ _ _ a, Ok a;
     librosa_resample := λ _ _ a, a;
     stft_gate := λ a _, Ok a |}.

(** A clock that advances by one second at every reading, from
    2024-01-01 12:00:00. *)
Definition ticking_clock (n : nat) : datetime :=
  {| year := 2024; month := 1; day := 1; hour := 12;
     minute := (N.of_nat n / 60) mod 60; second := N.of_nat n mod 60;
     microsecond := 0 |}.

Definition encoded_size {F} (c : content F) : Z :=
  match c with
  | Audio _ samples => 44 + 2 * Z.of_nat (length samples)
  | Json _ => 2
  | OtherJson _ => 2
  | Bytes data => Z.of_nat (length data)
  end.

(** Speech-model stubs: one that writes its output file, one that returns
    without writing anything, one that raises. *)
Definition writing_model {F} (rq : tts_request) (fs0 : filesystem F)
    : option exn * filesystem F :=
  (None, <[rq_file_path rq := File (Bytes (rq_text rq))]> fs0).

Definition silent_model {F} (rq : tts_request) (fs0 : filesystem F)
    : option exn * filesystem F :=
  (None, fs0).

Definition failing_model {F} (rq : tts_request) (fs0 : filesystem F)
    : option exn * filesystem F :=
  (Some (Exception (u "CUDA out of memory")), fs0).

(** A soundfile that writes WAV, FLAC, OGG and MP3, whatever the case of
    the extension. *)
Definition known_format (ext : pystr) : option exn :=
  if bool_decide (map ascii_lower ext ∈ [u "wav"; u "flac"; u "ogg"; u "mp3"])
  then None
  else Some (TypeError (u "No format specified and unable to get format from file extension")).

Definition env_with {F}
    (model : tts_request → filesystem F → option exn * filesystem F) : Env F :=
  {| clock := ticking_clock; size_of := encoded_size; tts_to_file := model;
     sf_format_error := known_format; sf_format_wav := eq_refl |}.

Definition engine : TTSEngine :=
  {| device := u "cpu";
     TtsEngine.audio_processor := default_processor;
     current_model := u "tts_models/multilingual/multi-dataset/xtts_v2" |}.

Definition cloner : VoiceCloner :=
  {| models_dir := u "models";
     VoiceClonerModule.audio_processor := default_processor;
     metadata_file := u "models/models_metadata.json" |}.

End Fixtures.
Import Fixtures.

(** A studio with one uploaded recording of four samples. *)
Module Studio.

Definition recording : list float :=
  [0.5%float; (-0.5)%float; 0.25%float; (-0.25)%float].

Definition files : filesystem float :=
  {[ u "uploads" := Dir;
     u "uploads/voice.wav" := File (Audio 22050 recording);
     u "uploads/voice.mp3" := File (Audio 22050 recording);
     u "outputs" := Dir ]}.

Definition initial : world float :=
  {| fs := files; trace := []; ticks := 0 |}.

End Studio.

(** A registry with one model, and the same registry with a three-second
    upload waiting to be turned into a model. *)
Module Registry.

Definition files : filesystem float :=
  {[ u "models" := Dir; u "uploads" := Dir ]}.

Definition voice : model_info float :=
  {[ u "id" := JStr (u "my_voice__20240101_120000");
     u "name" := JStr (u "My Voice!");
     u "description" := JStr (u "first take");
     u "type" := JStr (u "custom") ]}.

Definition models : models_metadata float :=
  {[ u "my_voice__20240101_120000" := voice ]}.

Definition initial : state float :=
  {| env := {| fs := files; trace := []; ticks := 0 |};
     metadata := models |}.

Definition clip : list float := repeat 0.5%float (Z.to_nat 66150).

Definition uploaded : state float :=
  {| env := {| fs := <[u "uploads/clip.wav" := File (Audio 22050 clip)]> files;
               trace := []; ticks := 0 |};
     metadata := models |}.

End Registry.

(** ** [shutil] *)

Module Shutil.

Section with_world.
Context {F : Type}.

(** [p] lies below the directory [d]. *)
Definition below (d p : pystr) : bool := startswith (d ++ [slash]) p.

(** The entries that are neither [d] nor below it. *)
Definition outside (d : pystr) (fs0 : filesystem F) : filesystem F :=
  filter (λ kv, kv.1 ≠ d ∧ below d kv.1 = false) fs0.

(** [shutil.rmtree(d)]: removes the directory [d] with everything below
    it; raises ([NotADirectoryError], [FileNotFoundError]) when [d] is
    not a directory. *)
Definition shutil_rmtree (d : pystr) : M (world F) unit :=
  fs0 ← get_fs;
  match fs0 !! d with
  | Some Dir => put_fs (outside d fs0)
  | Some (File _) => raise (Exception (u "Not a directory: " ++ d))
  | None => raise (FileNotFoundError d)
  end.

End with_world.

End Shutil.
Import Shutil.

(** ** [voice_cloner.py]: listing, deletion and presets *)

Module VoiceClonerRegistry.

Section with_env.
Context {F : Type} `{Env F}.

(** The dictionary returned by [delete_model]. *)
Inductive delete_result : Type :=
  | Deleted (message : pystr)
  | DeleteFailed (error : pystr).

(** [list(self.metadata["models"].values())]; the records are listed in
    the order in which the map enumerates its keys. *)
Definition get_all_models (md : models_metadata F) : list (model_info F) :=
  (map_to_list md).*2.

(** [del self.metadata["models"][model_id]] *)
Definition del_item (model_id : pystr) : M (state F) unit :=
  md ← get_metadata;
  match md !! model_id with
  | Some _ => put_metadata (delete model_id md)
  | None => raise (KeyError model_id)
  end.

Definition delete_model (self : VoiceCloner) (model_id : pystr)
    : M (state F) delete_result :=
  try_except
    (md ← get_metadata;
     if bool_decide (model_id ∉ dom md) then
       ret (DeleteFailed (u "Model not found"))
     else
       let model_dir := path_join (models_dir self) model_id in
       present ← in_env (os_path_exists model_dir);
       (if present : bool then in_env (shutil_rmtree model_dir) else ret tt);;
       del_item model_id;;
       _save_metadata self;;
       in_env (logger INFO "Model deleted: {}" [AStr model_id]);;
       ret (Deleted (u "Model deleted successfully")))
    (λ e,
       in_env (logger ERROR "Error deleting model: {}" [AExn e]);;
       ret (DeleteFailed (str_of_exn e))).

(** One entry of the [presets] list of [add_preset_voices]. *)
Definition preset (id name description created_at : pystr) : model_info F :=
  list_to_map
    [ (u "id", JStr id);
      (u "name", JStr name);
      (u "description", JStr description);
      (u "type", JStr (u "preset"));
      (u "created_at", JStr created_at) ].

(** [for x in l: body(x)] *)
Fixpoint for_each {S A} (l : list A) (body : A → M S unit) : M S unit :=
  match l with
  | [] => ret tt
  | x :: l' => body x;; for_each l' body
  end.

Definition morgan_freeman : pystr := u "preset_morgan_freeman".
Definition david_attenborough : pystr := u "preset_david_attenborough".

Definition add_preset_voices (self : VoiceCloner) : M (state F) unit :=
  t1 ← in_env now;
  t2 ← in_env now;
  let presets :=
    [ (morgan_freeman,
       preset morgan_freeman (u "Morgan Freeman")
              (u "Deep, authoritative voice") (isoformat t1));
      (david_attenborough,
       preset david_attenborough (u "David Attenborough")
              (u "Nature documentary style") (isoformat t2)) ] in
  for_each presets
    (λ p, md ← get_metadata;
          if bool_decide (p.1 ∉ dom md)
          then put_metadata (<[p.1 := p.2]> md)
          else ret tt);;
  _save_metadata self;;
  in_env (logger INFO "Preset voices added" []).

End with_env.

Arguments delete_result : clear implicits.

End VoiceClonerRegistry.
Import VoiceClonerRegistry.

(** ** [tts_engine.py]: construction of a [TTSEngine] *)

Module TtsEngineSetup.

(** The deep-learning runtime: whether CUDA is available, and what
    [TTS(model_name).to(device)] does for a model name and a device: it
    may change the file system (models are downloaded to a cache) and
    returns, or raises. *)
Class Runtime (F : Type) := {
  cuda_is_available : bool;
  load_model : pystr → pystr → filesystem F → option exn * filesystem F
}.

Definition xtts_v2 : pystr :=
  u "tts_models/multilingual/multi-dataset/xtts_v2".
Definition tacotron2_DDC : pystr :=
  u "tts_models/en/ljspeech/tacotron2-DDC".

Section with_env.
Context {F : Type} `{Env F, Runtime F}.

(** [self.tts = TTS(model_name).to(self.device)] *)
Definition tts_load (model_name device : pystr) : M (world F) unit :=
  fs0 ← get_fs;
  let '(o, fs1) := load_model model_name device fs0 in
  put_fs fs1;;
  match o with
  | None => ret tt
  | Some e => raise e
  end.

(** Returns the name stored in [self.current_model]. *)
Definition _load_default_model (device : pystr) : M (world F) pystr :=
  try_except
    (let model_name := xtts_v2 in
     logger INFO "Loading model: {}" [AStr model_name];;
     tts_load model_name device;;
     logger INFO "Model loaded successfully" [];;
     ret model_name)
    (λ e,
       logger ERROR "Error loading default model: {}" [AExn e];;
       try_except
         (let model_name := tacotron2_DDC in
          logger INFO "Falling back to: {}" [AStr model_name];;
          tts_load model_name device;;
          ret model_name)
         (λ e2,
            logger ERROR "Error loading fallback model: {}" [AExn e2];;
            raise e2)).

(** [TTSEngine(use_gpu)] *)
Definition new_TTSEngine (use_gpu : bool) : M (world F) TTSEngine :=
  let device := if use_gpu && cuda_is_available then u "cuda" else u "cpu" in
  logger INFO "Initializing TTS Engine on {}" [AStr device];;
  current ← _load_default_model device;
  ret {| device := device;
         TtsEngine.audio_processor := default_processor;
         current_model := current |}.

End with_env.

End TtsEngineSetup.
Import TtsEngineSetup.

(** ** [main.py]: the model endpoints *)

Module Api.

(** What an endpoint does: it returns a body, or raises an
    [HTTPException]. *)
Inductive response (A : Type) : Type :=
  | Returned (body : A)
  | HTTPException (status_code : Z) (detail : pystr).
Arguments Returned {A} body.
Arguments HTTPException {A} status_code detail.

(** The body of [PUT /models/{model_id}]. *)
Record ModelUpdateRequest := {
  request_name : option pystr;
  request_description : option pystr
}.

Section with_env.
Context {F : Type} `{Env F}.

(** [GET /models/{model_id}]; [if model:] holds of a record that is not
    empty. *)
Definition get_model_endpoint (md : models_metadata F) (model_id : pystr)
    : response (model_info F) :=
  match get_model md model_id with
  | Some model =>
      if bool_decide (model = ∅)
      then HTTPException 404 (u "Model not found")
      else Returned model
  | None => HTTPException 404 (u "Model not found")
  end.

(** [PUT /models/{model_id}]; an [HTTPException] raised in the [try]
    block passes the handler of [Exception] unchanged. *)
Definition update_model_endpoint (voice_cloner : VoiceCloner)
    (model_id : pystr) (request : ModelUpdateRequest)
    : M (state F) (response (model_info F)) :=
  try_except
    (result ← update_model_info voice_cloner model_id
                (request_name request) (request_description request);
     match result with
     | Updated info => ret (Returned info)
     | UpdateFailed error => ret (HTTPException 400 error)
     end)
    (λ e,
       in_env (logger ERROR "Update error: {}" [AExn e]);;
       ret (HTTPException 500 (str_of_exn e))).

(** [DELETE /models/{model_id}] *)
Definition delete_model_endpoint (voice_cloner : VoiceCloner)
    (model_id : pystr) : M (state F) (response pystr) :=
  try_except
    (result ← delete_model voice_cloner model_id;
     match result with
     | Deleted message => ret (Returned message)
     | DeleteFailed error => ret (HTTPException 400 error)
     end)
    (λ e,
       in_env (logger ERROR "Delete error: {}" [AExn e]);;
       ret (HTTPException 500 (str_of_exn e))).

End with_env.

End Api.
Import Api.

(** ** Vocabulary of the further properties *)

Module Observations.

Section engine.
Context {F : Type} `{Env F}.

(** The request [synthesize_speech] makes in default-voice mode. *)
Definition default_request (text output_path : list N) : tts_request :=
  {| rq_text := text; rq_file_path := output_path;
     rq_speaker_wav := None; rq_language := None |}.

(** The request of a call, given the file system at the time the
    speaker path is looked up: voice-cloning mode when a non-empty
    speaker path is given and exists, default-voice mode otherwise. *)
Definition request_of (text output_path : list N)
    (speaker_wav : option (list N)) (language : list N)
    (fs1 : filesystem F) : tts_request :=
  match speaker_wav with
  | Some wav =>
      if truthy wav && bool_decide (is_Some (fs1 !! wav))
      then cloning_request text output_path wav language
      else default_request text output_path
  | None => default_request text output_path
  end.

(** The requests made to the speech model, in order. *)
Definition model_calls (l : list (event F)) : list tts_request :=
  omap (λ e, match e with ModelCall rq => Some rq | Log _ _ _ => None end) l.

(** [os.makedirs(d, exist_ok=True)] has at most the directory [d] itself
    to make: [d] exists, or it has no parent part, or its parent
    exists. *)
Definition within_reach (fs0 : filesystem F) (d : list N) : Prop :=
  fs0 !! d = Some Dir ∨ dirname d = [] ∨ fs0 !! dirname d = Some Dir.

(** What [os.path.getsize] returns for an entry. *)
Definition node_size (n : node F) : Z :=
  match n with
  | File c => size_of c
  | Dir => 4096
  end.

End engine.

Section registry.
Context {F : Type}.

(** [p] is the directory [d] or lies below it. *)
Definition in_tree (d p : list N) : Prop := p = d ∨ below d p = true.

(** A single path component: joined to a directory it names an entry
    of that directory. *)
Definition plain_component (name : list N) : Prop :=
  name ≠ [] ∧ (slash ∉ name) ∧ (name ≠ u ".") ∧ (name ≠ u "..").

(** The file system once the tree rooted at [d], if [d] is a directory,
    has been removed. *)
Definition without_tree (d : list N) (fs0 : filesystem F) : filesystem F :=
  match fs0 !! d with
  | Some Dir => outside d fs0
  | _ => fs0
  end.

(** [if k not in m: m[k] = v] *)
Definition add_if_absent {A} (k : list N) (v : A) (m : gmap (list N) A)
    : gmap (list N) A :=
  match m !! k with
  | Some _ => m
  | None => <[k := v]> m
  end.

(** The two presets, stamped. *)
Definition morgan_preset (created_at : list N) : model_info F :=
  preset morgan_freeman (u "Morgan Freeman")
         (u "Deep, authoritative voice") created_at.

Definition david_preset (created_at : list N) : model_info F :=
  preset david_attenborough (u "David Attenborough")
         (u "Nature documentary style") created_at.

(** The mapping with the presets added where their ids are free. *)
Definition with_presets (t1 t2 : datetime) (md : models_metadata F)
    : models_metadata F :=
  add_if_absent david_attenborough (david_preset (isoformat t2))
    (add_if_absent morgan_freeman (morgan_preset (isoformat t1)) md).

(** The world after the line [lvl: template % args] has been logged. *)
Definition logged (w : world F) (lvl : level) (template : string)
    (args : list (log_arg F)) : world F :=
  add_event w (Log lvl (u template) args).

End registry.

Section creation.
Context {F : Type} `{Arith F, NumLib F, Dsp F, Env F, Unicode}.

(** The id [create_voice_model] gives a model created when the clock
    reads [t]. *)
Definition model_id_at (model_name : list N) (t : datetime) : list N :=
  sanitized_name model_name ++ [underscore] ++ strftime_compact t.

(** The directory and the reference recording of a model. *)
Definition model_dir_of (self : VoiceCloner) (model_id : list N) : list N :=
  path_join (models_dir self) model_id.

Definition reference_path_of (self : VoiceCloner) (model_id : list N)
    : list N :=
  path_join (model_dir_of self model_id) (u "reference.wav").

(** The upload is a recording that passes the validation of
    [create_voice_model] with the report [v], and that the libraries
    preprocess and normalize to the waveform [out]. *)
Record accepted_recording (self : VoiceCloner) (fs0 : filesystem F)
    (audio_path : list N) (v : validation F) (out : list F) : Prop := {
  accepted_audio :
    ∃ rate samples processed,
      let ap := VoiceClonerModule.audio_processor self in
      fs0 !! audio_path = Some (File (Audio rate samples))
      ∧ validate_audio_quality ap (loaded_samples ap rate samples)
                               (lit (10 # 1)) = Ok v
      ∧ preprocess_for_tts ap (loaded_samples ap rate samples) = Ok processed
      ∧ normalize_audio ap processed default_target_level = Ok out;
  accepted_valid : is_valid v = true
}.

(** The registry directory exists, the model directory can be made in
    it, the reference recording and the metadata file can be written,
    and the metadata file is neither of them. *)
Record slot_free (self : VoiceCloner) (fs0 : filesystem F)
    (model_id : list N) : Prop := {
  slot_registry : fs0 !! models_dir self = Some Dir;
  slot_dir : ¬ is_file fs0 (model_dir_of self model_id);
  slot_reference : fs0 !! reference_path_of self model_id ≠ Some Dir;
  slot_metadata : writable fs0 (metadata_file self);
  slot_metadata_dir : metadata_file self ≠ model_dir_of self model_id;
  slot_metadata_reference :
    metadata_file self ≠ reference_path_of self model_id;
  slot_metadata_parent :
    dirname (metadata_file self) ≠ reference_path_of self model_id
}.

End creation.

End Observations.
Import Observations.

(** A registry whose model has its directory and its reference recording on
    disk. *)
Module Shelf.

Definition model_id : pystr := u "my_voice__20240101_120000".

Definition files : filesystem float :=
  {[ u "models" := Dir;
     u "models/my_voice__20240101_120000" := Dir;
     u "models/my_voice__20240101_120000/reference.wav"
       := File (Audio 22050 Studio.recording);
     u "models/models_metadata.json" := File (Json Registry.models);
     u "uploads" := Dir ]}.

Definition initial : state float :=
  {| env := {| fs := files; trace := []; ticks := 0 |};
     metadata := Registry.models |}.

End Shelf.

(** The registry with a ten-second upload (220500 samples at 22050 Hz)
    waiting to be turned into a model. *)
Module Intake.

Definition take : list float := repeat 0.5%float (Z.to_nat 220500).

Definition uploaded : state float :=
  {| env := {| fs := <[u "uploads/take.wav" := File (Audio 22050 take)]>
                       Registry.files;
               trace := []; ticks := 0 |};
     metadata := Registry.models |}.

End Intake.

(** ** Binary64 values as magnitudes *)

Module Binary64.

(** The magnitude of a binary64 value, counted in units of the smallest
    subnormal number [2^-1074]; an infinity counts as [2^2200], above
    every finite value; NaN has none. *)
Definition magnitude (x : spec_float) : option Z :=
  match x with
  | S754_zero _ => Some 0%Z
  | S754_finite _ m e => Some (Zpos m * 2 ^ (e + 1074))%Z
  | S754_infinity _ => Some (2 ^ 2200)%Z
  | S754_nan => None
  end.

Definition mag (x : float) : option Z := magnitude (Prim2SF x).

(** The constant [0.99]. *)
Definition C99 : spec_float := S754_finite false 8917127262193582 (-53).

(** A sample that is zero, of either sign. *)
Definition is_zero_sample (x : float) : Prop := PrimFloat.eqb x 0 = true.

End Binary64.
Import Binary64.

(** ** Vocabulary of the cloning properties *)

Module Staging.

(** [sep.join(parts)] *)
Fixpoint join (sep : pystr) (parts : list pystr) : pystr :=
  match parts with
  | [] => []
  | [s] => s
  | s :: rest => s ++ sep ++ join sep rest
  end.

Section with_env.
Context {F : Type} `{Arith F, NumLib F, Dsp F, Env F}.


(** The temporary file cannot be written, whatever the recording: its
    path has no directory part, on which [os.makedirs] raises, or an
    extension soundfile rejects. *)
Definition unwritable_temp (reference_audio : pystr) : Prop :=
  dirname (temp_path_of reference_audio) = []
  ∨ is_Some (sf_format_error
               (drop 1 (extension (temp_path_of reference_audio)))).

End with_env.

End Staging.
Import Staging.

(** A desk with a recording in the working directory and one with an
    extension that names no audio format. *)
Module Desk.

Definition files : filesystem float :=
  {[ u "voice.mp3" := File (Audio 22050 Studio.recording);
     u "uploads" := Dir;
     u "uploads/voice.bin" := File (Audio 22050 Studio.recording);
     u "outputs" := Dir ]}.

Definition initial : world float :=
  {| fs := files; trace := []; ticks := 0 |}.

End Desk.
(* ================================================================= *)
(** * Part II: properties *)
(* ================================================================= *)

(** ** Sanity checks of the string primitives *)

Example dirname_ex1 : dirname (u "models/a_1/reference.wav") = u "models/a_1".
Proof. reflexivity. Qed.
Example dirname_ex2 : dirname (u "ref.wav") = [] ∧ dirname (u "/ref.wav") = u "/"
  ∧ dirname (u "a//b") = u "a" ∧ dirname (u "a/b/") = u "a/b".
Proof. repeat split; reflexivity. Qed.
Example replace_ex1 :
  replace (u "a.wav/b.wavx.wa") (u ".wav") (u "_processed.wav")
  = u "a_processed.wav/b_processed.wavx.wa".
Proof. reflexivity. Qed.
Example lower_ex1 : @lower latin1 (u "My Voice!") = u "my voice!".
Proof. reflexivity. Qed.

(** ** [str.replace] *)

Section replace_facts.
Context (old new : list N).

Lemma replace_from_skip (k : nat) (s : list N) :
  replace_from old new k s = replace_from old new 0 (drop k s).
Proof.
  revert k. induction s as [|c s IH]; intros [|k]; try reflexivity.
  cbn [replace_from drop]. apply IH.
Qed.

(** An occurrence at the head is replaced and the scan resumes after it. *)
Lemma replace_occurrence (s : list N) :
  old ≠ [] → startswith old s = true →
  replace s old new = new ++ replace (drop (length old) s) old new.
Proof.
  intros Hold Hs. unfold replace.
  destruct s as [|c s]; [by destruct old|].
  cbn [replace_from]. rewrite Hs, replace_from_skip.
  destruct old as [|o old']; [done|]. cbn [length drop].
  by replace (S (length old') - 1) with (length old') by lia.
Qed.

(** Otherwise the head character is kept. *)
Lemma replace_keep (c : N) (s : list N) :
  startswith old (c :: s) = false →
  replace (c :: s) old new = c :: replace s old new.
Proof. intros Hs. unfold replace. cbn [replace_from]. by rewrite Hs. Qed.

(** A string without occurrence is returned as it is. *)
Lemma replace_absent (s : list N) :
  contains old s = false → replace s old new = s.
Proof.
  induction s as [|c s IH]; [done|]. cbn [contains].
  intros [Hs Hc]%orb_false_iff. rewrite replace_keep by done.
  by rewrite IH.
Qed.

Lemma startswith_length (p s : list N) :
  startswith p s = true → length p ≤ length s.
Proof.
  revert s. induction p as [|a p IH]; intros [|b s]; cbn; try done; [lia|].
  intros [_ Hs]%andb_true_iff. apply IH in Hs. lia.
Qed.

(** When the replacement is longer than the pattern, replacing never
    shortens the string, and lengthens it if there is an occurrence. *)
Lemma replace_length (s : list N) :
  old ≠ [] → length old < length new →
  length s ≤ length (replace s old new)
  ∧ (contains old s = true → length s < length (replace s old new)).
Proof.
  intros Hold Hlen.
  remember (length s) as n eqn:Hn. revert s Hn.
  induction (lt_wf n) as [n _ IH]. intros s ->.
  destruct s as [|c s].
  - split; [cbn; lia|]. cbn. rewrite orb_false_r. by destruct old.
  - destruct (startswith old (c :: s)) eqn:Hs.
    + rewrite replace_occurrence by done.
      pose proof (startswith_length _ _ Hs) as Hle.
      assert (0 < length old) by (destruct old; [done|cbn; lia]).
      destruct (IH (length (drop (length old) (c :: s)))
                   ltac:(rewrite length_drop; cbn in *; lia)
                   (drop (length old) (c :: s)) eq_refl) as [IH1 _].
      rewrite length_drop in IH1. rewrite length_app. split; [lia|]. lia.
    + rewrite replace_keep by done. cbn [length contains]. rewrite Hs.
      destruct (IH (length s) ltac:(cbn; lia) s eq_refl) as [IH1 IH2].
      split; [lia|]. cbn. intros Hc. apply IH2 in Hc. lia.
Qed.

Lemma replace_present_differs (s : list N) :
  old ≠ [] → length old < length new → contains old s = true →
  replace s old new ≠ s.
Proof.
  intros Hold Hlen Hc E. destruct (replace_length s Hold Hlen) as [_ Hlt].
  apply Hlt in Hc. rewrite E in Hc. lia.
Qed.

End replace_facts.

(** The temporary path of [clone_voice] is the reference path itself
    exactly when the reference path has no [".wav"] in it. *)
Lemma temp_path_of_same (reference_audio : list N) :
  temp_path_of reference_audio = reference_audio
  ↔ contains (u ".wav") reference_audio = false.
Proof.
  unfold temp_path_of. split.
  - intros E. destruct (contains (u ".wav") reference_audio) eqn:Hc; [|done].
    by apply replace_present_differs in E; [| |cbn; lia|].
  - apply replace_absent.
Qed.

(** ** Sanity checks of the arithmetic instances *)

Example float_lit_099 : float_lit (99 # 100) = 0.99%float.
Proof. reflexivity. Qed.
Example float_lit_001 : float_lit (1 # 100) = 0.01%float.
Proof. reflexivity. Qed.
Example float_lit_1em10 : float_lit (1 # 10000000000) = 1e-10%float.
Proof. reflexivity. Qed.
Example float_window : float_to_int (PrimFloat.mul (float_lit (1 # 10)) (float_of_Z 22050)) = 2205%Z.
Proof. reflexivity. Qed.
Example float_target_rms :
  @py_pow _ ieee_numlib (float_of_Z 10) (PrimFloat.div (float_lit (-20 # 1)) (float_of_Z 20))
  = 0.1%float.
Proof. reflexivity. Qed.
Example float_nan_mean : PrimFloat.is_nan (float_mean []) = true.
Proof. reflexivity. Qed.

(** ** [validate_audio_quality] *)

Section validation_facts.
Context {F : Type} `{Arith F, NumLib F}.

Lemma peak_of_nonempty (audio : list F) :
  audio ≠ [] → ∃ p, peak_of audio = Ok p.
Proof.
  destruct audio as [|x xs]; [done|]. intros _. eexists. reflexivity.
Qed.

Lemma validate_audio_quality_report (self : AudioProcessor) (audio : list F)
    (min_duration p : F) :
  sample_rate self ≠ 0%Z →
  peak_of audio = Ok p →
  ∃ v, validate_audio_quality self audio min_duration = Ok v
    ∧ duration v = fdiv (of_int (Z.of_nat (length audio)))
                        (of_int (sample_rate self))
    ∧ rms v = rms_of audio
    ∧ peak v = p
    ∧ is_valid v = negb (flt (duration v) min_duration
                         || flt (rms v) (lit (1 # 100)))
    ∧ issues v = expected_issues (duration v) min_duration (rms v) (peak v)
                                 (snr_db v).
Proof.
  intros Hsr Hp. unfold validate_audio_quality, expected_issues.
  destruct (Z.eqb_spec (sample_rate self) 0) as [|_]; [done|].
  rewrite Hp. cbn [outcome_bind].
  set (d := fdiv (of_int (Z.of_nat (length audio))) _).
  set (s := fmul (of_int 20) _).
  destruct (flt d min_duration) eqn:Ed;
    destruct (flt (rms_of audio) (lit (1 # 100))) eqn:Er;
    destruct (flt (lit (99 # 100)) p) eqn:Ep;
    destruct (flt s (of_int 10)) eqn:Es;
    (eexists; split; [reflexivity|]; cbn;
     rewrite ?Ed, ?Er, ?Ep, ?Es; repeat split; reflexivity).
Qed.

End validation_facts.

(** ** [normalize_audio] *)

Section normalize_facts.
Context {F : Type} `{Arith F, NumLib F}.

Lemma normalize_audio_rms_zero (self : AudioProcessor) (audio : list F)
    (target_level : F) :
  feq (rms_of audio) (of_int 0) = true →
  normalize_audio self audio target_level = Ok audio.
Proof. intros Hz. unfold normalize_audio. by rewrite Hz. Qed.

(** What [normalize_audio] computes once the RMS test has failed. *)
Lemma normalize_audio_scaled (self : AudioProcessor) (audio : list F)
    (target_level max_val : F) :
  let scaled := rms_scaled audio target_level in
  feq (rms_of audio) (of_int 0) = false →
  peak_of scaled = Ok max_val →
  normalize_audio self audio target_level =
    Ok (if flt (lit (1 # 1)) max_val
        then map (λ x, fmul (fdiv x max_val) (lit (99 # 100))) scaled
        else scaled).
Proof.
  intros scaled Hnz Hp. unfold normalize_audio. rewrite Hnz.
  fold (rms_scaled audio target_level). fold scaled. rewrite Hp.
  cbn [outcome_bind].
  by destruct (flt _ max_val).
Qed.

End normalize_facts.

(** *** Exact arithmetic *)

Section exact_facts.

Local Open Scope Q_scope.

Lemma Q_ltb_lt (a b : Q) : Q_ltb a b = true ↔ a < b.
Proof.
  unfold Q_ltb. rewrite negb_true_iff, <- not_true_iff_false, Qle_bool_iff.
  split; [apply Qnot_le_lt | apply Qlt_not_le].
Qed.

Lemma Q_ltb_ge (a b : Q) : Q_ltb a b = false ↔ b <= a.
Proof.
  unfold Q_ltb. rewrite negb_false_iff. apply Qle_bool_iff.
Qed.

Lemma Q_maximum_cases (a b : Q) :
  (Q_maximum a b = b ∧ a <= b) ∨ (Q_maximum a b = a ∧ b <= a).
Proof.
  unfold Q_maximum. destruct (Q_ltb a b) eqn:E.
  - left. split; [done|]. apply Qlt_le_weak. by apply Q_ltb_lt.
  - right. split; [done|]. by apply Q_ltb_ge.
Qed.

(** The fold of [ndarray.max] returns an element of the array that bounds
    every element. *)
Lemma Q_max_fold (xs : list Q) (x : Q) :
  let m := fold_left Q_maximum xs x in
  In m (x :: xs) ∧ ∀ y, In y (x :: xs) → y <= m.
Proof.
  revert x. induction xs as [|z xs IH]; intros x; cbn.
  - split; [by left|]. intros y [<-|[]]. apply Qle_refl.
  - destruct (IH (Q_maximum x z)) as [Hin Hub]. cbn in Hin, Hub. split.
    + destruct Hin as [Hin|Hin]; [|by right; right].
      destruct (Q_maximum_cases x z) as [[E _]|[E _]]; rewrite E in *.
      * right. by left.
      * by left.
    + intros y Hy.
      assert (y <= Q_maximum x z ∨ In y xs) as [Hle|Hy'].
      { destruct Hy as [<-|[<-|Hy]]; [| |by right]; left;
          destruct (Q_maximum_cases x z) as [[E Hc]|[E Hc]]; rewrite E;
          try done; apply Qle_refl. }
      * eapply Qle_trans; [exact Hle|]. apply Hub. by left.
      * apply Hub. by right.
Qed.

Lemma exact_peak_of (lib : NumLib Q) (a : list Q) :
  a ≠ [] →
  ∃ m, @peak_of Q exact_arith a = Ok m
     ∧ (∃ x, In x a ∧ m = Qabs x)
     ∧ (∀ x, In x a → Qabs x <= m).
Proof.
  destruct a as [|x xs]; [done|]. intros _. eexists. split; [reflexivity|].
  destruct (Q_max_fold (map Qabs xs) (Qabs x)) as [Hin Hub].
  change (fold_left fmaximum (map fabs xs) (fabs x))
    with (fold_left Q_maximum (map Qabs xs) (Qabs x)).
  split.
  - change (Qabs x :: map Qabs xs) with (map Qabs (x :: xs)) in Hin.
    apply in_map_iff in Hin as (y & Hy & Hin). eauto.
  - intros y Hy. apply Hub.
    change (Qabs x :: map Qabs xs) with (map Qabs (x :: xs)).
    by apply in_map.
Qed.

Lemma rescaled_abs (x m : Q) :
  0 < m → Qabs (x / m * (99 # 100)) == Qabs x / m * (99 # 100).
Proof.
  intros Hm. unfold Qdiv. rewrite !Qabs_Qmult.
  rewrite (Qabs_pos (/ m)) by (apply Qlt_le_weak, Qinv_lt_0_compat, Hm).
  rewrite (Qabs_pos (99 # 100)) by done. reflexivity.
Qed.

Lemma rescaled_le (x m : Q) :
  0 < m → Qabs x <= m → Qabs (x / m * (99 # 100)) <= 99 # 100.
Proof.
  intros Hm Hx. rewrite rescaled_abs by done.
  assert (Qabs x / m <= 1) as Hq.
  { apply Qle_shift_div_r; [done|]. by rewrite Qmult_1_l. }
  lra.
Qed.

Lemma rescaled_eq (x m : Q) :
  0 < m → m = Qabs x → Qabs (x / m * (99 # 100)) == 99 # 100.
Proof.
  intros Hm Hx. rewrite rescaled_abs by done. rewrite <- Hx.
  field. intros E. rewrite E in Hm. by apply Qlt_irrefl in Hm.
Qed.

End exact_facts.

Section exact_normalize.
Context (lib : NumLib Q).
Local Existing Instance exact_arith.
Local Open Scope Q_scope.

(** In exact arithmetic, for every non-empty waveform whose RMS is not
    zero (whatever values the library computes for the RMS and for the
    target level), [normalize_audio] returns a waveform whose peak is at
    most 1.0; when the peak of the RMS-scaled signal exceeds 1.0 the peak
    of the result equals 0.99, and otherwise the result is the RMS-scaled
    signal itself. *)
Lemma normalize_audio_peak_bounded_exact (self : AudioProcessor)
    (audio : list Q)
    (target_level : Q) :
  audio ≠ [] →
  feq (rms_of audio) (of_int 0) = false →
  let scaled := rms_scaled audio target_level in
  ∃ out p sp,
    normalize_audio self audio target_level = Ok out
    ∧ peak_of out = Ok p ∧ p <= 1
    ∧ peak_of scaled = Ok sp
    ∧ (1 < sp → p == 99 # 100)
    ∧ (sp <= 1 → out = scaled).
Proof.
  intros Hne Hnz scaled.
  assert (scaled ≠ []) as Hsne
    by (subst scaled; unfold rms_scaled; by destruct audio).
  destruct (exact_peak_of lib scaled Hsne) as (sp & Hsp & (x1 & Hx1 & Esp) & Hub).
  pose proof (normalize_audio_scaled self audio target_level sp Hnz Hsp) as Hrun.
  cbn zeta in Hrun. fold scaled in Hrun.
  change (flt (lit (1 # 1)) sp) with (Q_ltb 1 sp) in Hrun.
  destruct (Q_ltb 1 sp) eqn:Hcmp.
  - apply Q_ltb_lt in Hcmp.
    assert (0 < sp) as Hpos by lra.
    set (out := map _ scaled) in Hrun.
    assert (out ≠ []) as Hone by (subst out; by destruct scaled).
    destruct (exact_peak_of lib out Hone) as (p & Hp & (y & Hy & Ep) & Hubp).
    assert (p <= 99 # 100) as Hle.
    { subst out. apply in_map_iff in Hy as (x & <- & Hx). rewrite Ep.
      apply rescaled_le; [done|]. by apply Hub. }
    assert (99 # 100 <= p) as Hge.
    { rewrite <- (rescaled_eq x1 sp Hpos Esp). apply Hubp.
      subst out. apply in_map_iff. eauto. }
    exists out, p, sp. repeat split; try done.
    + lra.
    + intros _. by apply Qle_antisym.
    + intros Hc. lra.
  - apply Q_ltb_ge in Hcmp.
    exists scaled, sp, sp. repeat split; try done. intros Hc. lra.
Qed.

End exact_normalize.

(** A unit spike followed by 120 silent samples is scaled to a peak of 1.1. *)
Example exact_spike_scaled_peak :
  ∃ sp, @peak_of Q exact_arith
          (@rms_scaled Q exact_arith exact_numlib
                       ((1 # 1) :: repeat (0 # 1) 120)%Q (-20 # 1)%Q) = Ok sp
        ∧ (sp == 11 # 10)%Q.
Proof. eexists. split; [vm_compute; reflexivity | reflexivity]. Qed.

(** The same input in binary64 arithmetic: the peak of the result is the
    float 0.99. *)
Example ieee_spike_normalized :
  ∃ out, @normalize_audio float ieee_arith ieee_numlib default_processor
           (1%float :: repeat 0%float 120) (-20)%float = Ok out
         ∧ @peak_of float ieee_arith out = Ok 0.99%float.
Proof.
  eexists. split.
  - vm_compute. reflexivity.
  - vm_compute. reflexivity.
Qed.

(** In exact arithmetic every non-empty all-zero waveform has RMS zero. *)
Lemma exact_rms_of_silence (n : nat) :
  @feq Q exact_arith
       (@rms_of Q exact_arith exact_numlib (repeat (0 # 1)%Q (S n)))
       (@of_int Q exact_arith 0) = true.
Proof.
  assert (∀ k a, Qnum a = 0%Z →
            Qnum (fold_left Qplus (map (λ x, x * x)%Q (repeat (0 # 1)%Q k)) a) = 0%Z)
    as Hsum.
  { induction k as [|k IH]; intros a Ha; [done|]. cbn [repeat map fold_left].
    apply IH. cbn. rewrite Ha. lia. }
  unfold rms_of. cbn [np_sqrt np_mean exact_numlib feq of_int exact_arith fmul].
  unfold Q_sqrt, Q_mean, Q_sum, Qeq_bool.
  set (m := (fold_left Qplus _ _ / _)%Q).
  assert (Qnum m = 0%Z) as ->.
  { subst m. unfold Qdiv, Qmult. cbn [Qnum]. rewrite Hsum by done. lia. }
  cbn. reflexivity.
Qed.

Lemma normalize_audio_silence_exact (self : AudioProcessor) (n : nat)
    (target_level : Q) :
  @normalize_audio Q exact_arith exact_numlib self (repeat (0 # 1)%Q (S n))
                   target_level
  = Ok (repeat (0 # 1)%Q (S n)).
Proof. apply normalize_audio_rms_zero, exact_rms_of_silence. Qed.

(** ** The verdict of [validate_audio_quality] *)

(** C3 (as stated, refuted): the empty waveform is shorter than any positive
    minimum duration, yet no report is returned for it:
    [np.abs(audio).max()] raises [ValueError]. *)
Lemma validate_audio_quality_empty_waveform :
  let min_duration := 1%float in
  @flt float ieee_arith
       (@fdiv float ieee_arith (@of_int float ieee_arith 0)
              (@of_int float ieee_arith (sample_rate default_processor)))
       min_duration = true
  ∧ ∀ v, @validate_audio_quality float ieee_arith ieee_numlib
           default_processor [] min_duration ≠ Ok v.
Proof. split; [reflexivity|]. intros v. vm_compute. discriminate. Qed.

(** C3 (amended): for every non-empty waveform and every minimum duration,
    on a processor with a non-zero sample rate, [validate_audio_quality]
    returns a report whose [is_valid] is false exactly when
    duration < min_duration or RMS < 0.01; a peak above 0.99 and an SNR
    below 10 dB add an issue each and nothing else. *)
Theorem validate_audio_quality_verdict {F : Type} (A : Arith F) (L : NumLib F)
    (self : AudioProcessor) (audio : list F) (min_duration : F) :
  audio ≠ [] →
  sample_rate self ≠ 0%Z →
  ∃ v, validate_audio_quality self audio min_duration = Ok v
    ∧ duration v = fdiv (of_int (Z.of_nat (length audio)))
                        (of_int (sample_rate self))
    ∧ rms v = rms_of audio
    ∧ peak_of audio = Ok (peak v)
    ∧ is_valid v = negb (flt (duration v) min_duration
                         || flt (rms v) (lit (1 # 100)))
    ∧ issues v = expected_issues (duration v) min_duration (rms v) (peak v)
                                 (snr_db v).
Proof.
  intros Hne Hsr. destruct (peak_of_nonempty audio Hne) as [p Hp].
  destruct (validate_audio_quality_report self audio min_duration p Hsr Hp)
    as (v & Hv & Hd & Hr & Hpk & Hval & Hiss).
  subst p. exists v. by repeat split.
Qed.

(** A loud but short clip: four samples at full scale. *)
Lemma validate_audio_quality_verdict_witness :
  let audio := [1%float; (-1)%float; 1%float; (-1)%float] in
  ∃ v, @validate_audio_quality float ieee_arith ieee_numlib default_processor
         audio 1%float = Ok v
    ∧ duration v = PrimFloat.div 4%float 22050%float
    ∧ rms v = @rms_of float ieee_arith ieee_numlib audio
    ∧ @peak_of float ieee_arith audio = Ok (peak v)
    ∧ is_valid v
      = negb (PrimFloat.ltb (duration v) 1%float
              || PrimFloat.ltb (rms v) (float_lit (1 # 100)))
    ∧ issues v = @expected_issues float ieee_arith (duration v) 1%float (rms v)
                                  (peak v) (snr_db v).
Proof.
  apply (validate_audio_quality_verdict ieee_arith ieee_numlib
           default_processor [1%float; (-1)%float; 1%float; (-1)%float] 1%float);
    done.
Defined.

Example validate_short_loud_clip :
  ∃ v, @validate_audio_quality float ieee_arith ieee_numlib default_processor
         [1%float; (-1)%float; 1%float; (-1)%float] 1%float = Ok v
    ∧ is_valid v = false
    ∧ map (λ i, match i with
                | AudioTooShort _ _ => 1 | AudioLevelTooLow => 2
                | AudioMayBeClipping => 3 | LowSignalToNoiseRatio => 4
                end) (issues v) = [1; 3; 4].
Proof. eexists. split; [vm_compute; reflexivity|]. split; reflexivity. Qed.

(** ** The process environment *)

Section monad_facts.
Context {S A : Type}.

Lemma try_except_returns (m : M S A) (h : exn → M S A) (s : S) :
  (∀ e s0, ∃ a s1, h e s0 = (Ok a, s1)) →
  ∃ a s1, try_except m h s = (Ok a, s1).
Proof.
  intros Hh. unfold try_except. destruct (m s) as [[a|e] s0]; eauto.
Qed.

Lemma bind_ok {B} (m : M S A) (k : A → M S B) (s s0 : S) (a : A) :
  m s = (Ok a, s0) → (m ≫= k) s = k a s0.
Proof. intros E. unfold mbind, M_bind, bind. by rewrite E. Qed.

Lemma bind_raise {B} (m : M S A) (k : A → M S B) (s s0 : S) (e : exn) :
  m s = (Raise e, s0) → (m ≫= k) s = (Raise e, s0).
Proof. intros E. unfold mbind, M_bind, bind. by rewrite E. Qed.

End monad_facts.

(** Evaluation of the primitive actions of the monad. *)
Ltac run_m :=
  unfold mbind, M_bind, bind, try_except, ret, raise, lift, get_fs, put_fs, emit;
  cbv beta iota zeta.

Section os_facts.
Context {F : Type} `{Env F}.

Lemma set_fs_same (w : world F) : set_fs w (fs w) = w.
Proof. by destruct w. Qed.

Lemma os_makedirs_run (d : pystr) (w : world F) :
  (d ≠ [] ∧ ¬ is_file (fs w) d
   ∧ os_makedirs d w = (Ok tt, set_fs w (with_dir d (fs w))))
  ∨ ((d = [] ∨ is_file (fs w) d) ∧ ∃ e, os_makedirs d w = (Raise e, w)).
Proof.
  unfold with_dir, is_file.
  destruct d as [|c d]; [right; split; [by left|]; by eexists|].
  destruct (fs w !! (c :: d)) as [[x|]|] eqn:E;
    unfold os_makedirs; run_m; rewrite E.
  - right. eauto.
  - left. repeat split; [done| |by rewrite set_fs_same]. by intros [? ?].
  - left. repeat split; [done|]. by intros [? ?].
Qed.

Lemma with_dir_files (d p : pystr) (fs0 : filesystem F) (c : content F) :
  with_dir d fs0 !! p = Some (File c) ↔ fs0 !! p = Some (File c).
Proof.
  unfold with_dir. destruct (fs0 !! d) eqn:E; [done|].
  destruct (decide (d = p)) as [->|Hne].
  - rewrite lookup_insert_eq, E. split; discriminate.
  - by rewrite lookup_insert_ne.
Qed.

Lemma without_file_gone (p : pystr) (fs0 : filesystem F) :
  ¬ is_file (without_file p fs0) p.
Proof.
  unfold without_file, is_file. intros [c Hc].
  destruct (fs0 !! p) as [[x|]|] eqn:E.
  - by rewrite lookup_delete_eq in Hc.
  - congruence.
  - congruence.
Qed.

Lemma without_file_other (p q : pystr) (fs0 : filesystem F) :
  p ≠ q → without_file p fs0 !! q = fs0 !! q.
Proof.
  intros Hne. unfold without_file.
  destruct (fs0 !! p) as [[x|]|]; [|done|done]. by rewrite lookup_delete_ne.
Qed.

Lemma cleanup_run (p : pystr) (w : world F) :
  ∃ o, cleanup p w = (o, set_fs w (without_file p (fs w))).
Proof.
  unfold without_file.
  destruct (fs w !! p) as [[x|]|] eqn:E;
    unfold cleanup, os_path_exists, os_remove; run_m; rewrite !E; cbn;
    rewrite ?E; eexists; rewrite ?set_fs_same; reflexivity.
Qed.

End os_facts.

(** ** [save_audio] and [synthesize_speech] *)

Section engine_facts.
Context {F : Type} `{Arith F, NumLib F, Dsp F, Env F}.

Lemma write_file_run (p : pystr) (c : content F) (w : world F) :
  (write_file p c w = (Ok tt, set_fs w (<[p := File c]> (fs w))))
  ∨ (∃ e, write_file p c w = (Raise e, w)).
Proof.
  destruct (fs w !! p) as [[x|]|] eqn:E;
    destruct (dirname p) as [|a d] eqn:Ed;
    try destruct (fs w !! (a :: d)) as [[y|]|] eqn:Ea;
    unfold write_file; run_m; rewrite E, ?Ed, ?Ea; eauto.
Qed.

(** [sf.write] writes the file when the extension is accepted and raises
    without touching anything otherwise. *)
Lemma sf_write_run (p : pystr) (data : list F) (rate : Z) (w : world F) :
  (sf_format_error (drop 1 (extension p)) = None
   ∧ sf_write p data rate w = write_file p (Audio rate data) w)
  ∨ (∃ e, sf_format_error (drop 1 (extension p)) = Some e
          ∧ sf_write p data rate w = (Raise e, w)).
Proof.
  unfold sf_write.
  destruct (sf_format_error (drop 1 (extension p))) as [e|]; [right|left]; eauto.
Qed.

(** [save_audio] either stores the normalized samples at the target, or
    raises having created at most the parent directory. *)
Lemma save_audio_run (self : AudioProcessor) (audio : list F) (p : pystr)
    (w : world F) :
  (∃ out, normalize_audio self audio default_target_level = Ok out
     ∧ save_audio self audio p None w
       = (Ok tt, set_fs w (<[p := File (Audio (sample_rate self) out)]>
                             (with_dir (dirname p) (fs w)))))
  ∨ (∃ e w1, save_audio self audio p None w = (Raise e, w1)
       ∧ trace w1 = trace w ∧ ticks w1 = ticks w
       ∧ ∀ q c, fs w1 !! q = Some (File c) → fs w !! q = Some (File c)).
Proof.
  unfold save_audio.
  destruct (os_makedirs_run (dirname p) w) as [(_ & _ & Hmk)|[_ [e Hmk]]].
  - rewrite (bind_ok _ _ _ _ _ Hmk).
    destruct (normalize_audio self audio default_target_level) as [out|e] eqn:En.
    + erewrite bind_ok by reflexivity.
      destruct (sf_write_run p out (sample_rate self)
                  (set_fs w (with_dir (dirname p) (fs w))))
        as [[_ ->]|(e & _ & ->)].
      * destruct (write_file_run p (Audio (sample_rate self) out)
                    (set_fs w (with_dir (dirname p) (fs w)))) as [Hw|[e Hw]].
        -- left. exists out. split; [done|]. by rewrite Hw.
        -- right. rewrite Hw. eexists _, _. repeat split.
           cbn. intros q c. by rewrite with_dir_files.
      * right. eexists _, _. repeat split.
        cbn. intros q c. by rewrite with_dir_files.
    + right. erewrite bind_raise by reflexivity. eexists _, _. repeat split.
      cbn. intros q c. by rewrite with_dir_files.
  - right. rewrite (bind_raise _ _ _ _ _ Hmk). eexists _, _. by repeat split.
Qed.

Lemma logger_run (lvl : level) (t : string) (args : list (log_arg F))
    (w : world F) :
  logger lvl t args w = (Ok tt, add_event w (Log lvl (u t) args)).
Proof. reflexivity. Qed.

(** [synthesize_speech] always returns a result dictionary. *)
Lemma synthesize_speech_returns (self : TTSEngine) (text output_path : pystr)
    (speaker_wav : option pystr) (language : pystr) (w : world F) :
  ∃ r w1, synthesize_speech self text output_path speaker_wav language w
          = (Ok r, w1).
Proof.
  unfold synthesize_speech. apply try_except_returns.
  intros e s0. eexists _, _. reflexivity.
Qed.

End engine_facts.

(** ** [clone_voice] *)

Section clone_voice_facts.
Context {F : Type} `{Arith F, NumLib F, Dsp F, Env F}.

Lemma clone_voice_steps (self : TTSEngine) (text reference_audio output_path
    language : pystr) (w : world F) :
  clone_voice self text reference_audio output_path language w
  = try_except
      (prepare_reference self reference_audio
         ≫= finish_cloning self text reference_audio output_path language)
      cloning_failed (announced w reference_audio).
Proof.
  unfold clone_voice, prepare_reference, finish_cloning, cloning_failed, cleanup.
  unfold mbind at 1. unfold M_bind at 1. unfold bind at 1.
  rewrite logger_run. fold (announced w reference_audio).
  unfold try_except. f_equal.
  unfold mbind, M_bind, bind, lift, ret.
  repeat (match goal with
          | |- context [match ?x with _ => _ end] =>
              lazymatch x with
              | context [match _ with _ => _ end] => fail
              | _ => destruct x
              end
          end; try reflexivity).
Qed.

Lemma load_audio_run (self : AudioProcessor) (p : pystr) (w : world F) :
  match fs w !! p with
  | Some (File (Audio rate samples)) =>
      load_audio self p None w
      = (Ok (loaded_samples self rate samples, sample_rate self), w)
  | _ => ∃ e, load_audio self p None w = (Raise e, w)
  end.
Proof.
  destruct (fs w !! p) as [[[rate samples|md|value|data]|]|] eqn:E;
    unfold load_audio, librosa_load, read_file, loaded_samples; run_m;
    rewrite E; eauto.
Qed.

(** When the preparation succeeds, the reference was a readable recording,
    validation and preprocessing returned, and the temporary file holds the
    normalized preprocessed samples. *)
Lemma prepare_reference_ok (self : TTSEngine) (reference_audio : pystr)
    (w w1 : world F) (v : validation F) :
  let ap := TtsEngine.audio_processor self in
  prepare_reference self reference_audio w = (Ok v, w1) →
  ∃ rate samples processed out,
    fs w !! reference_audio = Some (File (Audio rate samples))
    ∧ validate_audio_quality ap (loaded_samples ap rate samples) (lit (5 # 1))
      = Ok v
    ∧ preprocess_for_tts ap (loaded_samples ap rate samples) = Ok processed
    ∧ normalize_audio ap processed default_target_level = Ok out
    ∧ fs w1 = <[temp_path_of reference_audio := File (Audio (sample_rate ap) out)]>
                (with_dir (dirname (temp_path_of reference_audio)) (fs w))
    ∧ trace w1 = trace w ++ quality_warning v
    ∧ ticks w1 = ticks w.
Proof.
  intros ap. unfold prepare_reference. fold ap. intros Hrun.
  pose proof (load_audio_run ap reference_audio w) as Hload.
  destruct (fs w !! reference_audio) as [[[rate samples|md|value|data]|]|] eqn:Eref;
    [| destruct Hload as [e0 Hload];
       rewrite (bind_raise _ _ _ _ _ Hload) in Hrun; discriminate .. ].
  rewrite (bind_ok _ _ _ _ _ Hload) in Hrun. cbn [fst] in Hrun.
  destruct (validate_audio_quality ap (loaded_samples ap rate samples) (lit (5 # 1)))
    as [v0|e] eqn:Ev; [|discriminate].
  erewrite bind_ok in Hrun by reflexivity.
  set (w0 := if is_valid v0 then w
             else add_event w (Log WARNING (u "Audio quality issues: {}")
                                   [AIssues (issues v0)])).
  assert ((if negb (is_valid v0)
           then logger WARNING "Audio quality issues: {}" [AIssues (issues v0)]
           else ret tt) w = (Ok tt, w0)) as Hwarn.
  { subst w0. by destruct (is_valid v0). }
  rewrite (bind_ok _ _ _ _ _ Hwarn) in Hrun.
  destruct (preprocess_for_tts ap (loaded_samples ap rate samples))
    as [processed|e] eqn:Ep; [|discriminate].
  erewrite bind_ok in Hrun by reflexivity.
  destruct (save_audio_run ap processed (temp_path_of reference_audio) w0)
    as [(out & Hn & Hsave)|(e & w' & Hsave & _)].
  - rewrite (bind_ok _ _ _ _ _ Hsave) in Hrun. injection Hrun as <- <-.
    exists rate, samples, processed, out. repeat split; try done.
    + subst w0. cbn. by destruct (is_valid v0).
    + subst w0. unfold quality_warning. cbn.
      destruct (is_valid v0); cbn; [by rewrite app_nil_r|done].
    + subst w0. by destruct (is_valid v0).
  - rewrite (bind_raise _ _ _ _ _ Hsave) in Hrun. discriminate.
Qed.

Lemma with_dir_lookup_dir (d : pystr) (fs0 : filesystem F) :
  ¬ is_file fs0 d → with_dir d fs0 !! d = Some Dir.
Proof.
  unfold with_dir, is_file. intros Hnf.
  destruct (fs0 !! d) as [[c|]|] eqn:E.
  - destruct Hnf. eauto.
  - done.
  - apply lookup_insert_eq.
Qed.

Lemma with_dir_lookup_ne (d p : pystr) (fs0 : filesystem F) :
  p ≠ d → with_dir d fs0 !! p = fs0 !! p.
Proof.
  intros Hne. unfold with_dir. destruct (fs0 !! d); [done|].
  by rewrite lookup_insert_ne.
Qed.

Lemma write_file_ok (p : pystr) (c : content F) (w : world F) :
  fs w !! p ≠ Some Dir →
  dirname p ≠ [] →
  fs w !! dirname p = Some Dir →
  write_file p c w = (Ok tt, set_fs w (<[p := File c]> (fs w))).
Proof.
  intros Hp Hd Hdir. unfold write_file. run_m.
  destruct (fs w !! p) as [[x|]|] eqn:E; [|done|];
    (destruct (dirname p) as [|a d] eqn:Ed; [done|]); by rewrite Hdir.
Qed.

Lemma prepare_reference_run (self : TTSEngine) (reference_audio : pystr)
    (w : world F) (v : validation F) (out : list F) :
  reference_usable self (fs w) reference_audio v out →
  prepare_reference self reference_audio w
  = (Ok v, {| fs := with_temp_file self reference_audio out (fs w);
              trace := trace w ++ quality_warning v;
              ticks := ticks w |}).
Proof.
  intros [(rate & samples & processed & Href & Hv & Hp & Hn) Hd Hnf Ht Hne
            Hfmt].
  cbn zeta in *. set (ap := TtsEngine.audio_processor self) in *.
  unfold prepare_reference. fold ap.
  pose proof (load_audio_run ap reference_audio w) as Hload.
  rewrite Href in Hload. rewrite (bind_ok _ _ _ _ _ Hload). cbn [fst].
  rewrite Hv. erewrite bind_ok by reflexivity.
  set (w0 := {| fs := fs w; trace := trace w ++ quality_warning v;
                ticks := ticks w |}).
  assert ((if negb (is_valid v)
           then logger WARNING "Audio quality issues: {}" [AIssues (issues v)]
           else ret tt) w = (Ok tt, w0)) as Hwarn.
  { subst w0. unfold quality_warning. destruct (is_valid v); cbn.
    - rewrite app_nil_r. by destruct w.
    - reflexivity. }
  rewrite (bind_ok _ _ _ _ _ Hwarn). rewrite Hp.
  erewrite bind_ok by reflexivity.
  assert (save_audio ap processed (temp_path_of reference_audio) None w0
          = (Ok tt, set_fs w0 (with_temp_file self reference_audio out (fs w))))
    as Hsave.
  { unfold save_audio.
    destruct (os_makedirs_run (dirname (temp_path_of reference_audio)) w0)
      as [(_ & _ & Hmk)|[[?|?] _]]; [|done|done].
    rewrite (bind_ok _ _ _ _ _ Hmk). rewrite Hn.
    erewrite bind_ok by reflexivity.
    unfold sf_write. rewrite Hfmt.
    rewrite write_file_ok; [done| |done|].
    - cbn. rewrite with_dir_lookup_ne by done. exact Ht.
    - cbn. by apply with_dir_lookup_dir. }
  rewrite (bind_ok _ _ _ _ _ Hsave). reflexivity.
Qed.

(** Once the temporary file exists, the call runs [synthesize_speech],
    then returns a result and leaves no file at the temporary path. *)
Lemma finish_cloning_run (self : TTSEngine) (text reference_audio
    output_path language : pystr) (v : validation F) (w1 : world F) :
  ∃ r0 w3 r w2,
    synthesize_speech self text output_path
      (Some (temp_path_of reference_audio)) language w1 = (Ok r0, w3)
    ∧ try_except (finish_cloning self text reference_audio output_path language v)
                 cloning_failed w1 = (Ok r, w2)
    ∧ fs w2 = without_file (temp_path_of reference_audio) (fs w3)
    ∧ (∃ l, trace w2 = trace w3 ++ l)
    ∧ ticks w2 = ticks w3
    ∧ (success r = true → r = set_audio_quality r0 v ∧ success r0 = true).
Proof.
  unfold try_except, finish_cloning.
  destruct (synthesize_speech_returns self text output_path
              (Some (temp_path_of reference_audio)) language w1)
    as (r0 & w3 & Hsyn).
  rewrite (bind_ok _ _ _ _ _ Hsyn).
  destruct (cleanup_run (temp_path_of reference_audio) w3) as [[[]|e] Hclean].
  - rewrite (bind_ok _ _ _ _ _ Hclean). exists r0, w3. eexists _, _.
    split; [exact Hsyn|]. split; [reflexivity|]. cbn.
    repeat split; [by exists []; rewrite app_nil_r | |];
      destruct r0; cbn; done.
  - rewrite (bind_raise _ _ _ _ _ Hclean). exists r0, w3. eexists _, _.
    split; [exact Hsyn|]. split; [reflexivity|]. cbn.
    repeat split; [by eexists | |]; done.
Qed.

Lemma finish_cloning_cleans (self : TTSEngine) (text reference_audio
    output_path language : pystr) (v : validation F) (w1 : world F) :
  ∃ r w2,
    try_except (finish_cloning self text reference_audio output_path language v)
               cloning_failed w1 = (Ok r, w2)
    ∧ ¬ is_file (fs w2) (temp_path_of reference_audio).
Proof.
  destruct (finish_cloning_run self text reference_audio output_path language
              v w1) as (r0 & w3 & r & w2 & _ & Hrun & Hfs & _).
  exists r, w2. split; [done|]. rewrite Hfs. apply without_file_gone.
Qed.

End clone_voice_facts.

Section clone_voice_cleanup.
Context {F : Type} `{Arith F, NumLib F, Dsp F, Env F}.

(** C1: whenever a call of [clone_voice] has created its temporary
    processed-reference file, the call returns a result dictionary and no
    file is left at the temporary path, whatever the speech model does:
    write the output, return without output, or raise. *)
Theorem clone_voice_removes_temp_file (self : TTSEngine) (text reference_audio
    output_path language : pystr) (w w1 : world F) (v : validation F) :
  prepare_reference self reference_audio (announced w reference_audio)
    = (Ok v, w1) →
  is_file (fs w1) (temp_path_of reference_audio)
  ∧ ∃ r w2,
      clone_voice self text reference_audio output_path language w = (Ok r, w2)
      ∧ ¬ is_file (fs w2) (temp_path_of reference_audio).
Proof.
  intros Hprep. split.
  - destruct (prepare_reference_ok _ _ _ _ _ Hprep)
      as (rate & samples & processed & out & _ & _ & _ & _ & Hfs & _).
    eexists. rewrite Hfs. apply lookup_insert_eq.
  - rewrite clone_voice_steps. unfold try_except at 1.
    rewrite (bind_ok _ _ _ _ _ Hprep).
    destruct (finish_cloning_cleans self text reference_audio output_path
                language v w1) as (r & w2 & Hfin & Hgone).
    unfold try_except in Hfin.
    destruct (finish_cloning _ _ _ _ _ _ w1) as [[r'|e] w'];
      eexists _, _; split; try exact Hfin; exact Hgone.
Qed.

(** When the preparation fails, the call returns a failure and has created
    no file. *)
Lemma clone_voice_unprepared (self : TTSEngine) (text reference_audio
    output_path language : pystr) (w w1 : world F) (e : exn) :
  prepare_reference self reference_audio (announced w reference_audio)
    = (Raise e, w1) →
  ∃ w2, clone_voice self text reference_audio output_path language w
        = (Ok (SynthesisFailed (str_of_exn e)), w2)
      ∧ fs w2 = fs w1.
Proof.
  intros Hprep. rewrite clone_voice_steps. unfold try_except.
  rewrite (bind_raise _ _ _ _ _ Hprep). eexists. split; reflexivity.
Qed.

End clone_voice_cleanup.

(** The model raises: the temporary file [uploads/voice_processed.wav] is
    gone when the call returns its failure. *)
Lemma clone_voice_removes_temp_file_witness :
  ∃ r w2,
    @clone_voice float ieee_arith ieee_numlib passthrough_dsp
       (env_with failing_model) engine (u "Hello") (u "uploads/voice.wav")
       (u "outputs/hello.wav") (u "en") Studio.initial = (Ok r, w2)
    ∧ ¬ is_file (fs w2) (u "uploads/voice_processed.wav").
Proof.
  edestruct (@clone_voice_removes_temp_file float ieee_arith ieee_numlib
               passthrough_dsp (env_with failing_model) engine (u "Hello")
               (u "uploads/voice.wav") (u "outputs/hello.wav") (u "en")
               Studio.initial) as [_ Hrun].
  - vm_compute. reflexivity.
  - exact Hrun.
Defined.

(** ** [VoiceCloner] *)

Section cloner_facts.
Context {F : Type} `{Arith F, NumLib F, Dsp F, Env F, Unicode}.

Lemma in_env_run {A} (m : M (world F) A) (s : state F) :
  in_env m s = ((m (env s)).1, {| env := (m (env s)).2; metadata := metadata s |}).
Proof. unfold in_env. by destruct (m (env s)). Qed.

Lemma write_file_writable (p : list N) (c : content F) (w : world F) :
  writable (fs w) p →
  write_file p c w = (Ok tt, set_fs w (<[p := File c]> (fs w))).
Proof.
  intros [Hp Hd]. unfold write_file. run_m.
  destruct (fs w !! p) as [[x|]|] eqn:E; [|done|];
    (destruct (dirname p) as [|a d] eqn:Ed; [done|]);
    destruct Hd as [?|Hd]; try done; by rewrite Hd.
Qed.

Lemma save_metadata_run (self : VoiceCloner) (s : state F) :
  ∃ w1,
    _save_metadata self s = (Ok tt, {| env := w1; metadata := metadata s |})
    ∧ ticks w1 = ticks (env s)
    ∧ (writable (fs (env s)) (metadata_file self) →
         fs w1 = <[metadata_file self := File (Json (metadata s))]> (fs (env s))
         ∧ trace w1 = trace (env s)).
Proof.
  unfold _save_metadata, get_metadata. run_m. rewrite in_env_run.
  destruct (write_file_run (metadata_file self) (Json (metadata s)) (env s))
    as [Hw|[e Hw]]; rewrite Hw; cbn [fst snd].
  - eexists. split; [reflexivity|]. split; [done|]. intros _. by split.
  - rewrite in_env_run, logger_run. cbn [fst snd].
    eexists. split; [reflexivity|]. split; [done|].
    intros Hwr. rewrite write_file_writable in Hw by done. discriminate.
Qed.

(** *** [create_voice_model] on a recording that fails validation *)

Lemma create_voice_model_invalid (self : VoiceCloner) (audio_path model_name
    description : list N) (s : state F) (rate : Z) (samples : list F)
    (v : validation F) :
  let ap := VoiceClonerModule.audio_processor self in
  fs (env s) !! audio_path = Some (File (Audio rate samples)) →
  validate_audio_quality ap (loaded_samples ap rate samples) (lit (10 # 1))
    = Ok v →
  is_valid v = false →
  create_voice_model self audio_path model_name description s
  = (Ok (ValidationFailed (u "Audio quality validation failed") (issues v)),
     {| env := add_event (env s)
                 (Log INFO (u "Creating voice model: {}") [AStr model_name]);
        metadata := metadata s |}).
Proof.
  intros ap Hfile Hv Hinv. unfold create_voice_model. fold ap.
  unfold try_except.
  erewrite bind_ok; last first.
  { rewrite in_env_run, logger_run. reflexivity. }
  cbn [fst snd].
  erewrite bind_ok; last first.
  { rewrite in_env_run. cbn [env metadata].
    pose proof (load_audio_run ap audio_path
                  (add_event (env s)
                     (Log INFO (u "Creating voice model: {}") [AStr model_name])))
      as Hload.
    cbn [fs add_event] in Hload. rewrite Hfile in Hload. rewrite Hload.
    reflexivity. }
  cbn [fst snd]. rewrite Hv.
  erewrite bind_ok by reflexivity. rewrite Hinv. reflexivity.
Qed.

End cloner_facts.

Section clone_voice_model_call.
Context {F : Type} `{Arith F, NumLib F, Dsp F, Env F, Unicode}.

Lemma with_dir_is_Some (d p : list N) (fs0 : filesystem F) :
  is_Some (fs0 !! p) → is_Some (with_dir d fs0 !! p).
Proof.
  unfold with_dir. intros Hp. destruct (fs0 !! d) eqn:E; [done|].
  destruct (decide (d = p)) as [->|Hne].
  - rewrite lookup_insert_eq. eauto.
  - by rewrite lookup_insert_ne.
Qed.

(** With a creatable output directory and an existing speaker file,
    [synthesize_speech] invokes the model in voice-cloning mode. *)
Lemma synthesize_speech_calls_model (self : TTSEngine) (text output_path wav
    language : list N) (w : world F) :
  dirname output_path ≠ [] →
  ¬ is_file (fs w) (dirname output_path) →
  wav ≠ [] →
  is_Some (fs w !! wav) →
  ∃ r w1 l,
    synthesize_speech self text output_path (Some wav) language w = (Ok r, w1)
    ∧ trace w1 = trace w ++ l
    ∧ ModelCall (cloning_request text output_path wav language) ∈ l.
Proof.
  intros Hd Hnf Hwav Hex.
  unfold synthesize_speech. destruct w as [fs0 tr tk]. cbn [fs trace] in *.
  destruct (os_makedirs_run (dirname output_path)
              {| fs := fs0; trace := tr; ticks := tk |})
    as [(_ & _ & Hmk)|[[?|?] _]]; [|done|done].
  unfold try_except.
  rewrite (bind_ok _ _ _ _ _ Hmk).
  erewrite bind_ok by apply logger_run.
  assert (truthy wav = true) as ->
    by (unfold truthy; by rewrite bool_decide_eq_false_2).
  apply (with_dir_is_Some (dirname output_path)) in Hex.
  unfold call_tts, os_path_exists, os_path_getsize, logger. run_m.
  cbv beta iota delta [fs trace ticks set_fs add_event].
  rewrite (bool_decide_eq_true_2 _ Hex).
  fold (cloning_request text output_path wav language).
  destruct (tts_to_file _ _) as [[e|] fs1];
    cbv beta iota delta [fs trace ticks].
  - eexists _, _, _. split; [reflexivity|].
    split; [by rewrite <- !app_assoc|]. set_solver.
  - destruct (fs1 !! output_path) as [[c|]|] eqn:Eo;
      [rewrite bool_decide_eq_true_2 by eauto
      |rewrite bool_decide_eq_true_2 by eauto
      |rewrite bool_decide_eq_false_2 by (by intros [? ?])];
      cbv beta iota delta [fs trace ticks]; rewrite ?Eo; cbv beta iota;
      (eexists _, _, _; split; [reflexivity|];
       split; [by rewrite <- !app_assoc|]; set_solver).
Qed.

End clone_voice_model_call.

(** The recording of the studio is usable as a reference at either of its
    paths. *)
Ltac studio_usable :=
  split;
  [ exists 22050%Z, Studio.recording; eexists; cbn zeta;
    split; [vm_compute; reflexivity|];
    split; [vm_compute; reflexivity|];
    split; vm_compute; reflexivity
  | vm_compute; discriminate
  | vm_compute; intros [c Hc]; discriminate
  | vm_compute; discriminate
  | vm_compute; discriminate
  | vm_compute; reflexivity ].

(** The three exits of a call whose temporary file was created. *)
Example clone_voice_model_writes :
  ∃ sz v w2,
    @clone_voice float ieee_arith ieee_numlib passthrough_dsp
       (env_with writing_model) engine (u "Hello") (u "uploads/voice.wav")
       (u "outputs/hello.wav") (u "en") Studio.initial
    = (Ok (Synthesized (u "outputs/hello.wav") sz 5 (current_model engine)
                       (Some v)), w2)
    ∧ fs w2 !! u "uploads/voice_processed.wav" = None
    ∧ fs w2 !! u "uploads/voice.wav" = Some (File (Audio 22050 Studio.recording)).
Proof.
  eexists _, _, _. split; [vm_compute; reflexivity|].
  split; vm_compute; reflexivity.
Qed.

Example clone_voice_model_silent :
  ∃ w2,
    @clone_voice float ieee_arith ieee_numlib passthrough_dsp
       (env_with silent_model) engine (u "Hello") (u "uploads/voice.wav")
       (u "outputs/hello.wav") (u "en") Studio.initial
    = (Ok (SynthesisFailed (u "Output file was not created")), w2)
    ∧ fs w2 !! u "uploads/voice_processed.wav" = None.
Proof. eexists. split; [vm_compute; reflexivity|]. vm_compute. reflexivity. Qed.

Example clone_voice_model_raises :
  ∃ w2,
    @clone_voice float ieee_arith ieee_numlib passthrough_dsp
       (env_with failing_model) engine (u "Hello") (u "uploads/voice.wav")
       (u "outputs/hello.wav") (u "en") Studio.initial
    = (Ok (SynthesisFailed (u "CUDA out of memory")), w2)
    ∧ fs w2 !! u "uploads/voice_processed.wav" = None.
Proof. eexists. split; [vm_compute; reflexivity|]. vm_compute. reflexivity. Qed.

(** ** Timestamps *)

Lemma digit_step (a b : N) : digit a = digit b → (a / 10 = b / 10)%N → a = b.
Proof.
  unfold digit. intros Hd Hq. apply N.add_cancel_l in Hd.
  rewrite (N.div_mod a 10), (N.div_mod b 10) by done. congruence.
Qed.

Lemma pad2_inj (n m : N) : (n < 100)%N → (m < 100)%N → pad2 n = pad2 m → n = m.
Proof.
  unfold pad2. intros Hn Hm [= H1 H0].
  apply digit_step; [done|]. apply digit_step; [done|].
  rewrite !N.Div0.div_div. change (10 * 10)%N with 100%N.
  by rewrite !N.div_small.
Qed.

Lemma pad4_inj (n m : N) : (n < 10000)%N → (m < 10000)%N → pad4 n = pad4 m → n = m.
Proof.
  unfold pad4. intros Hn Hm [= H3 H2 H1 H0].
  apply digit_step; [done|]. apply digit_step; [done|].
  rewrite !N.Div0.div_div. change (10 * 10)%N with 100%N.
  apply digit_step; [done|].
  rewrite !N.Div0.div_div. change (100 * 10)%N with 1000%N.
  apply digit_step; [done|].
  rewrite !N.Div0.div_div. change (1000 * 10)%N with 10000%N.
  by rewrite !N.div_small.
Qed.

Lemma digit_is_digit (n : N) : ascii_isdigit (digit n) = true.
Proof.
  unfold ascii_isdigit, in_range, digit.
  pose proof (N.mod_upper_bound n 10 ltac:(done)) as Hr.
  generalize dependent (n mod 10)%N. intros r Hr.
  apply andb_true_iff. split; apply N.leb_le; lia.
Qed.

Lemma strftime_compact_format (t : datetime) :
  is_timestamp (strftime_compact t) = true.
Proof.
  unfold strftime_compact, pad4, pad2, is_timestamp. cbn [app forallb].
  rewrite !digit_is_digit. reflexivity.
Qed.

(** Distinct seconds have distinct timestamps. *)
Lemma strftime_compact_inj (t1 t2 : datetime) :
  wf_datetime t1 → wf_datetime t2 →
  strftime_compact t1 = strftime_compact t2 → to_second t1 = to_second t2.
Proof.
  unfold wf_datetime, strftime_compact, to_second.
  intros (Hy1 & Hm1 & Hd1 & Hh1 & Hn1 & Hs1 & _)
         (Hy2 & Hm2 & Hd2 & Hh2 & Hn2 & Hs2 & _) E.
  cbn [app pad4 pad2] in E.
  injection E as ? ? ? ? ? ? ? ? ? ? ? ? ? ?.
  rewrite (pad4_inj (year t1) (year t2)), (pad2_inj (month t1) (month t2)),
    (pad2_inj (day t1) (day t2)), (pad2_inj (hour t1) (hour t2)),
    (pad2_inj (minute t1) (minute t2)), (pad2_inj (second t1) (second t2));
    unfold pad4, pad2; try lia; try congruence.
Qed.

(** ** [_generate_model_id] *)

Section model_id_facts.
Context `{Unicode}.

Lemma sanitized_name_chars (model_name : list N) :
  Forall (λ c, c = underscore ∨ isalnum c = true) (sanitized_name model_name).
Proof.
  unfold sanitized_name. apply Forall_forall. intros c Hc.
  apply list_elem_of_fmap in Hc as (c0 & -> & _).
  destruct (isalnum c0) eqn:E; [by right | by left].
Qed.

Lemma join_singletons {A B} (g : A → B) (l : list A) :
  mjoin (map (λ c, [g c]) l) = map g l.
Proof. induction l as [|a l IH]; [done|]. cbn. f_equal. exact IH. Qed.

(** On an ASCII string [lower] maps the upper-case letters to lower case
    and keeps the other characters. *)
Lemma lower_ascii (s : list N) :
  Forall (λ c, is_ascii c = true) s → lower s = map ascii_lower s.
Proof.
  intros Hs. unfold lower.
  rewrite (imap_ext _ (const (λ c, [ascii_lower c]))).
  - rewrite imap_const. apply join_singletons.
  - intros i c Hi. cbn.
    rewrite Forall_forall in Hs. rewrite Hs; [done|].
    by eapply list_elem_of_lookup_2.
Qed.

(** A property of the ASCII characters holds if it holds of each of the
    128 of them. *)
Lemma ascii_forall (P : N → bool) :
  forallb P (map N.of_nat (seq 0 128)) = true →
  ∀ c, is_ascii c = true → P c = true.
Proof.
  intros Hall c Hc. rewrite forallb_forall in Hall. apply Hall.
  apply in_map_iff. exists (N.to_nat c). split; [apply N2Nat.id|].
  apply in_seq. unfold is_ascii in Hc. apply N.ltb_lt in Hc. lia.
Qed.

Lemma ascii_lower_sanitized (c : N) :
  is_ascii c = true →
  is_word_char (if isalnum (ascii_lower c) then ascii_lower c else underscore)
  = true.
Proof.
  revert c.
  apply (ascii_forall
           (λ c, is_word_char (if isalnum (ascii_lower c) then ascii_lower c
                               else underscore))).
  vm_compute. reflexivity.
Qed.

Lemma sanitized_name_ascii (model_name : list N) :
  Forall (λ c, is_ascii c = true) model_name →
  length (sanitized_name model_name) = length model_name
  ∧ Forall (λ c, is_word_char c = true) (sanitized_name model_name).
Proof.
  intros Hs. unfold sanitized_name. rewrite lower_ascii by done.
  split; [by rewrite !length_map|].
  rewrite map_map. apply Forall_map. eapply Forall_impl; [exact Hs|].
  intros c Hc. by apply ascii_lower_sanitized.
Qed.

End model_id_facts.

Section model_id.
Context {F : Type} `{Env F, Unicode}.

Lemma generate_model_id_run (self : VoiceCloner) (model_name : list N)
    (w : world F) :
  _generate_model_id self model_name w
  = (Ok (sanitized_name model_name ++ [underscore]
         ++ strftime_compact (clock (ticks w))), after_now w).
Proof. reflexivity. Qed.

(** C4 (amended): the generated id is the model name lowercased with every
    non-alphanumeric character replaced by ['_'], followed by ['_'] and the
    clock reading in the format [YYYYMMDD_HHMMSS].  Every character of the
    sanitized prefix is ['_'] or alphanumeric; for an ASCII name the prefix
    has the length of the name and consists of characters of [[a-z0-9_]]
    only.  Two creations with the same name in different seconds yield
    different ids with the same prefix. *)
Theorem generate_model_id_shape (self : VoiceCloner) (model_name : list N)
    (w : world F) :
  wf_datetime (clock (ticks w)) →
  let clean_name := sanitized_name model_name in
  let timestamp := strftime_compact (clock (ticks w)) in
  _generate_model_id self model_name w
    = (Ok (clean_name ++ [underscore] ++ timestamp), after_now w)
  ∧ Forall (λ c, c = underscore ∨ isalnum c = true) clean_name
  ∧ (Forall (λ c, is_ascii c = true) model_name →
       length clean_name = length model_name
       ∧ Forall (λ c, is_word_char c = true) clean_name)
  ∧ is_timestamp timestamp = true
  ∧ ∀ w' : world F,
      wf_datetime (clock (ticks w')) →
      to_second (clock (ticks w')) ≠ to_second (clock (ticks w)) →
      ∃ timestamp',
        _generate_model_id self model_name w'
          = (Ok (clean_name ++ [underscore] ++ timestamp'), after_now w')
        ∧ is_timestamp timestamp' = true
        ∧ timestamp' ≠ timestamp
        ∧ clean_name ++ [underscore] ++ timestamp'
          ≠ clean_name ++ [underscore] ++ timestamp.
Proof.
  intros Hwf clean_name timestamp.
  split; [apply generate_model_id_run|].
  split; [apply sanitized_name_chars|].
  split; [apply sanitized_name_ascii|].
  split; [apply strftime_compact_format|].
  intros w' Hwf' Hsec. exists (strftime_compact (clock (ticks w'))).
  split; [apply generate_model_id_run|].
  split; [apply strftime_compact_format|].
  assert (strftime_compact (clock (ticks w')) ≠ timestamp) as Hne.
  { intros E. apply Hsec. by apply strftime_compact_inj. }
  split; [exact Hne|].
  intros E. apply app_inv_head in E. apply app_inv_head in E. by apply Hne.
Qed.

End model_id.

(** C4 (as stated, refuted): [str.isalnum] holds of letters outside ASCII,
    which are kept: the name ["é"] (U+00E9) yields an id whose sanitized
    prefix is ["é"], a character outside [[a-z0-9_]]. *)
Lemma generate_model_id_keeps_unicode_letter :
  (@_generate_model_id float (env_with silent_model) latin1 cloner [233%N]
     Studio.initial).1
  = Ok ([233%N] ++ u "_20240101_120000")
  ∧ is_word_char 233 = false.
Proof. split; vm_compute; reflexivity. Qed.

(** ["My Voice!"] created at 12:00:00 and again one second later. *)
Lemma generate_model_id_shape_witness :
  let w1 := @after_now float Studio.initial in
  (@_generate_model_id float (env_with silent_model) latin1 cloner
     (u "My Voice!") Studio.initial).1
  = Ok (u "my_voice__20240101_120000")
  ∧ (@_generate_model_id float (env_with silent_model) latin1 cloner
       (u "My Voice!") w1).1
    = Ok (u "my_voice__20240101_120001")
  ∧ Forall (λ c, is_word_char c = true) (@sanitized_name latin1 (u "My Voice!")).
Proof.
  destruct (@generate_model_id_shape float (env_with silent_model) latin1
              cloner (u "My Voice!") Studio.initial)
    as (Hrun & _ & Hascii & _ & Hnext).
  { unfold wf_datetime. vm_compute. repeat split; discriminate. }
  split; [by rewrite Hrun|]. split; [vm_compute; reflexivity|].
  apply Hascii. repeat constructor.
Defined.


Section create_rejects.
Context {F : Type} `{Arith F, NumLib F, Dsp F, Env F, Unicode}.

(** C2: when the validation of the loaded recording, made with a minimum
    duration of 10.0 seconds, reports it invalid, [create_voice_model]
    returns the validation failure with the issues of the report and
    changes neither the file system (no model directory, no reference
    file, no metadata document written) nor the metadata in memory; no
    model id is allocated. *)
Theorem create_voice_model_rejects_invalid (self : VoiceCloner)
    (audio_path model_name description : list N) (s : state F) (rate : Z)
    (samples : list F) (v : validation F) :
  let ap := VoiceClonerModule.audio_processor self in
  fs (env s) !! audio_path = Some (File (Audio rate samples)) →
  validate_audio_quality ap (loaded_samples ap rate samples) (lit (10 # 1))
    = Ok v →
  is_valid v = false →
  ∃ s',
    create_voice_model self audio_path model_name description s
    = (Ok (ValidationFailed (u "Audio quality validation failed") (issues v)),
       s')
    ∧ metadata s' = metadata s
    ∧ fs (env s') = fs (env s)
    ∧ ticks (env s') = ticks (env s).
Proof.
  intros ap Hfile Hv Hinv. eexists. split.
  - by apply (create_voice_model_invalid self audio_path model_name
                description s rate samples v).
  - by repeat split.
Qed.

End create_rejects.

(** Every clip of three seconds (66150 samples at 22050 Hz) is reported
    invalid against a minimum of 10.0 seconds, whatever its samples and
    whatever the numerical library computes for them. *)
Lemma three_second_clip_invalid (L : NumLib float) (audio : list float) :
  Z.of_nat (length audio) = 66150%Z →
  ∃ v, @validate_audio_quality float ieee_arith L default_processor audio
         10%float = Ok v
     ∧ is_valid v = false.
Proof.
  intros Hlen.
  assert (audio ≠ []) as Hne by (intros ->; discriminate).
  destruct (@peak_of_nonempty float ieee_arith audio Hne) as [p Hp].
  destruct (@validate_audio_quality_report float ieee_arith L default_processor
              audio 10%float p) as (v & Hv & Hd & _ & _ & Hval & _);
    [done|done|].
  exists v. split; [done|]. rewrite Hval, Hd, Hlen. reflexivity.
Qed.

(** The three-second upload of the registry is rejected and nothing is
    stored. *)
Lemma create_voice_model_rejects_invalid_witness :
  ∃ l s',
    @create_voice_model float ieee_arith ieee_numlib passthrough_dsp
       (env_with silent_model) latin1 cloner (u "uploads/clip.wav")
       (u "My Voice!") (u "second take") Registry.uploaded
    = (Ok (ValidationFailed (u "Audio quality validation failed") l), s')
    ∧ metadata s' = Registry.models
    ∧ fs (env s') = fs (env Registry.uploaded).
Proof.
  edestruct (@create_voice_model_rejects_invalid float ieee_arith ieee_numlib
               passthrough_dsp (env_with silent_model) latin1 cloner
               (u "uploads/clip.wav") (u "My Voice!") (u "second take")
               Registry.uploaded 22050%Z Registry.clip)
    as (s' & Hrun & Hmd & Hfs & _).
  - apply lookup_insert_eq.
  - vm_compute. reflexivity.
  - vm_compute. reflexivity.
  - eexists _, s'. split; [exact Hrun|]. split; [exact Hmd | exact Hfs].
Defined.

(** ** [update_model_info] *)

Section update_facts.
Context {F : Type} `{Arith F, NumLib F, Dsp F, Env F, Unicode}.

Lemma set_field_run (model_id key : list N) (value : json F) (s : state F)
    (info : model_info F) :
  metadata s !! model_id = Some info →
  set_field model_id key value s
  = (Ok tt, {| env := env s;
               metadata := <[model_id := <[key := value]> info]> (metadata s) |}).
Proof.
  intros Hid. unfold set_field, get_metadata, put_metadata. run_m.
  by rewrite Hid.
Qed.

Lemma apply_name_run (model_id : list N) (name : option (list N))
    (s : state F) (info : model_info F) :
  metadata s !! model_id = Some info →
  match name with
  | Some name =>
      if truthy name then set_field model_id (u "name") (JStr name)
      else ret tt
  | None => ret tt
  end s
  = (Ok tt, {| env := env s;
               metadata := <[model_id := apply_name name info]> (metadata s) |}).
Proof.
  intros Hid. unfold apply_name.
  destruct name as [n|]; [destruct (truthy n)|];
    rewrite ?(set_field_run _ _ _ _ _ Hid); try reflexivity;
    unfold ret; rewrite insert_id by done; by destruct s.
Qed.

Lemma apply_description_run (model_id : list N)
    (description : option (list N)) (s : state F) (info : model_info F) :
  metadata s !! model_id = Some info →
  match description with
  | Some description =>
      set_field model_id (u "description") (JStr description)
  | None => ret tt
  end s
  = (Ok tt, {| env := env s;
               metadata := <[model_id := apply_description description info]>
                             (metadata s) |}).
Proof.
  intros Hid. unfold apply_description.
  destruct description as [d|];
    rewrite ?(set_field_run _ _ _ _ _ Hid); try reflexivity.
  unfold ret. rewrite insert_id by done. by destruct s.
Qed.

(** The run of [update_model_info] on an existing model. *)
Lemma update_model_info_run (self : VoiceCloner) (model_id : list N)
    (name description : option (list N)) (s : state F) (info : model_info F) :
  metadata s !! model_id = Some info →
  let info' := updated_info name description
                 (isoformat (clock (ticks (env s)))) info in
  let md' := <[model_id := info']> (metadata s) in
  ∃ w1,
    update_model_info self model_id name description s
    = (Ok (Updated info'), {| env := w1; metadata := md' |})
    ∧ ticks w1 = S (ticks (env s))
    ∧ (writable (fs (env s)) (metadata_file self) →
         fs w1 = <[metadata_file self := File (Json md')]> (fs (env s))
         ∧ trace w1 = trace (env s)).
Proof.
  intros Hid info' md'. unfold update_model_info, try_except.
  erewrite bind_ok by reflexivity.
  rewrite bool_decide_eq_false_2; last first.
  { intros Hn. apply Hn. apply elem_of_dom. eauto. }
  rewrite (bind_ok _ _ _ _ _ (apply_name_run model_id name s info Hid)).
  set (s1 := {| env := env s; metadata := _ |}).
  assert (metadata s1 !! model_id = Some (apply_name name info)) as Hid1
    by apply lookup_insert_eq.
  rewrite (bind_ok _ _ _ _ _
             (apply_description_run model_id description s1 _ Hid1)).
  set (s2 := {| env := env s1; metadata := _ |}).
  assert (metadata s2 !! model_id
          = Some (apply_description description (apply_name name info)))
    as Hid2 by apply lookup_insert_eq.
  erewrite bind_ok; last first.
  { rewrite in_env_run. unfold now. reflexivity. }
  cbn [fst snd]. set (s3 := {| env := _; metadata := metadata s2 |}).
  rewrite (bind_ok _ _ _ _ _
             (set_field_run model_id (u "updated_at")
                (JStr (isoformat (clock (ticks (env s))))) s3 _ Hid2)).
  set (s4 := {| env := env s3; metadata := _ |}).
  assert (metadata s4 = md') as Hmd.
  { subst s4 s3 s2 s1 md' info'. cbn [metadata]. unfold updated_info.
    by rewrite !insert_insert_eq. }
  destruct (save_metadata_run self s4) as (w1 & Hsave & Hticks & Hfs).
  rewrite (bind_ok _ _ _ _ _ Hsave).
  erewrite bind_ok; last first.
  { unfold get_item, get_metadata. run_m. cbn [metadata]. rewrite Hmd.
    subst md'. rewrite lookup_insert_eq. reflexivity. }
  exists w1. split; [reflexivity|]. split; [exact Hticks|].
  intros Hw. rewrite Hmd in Hfs. by apply Hfs.
Qed.

End update_facts.

Section update_claims.
Context {F : Type} `{Arith F, NumLib F, Dsp F, Env F, Unicode}.

Lemma updated_info_stamp (name description : option (list N))
    (stamp : list N) (info : model_info F) :
  updated_info name description stamp info !! u "updated_at"
  = Some (JStr stamp).
Proof. apply lookup_insert_eq. Qed.

Lemma updated_info_other (name description : option (list N))
    (stamp key : list N) (info : model_info F) :
  key ≠ u "name" → key ≠ u "description" → key ≠ u "updated_at" →
  updated_info name description stamp info !! key = info !! key.
Proof.
  intros Hn Hd Hu. unfold updated_info, apply_description, apply_name.
  rewrite lookup_insert_ne by done.
  destruct description as [d|]; rewrite ?lookup_insert_ne by done;
    destruct name as [n|]; try done;
    destruct (truthy n); by rewrite ?lookup_insert_ne.
Qed.

Lemma updated_info_name_kept (description : option (list N))
    (stamp : list N) (info : model_info F) (name : option (list N)) :
  name = None ∨ name = Some [] →
  updated_info name description stamp info !! u "name" = info !! u "name".
Proof.
  intros Hname. unfold updated_info, apply_description.
  rewrite lookup_insert_ne by done.
  destruct description as [d|]; rewrite ?lookup_insert_ne by done;
    by destruct Hname as [-> | ->].
Qed.

Lemma updated_info_description (name : option (list N)) (d stamp : list N)
    (info : model_info F) :
  updated_info name (Some d) stamp info !! u "description" = Some (JStr d).
Proof.
  unfold updated_info, apply_description.
  rewrite lookup_insert_ne by done. apply lookup_insert_eq.
Qed.

Lemma update_model_info_outcome (self : VoiceCloner) (model_id : list N)
    (name description : option (list N)) (s : state F) (info : model_info F) :
  metadata s !! model_id = Some info →
  writable (fs (env s)) (metadata_file self) →
  let info' := updated_info name description
                 (isoformat (clock (ticks (env s)))) info in
  ∃ s', update_model_info self model_id name description s
        = (Ok (Updated info'), s')
      ∧ update_outcome self model_id s s' info'.
Proof.
  intros Hid Hw info'.
  destruct (update_model_info_run self model_id name description s info Hid)
    as (w1 & Hrun & _ & Hfs).
  destruct (Hfs Hw) as [Hfs1 _].
  eexists. split; [exact Hrun|]. unfold update_outcome, get_model.
  cbn [metadata env]. split; [apply lookup_insert_eq|].
  split; [by intros other Hne; rewrite lookup_insert_ne|].
  split; [apply updated_info_stamp|].
  rewrite Hfs1. apply lookup_insert_eq.
Qed.

(** C8: on an existing model [update_model_info] applies the supplied
    fields and no other.  With only a description supplied, the stored
    name and every field other than [description] and [updated_at] are
    unchanged, [description] holds the new text, [updated_at] holds the
    clock reading, the other models are untouched, the metadata document
    is written, and the updated record is returned. *)
Theorem update_model_info_description_only (self : VoiceCloner)
    (model_id description : list N) (s : state F) (info : model_info F) :
  metadata s !! model_id = Some info →
  writable (fs (env s)) (metadata_file self) →
  ∃ info' s',
    update_model_info self model_id None (Some description) s
    = (Ok (Updated info'), s')
    ∧ update_outcome self model_id s s' info'
    ∧ info' !! u "name" = info !! u "name"
    ∧ info' !! u "description" = Some (JStr description)
    ∧ ∀ key, key ≠ u "description" → key ≠ u "updated_at" →
             info' !! key = info !! key.
Proof.
  intros Hid Hw.
  destruct (update_model_info_outcome self model_id None (Some description)
              s info Hid Hw) as (s' & Hrun & Hout).
  eexists _, s'. split; [exact Hrun|]. split; [exact Hout|].
  split; [apply updated_info_name_kept; by left|].
  split; [apply updated_info_description|].
  intros key Hd Hu. destruct (decide (key = u "name")) as [->|Hn].
  - apply updated_info_name_kept. by left.
  - by apply updated_info_other.
Qed.

(** C10: on an existing model, an empty name is treated as an absent one
    (the call behaves as the call without a name, and the stored name is
    unchanged), whereas an empty description is applied (the stored
    description becomes the empty string); in both cases [updated_at] is
    stamped and the metadata document is written. *)
Theorem update_model_info_empty_strings (self : VoiceCloner)
    (model_id : list N) (s : state F) (info : model_info F) :
  metadata s !! model_id = Some info →
  writable (fs (env s)) (metadata_file self) →
  (∀ description,
     update_model_info self model_id (Some []) description s
     = update_model_info self model_id None description s)
  ∧ (∀ description, ∃ info' s',
       update_model_info self model_id (Some []) description s
       = (Ok (Updated info'), s')
       ∧ update_outcome self model_id s s' info'
       ∧ info' !! u "name" = info !! u "name")
  ∧ (∀ name, ∃ info' s',
       update_model_info self model_id name (Some []) s
       = (Ok (Updated info'), s')
       ∧ update_outcome self model_id s s' info'
       ∧ info' !! u "description" = Some (JStr [])).
Proof.
  intros Hid Hw. split; [reflexivity|]. split.
  - intros description.
    destruct (update_model_info_outcome self model_id (Some []) description
                s info Hid Hw) as (s' & Hrun & Hout).
    eexists _, s'. split; [exact Hrun|]. split; [exact Hout|].
    apply updated_info_name_kept. by right.
  - intros name.
    destruct (update_model_info_outcome self model_id name (Some [])
                s info Hid Hw) as (s' & Hrun & Hout).
    eexists _, s'. split; [exact Hrun|]. split; [exact Hout|].
    apply updated_info_description.
Qed.

End update_claims.

(** The constructor makes the registry directory, so that the metadata
    file can be written. *)
Example new_VoiceCloner_writable :
  ∃ w, @new_VoiceCloner float (u "models")
         {| fs := ∅; trace := []; ticks := 0 |}
       = (Ok (cloner, RegistryDoc ∅), w)
     ∧ writable (fs w) (metadata_file cloner).
Proof.
  eexists. split; [vm_compute; reflexivity|].
  split; [vm_compute; discriminate | right; vm_compute; reflexivity].
Qed.

(** The registry directory of the fixture exists and the metadata file can
    be written. *)
Lemma registry_writable :
  @writable float (fs (env Registry.initial)) (metadata_file cloner).
Proof.
  split.
  - vm_compute. discriminate.
  - right. vm_compute. reflexivity.
Qed.

(** A new description for ["My Voice!"]. *)
Lemma update_model_info_description_only_witness :
  ∃ info' s',
    @update_model_info float (env_with silent_model) cloner
       (u "my_voice__20240101_120000") None (Some (u "second take"))
       Registry.initial
    = (Ok (Updated info'), s')
    ∧ info' !! u "name" = Some (JStr (u "My Voice!"))
    ∧ info' !! u "description" = Some (JStr (u "second take"))
    ∧ info' !! u "updated_at" = Some (JStr (u "2024-01-01T12:00:00"))
    ∧ fs (env s') !! u "models/models_metadata.json"
      = Some (File (Json (metadata s'))).
Proof.
  destruct (@update_model_info_description_only float (env_with silent_model)
              cloner (u "my_voice__20240101_120000") (u "second take")
              Registry.initial Registry.voice)
    as (info' & s' & Hrun & (_ & _ & Hstamp & Hfile) & Hname & Hdesc & _).
  - vm_compute. reflexivity.
  - exact registry_writable.
  - exists info', s'. split; [exact Hrun|].
    split; [rewrite Hname; vm_compute; reflexivity|].
    split; [exact Hdesc|]. split; [exact Hstamp | exact Hfile].
Defined.

(** An empty name leaves ["My Voice!"]; an empty description replaces
    ["first take"]. *)
Lemma update_model_info_empty_strings_witness :
  (∃ info' s',
     @update_model_info float (env_with silent_model) cloner
        (u "my_voice__20240101_120000") (Some []) None Registry.initial
     = (Ok (Updated info'), s')
     ∧ info' !! u "name" = Some (JStr (u "My Voice!")))
  ∧ (∃ info' s',
       @update_model_info float (env_with silent_model) cloner
          (u "my_voice__20240101_120000") None (Some []) Registry.initial
       = (Ok (Updated info'), s')
       ∧ info' !! u "description" = Some (JStr [])).
Proof.
  destruct (@update_model_info_empty_strings float (env_with silent_model)
              cloner (u "my_voice__20240101_120000") Registry.initial
              Registry.voice) as (_ & Hname & Hdesc).
  - vm_compute. reflexivity.
  - exact registry_writable.
  - split.
    + destruct (Hname None) as (info' & s' & Hrun & _ & Hkept).
      exists info', s'. split; [exact Hrun|]. rewrite Hkept.
      vm_compute. reflexivity.
    + destruct (Hdesc None) as (info' & s' & Hrun & _ & Hset).
      exists info', s'. split; [exact Hrun | exact Hset].
Defined.

(* ================================================================= *)
(** * Part III: further properties of the audio utilities, the engine
      and the registry *)
(* ================================================================= *)

(** ** [normalize_audio] and [validate_audio_quality] *)

Section audio_more.
Context {F : Type} `{Arith F, NumLib F}.

(** The three ways a call of [normalize_audio] can go. *)
Lemma normalize_audio_cases (self : AudioProcessor) (audio : list F)
    (target_level : F) :
  (feq (rms_of audio) (of_int 0) = true
   ∧ normalize_audio self audio target_level = Ok audio)
  ∨ (feq (rms_of audio) (of_int 0) = false ∧ audio = []
     ∧ ∃ e, normalize_audio self audio target_level = Raise e)
  ∨ (feq (rms_of audio) (of_int 0) = false
     ∧ ∃ sp, peak_of (rms_scaled audio target_level) = Ok sp
           ∧ normalize_audio self audio target_level
             = Ok (if flt (lit (1 # 1)) sp
                   then map (λ x, fmul (fdiv x sp) (lit (99 # 100)))
                            (rms_scaled audio target_level)
                   else rms_scaled audio target_level)).
Proof.
  destruct (feq (rms_of audio) (of_int 0)) eqn:Hz.
  - left. split; [done|]. by apply normalize_audio_rms_zero.
  - right. destruct audio as [|x xs].
    + left. repeat split. unfold normalize_audio. rewrite Hz. by eexists.
    + right. split; [done|].
      destruct (peak_of_nonempty (rms_scaled (x :: xs) target_level))
        as [sp Hsp]; [done|].
      exists sp. split; [done|]. by apply normalize_audio_scaled.
Qed.

(** X1: [normalize_audio] returns a waveform with as many samples as its
    input.  It raises only on the empty waveform, and then only when the
    RMS computed for the empty waveform is not equal to zero. *)
Theorem normalize_audio_keeps_length (self : AudioProcessor)
    (audio : list F) (target_level : F) :
  match normalize_audio self audio target_level with
  | Ok out => length out = length audio
  | Raise _ => audio = [] ∧ feq (rms_of audio) (of_int 0) = false
  end.
Proof.
  destruct (normalize_audio_cases self audio target_level)
    as [[_ ->]|[(Hz & -> & e & ->)|(_ & sp & _ & ->)]]; [done|done|].
  unfold rms_scaled. destruct (flt _ sp); by rewrite ?length_map.
Qed.

(** A report is returned only by a processor with a sample rate other
    than zero, for a waveform that has a peak. *)
Lemma validate_audio_quality_ok (self : AudioProcessor) (audio : list F)
    (min_duration : F) (v : validation F) :
  validate_audio_quality self audio min_duration = Ok v →
  sample_rate self ≠ 0%Z ∧ ∃ p, peak_of audio = Ok p.
Proof.
  unfold validate_audio_quality.
  destruct (Z.eqb_spec (sample_rate self) 0) as [|Hsr]; [done|].
  destruct (peak_of audio) as [p|e]; [eauto|done].
Qed.

(** X2: the issues of a report explain its verdict.  The issues are
    listed in the order of the checks (too short, level too low,
    clipping, signal-to-noise ratio), each at most once; the report is
    invalid exactly when "too short" or "level too low" is among them, so
    that an invalid report never has an empty list of issues, while a
    valid one may still carry the two warnings. *)
Theorem validate_audio_quality_issues_explain_verdict
    (self : AudioProcessor) (audio : list F) (min_duration : F)
    (v : validation F) :
  validate_audio_quality self audio min_duration = Ok v →
  issues v `sublist_of`
    [AudioTooShort (duration v) min_duration; AudioLevelTooLow;
     AudioMayBeClipping; LowSignalToNoiseRatio]
  ∧ (is_valid v = false
     ↔ AudioTooShort (duration v) min_duration ∈ issues v
       ∨ AudioLevelTooLow ∈ issues v)
  ∧ (is_valid v = false → issues v ≠ []).
Proof.
  intros Hv.
  destruct (validate_audio_quality_ok _ _ _ _ Hv) as [Hsr [p Hp]].
  destruct (validate_audio_quality_report self audio min_duration p Hsr Hp)
    as (v' & Hv' & _ & _ & _ & Hvalid & Hissues).
  assert (v' = v) as -> by congruence.
  rewrite Hissues, Hvalid. unfold expected_issues.
  destruct (flt (duration v) min_duration);
    destruct (flt (rms v) (lit (1 # 100)));
    destruct (flt (lit (99 # 100)) (peak v));
    destruct (flt (snr_db v) (of_int 10)); cbn;
    (split; [repeat first [apply sublist_nil | apply sublist_skip
                          | apply sublist_cons]|]);
    (split; [|try done]);
    (split; [intros; try done; try (left; set_solver); try (right; set_solver)
            |intros [Hin|Hin]; try done;
             repeat (apply elem_of_cons in Hin as [Hin|Hin]; [discriminate|]);
             try (by apply elem_of_nil in Hin)]).
Qed.

End audio_more.

(** A clip of four full-scale samples: too short, clipping, and with a low
    signal-to-noise estimate. *)
Lemma validate_audio_quality_issues_explain_verdict_witness :
  ∃ v, @validate_audio_quality float ieee_arith ieee_numlib default_processor
         [1%float; (-1)%float; 1%float; (-1)%float] 1%float = Ok v
     ∧ is_valid v = false
     ∧ issues v `sublist_of`
         [AudioTooShort (duration v) 1%float; AudioLevelTooLow;
          AudioMayBeClipping; LowSignalToNoiseRatio]
     ∧ issues v ≠ [].
Proof.
  eexists. split; [vm_compute; reflexivity|]. split; [reflexivity|].
  edestruct (@validate_audio_quality_issues_explain_verdict float ieee_arith
               ieee_numlib default_processor
               [1%float; (-1)%float; 1%float; (-1)%float] 1%float)
    as (Hsub & _ & Hne).
  { vm_compute. reflexivity. }
  split; [exact Hsub|]. apply Hne. reflexivity.
Defined.

(** *** Exact arithmetic *)

Section exact_more.
Context (lib : NumLib Q).
Local Existing Instance exact_arith.
Local Open Scope Q_scope.

(** A waveform returned by [normalize_audio] is the input itself, whose
    RMS is zero, or has a peak of at most 1.0. *)
Lemma exact_normalize_bounded (self : AudioProcessor) (audio out : list Q)
    (target_level : Q) :
  normalize_audio self audio target_level = Ok out →
  (out = audio ∧ feq (rms_of audio) (of_int 0) = true)
  ∨ (∃ p, peak_of out = Ok p ∧ p <= 1).
Proof.
  intros Hrun.
  destruct (normalize_audio_cases self audio target_level)
    as [[Hz Hn]|[(_ & _ & e & Hn)|(_ & sp & Hsp & Hn)]];
    rewrite Hn in Hrun; [left; split; congruence|done|].
  right. injection Hrun as <-.
  set (scaled := rms_scaled audio target_level) in *.
  assert (scaled ≠ []) as Hsne by (intros E; by rewrite E in Hsp).
  destruct (exact_peak_of lib scaled Hsne) as (sp' & Hsp' & _ & Hub).
  assert (sp' = sp) as -> by congruence.
  change (flt (lit (1 # 1)) sp) with (Q_ltb 1 sp).
  destruct (Q_ltb 1 sp) eqn:Hcmp.
  - apply Q_ltb_lt in Hcmp.
    set (out := map _ scaled).
    assert (out ≠ []) as Hone by (subst out; by destruct scaled).
    destruct (exact_peak_of lib out Hone) as (p & Hp & (y & Hy & Ep) & _).
    exists p. split; [done|].
    subst out. apply in_map_iff in Hy as (x & <- & Hx). rewrite Ep.
    apply Qle_trans with (99 # 100); [|done].
    apply rescaled_le; [lra|]. by apply Hub.
  - apply Q_ltb_ge in Hcmp. eauto.
Qed.

(** X3: in exact arithmetic normalization only rescales: every sample of
    the result is the corresponding input sample multiplied by one factor
    common to the whole waveform. *)
Theorem normalize_audio_rescales (self : AudioProcessor)
    (audio out : list Q) (target_level : Q) :
  normalize_audio self audio target_level = Ok out →
  ∃ k, Forall2 (λ o x, o == x * k) out audio.
Proof.
  intros Hrun.
  destruct (normalize_audio_cases self audio target_level)
    as [[Hz Hn]|[(_ & _ & e & Hn)|(_ & sp & Hsp & Hn)]];
    rewrite Hn in Hrun; [|done|]; injection Hrun as <-.
  - exists 1. apply Forall_Forall2_diag, Forall_forall. intros x _. ring.
  - set (k := fdiv (py_pow (of_int 10) (fdiv target_level (of_int 20)))
                   (rms_of audio)).
    change (flt (lit (1 # 1)) sp) with (Q_ltb 1 sp).
    destruct (Q_ltb 1 sp).
    + exists (k / sp * (99 # 100)). unfold rms_scaled.
      rewrite <- list_fmap_compose. apply Forall2_fmap_l.
      apply Forall_Forall2_diag, Forall_forall. intros x _. cbn.
      fold k. unfold Qdiv. ring.
    + exists k. unfold rms_scaled. apply Forall2_fmap_l.
      apply Forall_Forall2_diag, Forall_forall. intros x _. cbn.
      fold k. reflexivity.
Qed.

(** X4: in exact arithmetic the verdict is a matter of the number of
    samples and of the level: for a processor with a positive sample rate
    and a non-empty waveform, the report is valid exactly when the
    waveform has at least [min_duration * sample_rate] samples and its
    RMS is at least 0.01. *)
Theorem validate_audio_quality_sample_count (self : AudioProcessor)
    (audio : list Q) (min_duration : Q) :
  (0 < sample_rate self)%Z →
  audio ≠ [] →
  ∃ v, validate_audio_quality self audio min_duration = Ok v
     ∧ (is_valid v = true
        ↔ min_duration * inject_Z (sample_rate self)
            <= inject_Z (Z.of_nat (length audio))
          ∧ 1 # 100 <= rms_of audio).
Proof.
  intros Hsr Hne.
  destruct (peak_of_nonempty audio Hne) as [p Hp].
  destruct (validate_audio_quality_report self audio min_duration p)
    as (v & Hv & Hd & Hr & _ & Hvalid & _); [lia|done|].
  exists v. split; [done|]. rewrite Hvalid, Hd, Hr.
  change (flt ?a ?b) with (Q_ltb a b).
  change (fdiv ?a ?b) with (a / b). change (of_int ?z) with (inject_Z z).
  change (lit ?q) with q.
  assert (0 < inject_Z (sample_rate self)) as Hpos.
  { change 0 with (inject_Z 0). by rewrite <- Zlt_Qlt. }
  rewrite negb_true_iff, orb_false_iff, !Q_ltb_ge.
  split; intros [Hlen Hrms]; (split; [|done]).
  - apply (Qmult_le_compat_r _ _ (inject_Z (sample_rate self))) in Hlen;
      [|by apply Qlt_le_weak].
    eapply Qle_trans; [exact Hlen|]. apply Qle_lteq. right. field. lra.
  - by apply Qle_shift_div_l.
Qed.

End exact_more.

(** A two-sample waveform, scaled by one factor. *)
Lemma normalize_audio_rescales_witness :
  ∃ out k,
    @normalize_audio Q exact_arith exact_numlib default_processor
       [1 # 2; -1 # 4]%Q (-20 # 1)%Q = Ok out
    ∧ Forall2 (λ o x, o == x * k)%Q out [1 # 2; -1 # 4]%Q.
Proof.
  destruct (@normalize_audio Q exact_arith exact_numlib default_processor
              [1 # 2; -1 # 4]%Q (-20 # 1)%Q) as [out|e] eqn:E;
    [|vm_compute in E; discriminate].
  destruct (normalize_audio_rescales exact_numlib default_processor
              [1 # 2; -1 # 4]%Q out (-20 # 1)%Q E) as [k Hk].
  by exists out, k.
Defined.

(** Four samples against a minimum of a ten-thousandth of a second. *)
Lemma validate_audio_quality_sample_count_witness :
  ∃ v, @validate_audio_quality Q exact_arith exact_numlib default_processor
         [1 # 2; -1 # 2; 1 # 2; -1 # 2]%Q (1 # 10000)%Q = Ok v
     ∧ (is_valid v = true
        ↔ ((1 # 10000) * inject_Z 22050 <= inject_Z 4
           ∧ 1 # 100 <= @rms_of Q exact_arith exact_numlib
                           [1 # 2; -1 # 2; 1 # 2; -1 # 2])%Q).
Proof.
  apply (validate_audio_quality_sample_count exact_numlib default_processor
           [1 # 2; -1 # 2; 1 # 2; -1 # 2]%Q (1 # 10000)%Q); done.
Defined.

(** ** [save_audio] *)

Section paths.

Lemma rfind_succ_absent (c : N) (s : list N) :
  c ∉ s → rfind_succ c s = 0.
Proof.
  induction s as [|x s IH]; [done|]. intros Hin.
  apply not_elem_of_cons in Hin as [Hne Hin]. cbn. rewrite (IH Hin).
  by destruct (N.eqb_spec x c).
Qed.

(** A path without a slash has no directory part. *)
Lemma dirname_bare (p : list N) : slash ∉ p → dirname p = [].
Proof. intros Hp. unfold dirname. by rewrite rfind_succ_absent. Qed.

End paths.

Section save_more.
Context {F : Type} `{Arith F, NumLib F, Dsp F, Env F}.

(** What a successful [save_audio] has done. *)
Lemma save_audio_ok (self : AudioProcessor) (audio : list F) (p : list N)
    (rate : option Z) (w w1 : world F) :
  save_audio self audio p rate w = (Ok tt, w1) →
  ∃ out,
    normalize_audio self audio default_target_level = Ok out
    ∧ dirname p ≠ [] ∧ ¬ is_file (fs w) (dirname p)
    ∧ w1 = set_fs w (<[p := File (Audio (default (sample_rate self) rate) out)]>
                       (with_dir (dirname p) (fs w))).
Proof.
  unfold save_audio. intros Hrun.
  destruct (os_makedirs_run (dirname p) w) as [(Hd & Hf & Hmk)|[_ [e Hmk]]];
    [|by rewrite (bind_raise _ _ _ _ _ Hmk) in Hrun].
  rewrite (bind_ok _ _ _ _ _ Hmk) in Hrun.
  destruct (normalize_audio self audio default_target_level) as [out|e];
    [|by erewrite bind_raise in Hrun by reflexivity].
  erewrite bind_ok in Hrun by reflexivity.
  exists out. repeat split; [done..|].
  destruct rate as [r|]; cbn [default from_option];
    match type of Hrun with
    | context [sf_write ?q ?d ?r0 ?w0] =>
        destruct (sf_write_run q d r0 w0) as [[_ Hs]|(e & _ & Hs)];
          rewrite Hs in Hrun; [|done];
        destruct (write_file_run q (Audio r0 d) w0) as [Hw|[e Hw]]
    end; rewrite Hw in Hrun; [|done| |done];
    injection Hrun as <-; reflexivity.
Qed.

(** X5: a target path without a directory part cannot be saved to:
    [os.makedirs] is called on the empty string and raises
    [FileNotFoundError]; nothing is written. *)
Theorem save_audio_bare_file_name (self : AudioProcessor) (audio : list F)
    (output_path : list N) (rate : option Z) (w : world F) :
  slash ∉ output_path →
  save_audio self audio output_path rate w = (Raise (FileNotFoundError []), w).
Proof.
  intros Hp. unfold save_audio. rewrite (dirname_bare _ Hp).
  by erewrite bind_raise by reflexivity.
Qed.

(** X6: the parent directory is made before the waveform is normalized:
    when the normalization raises and the parent directory was missing
    (in a place where it can be made in one step), [save_audio] raises
    the same exception and leaves the new directory behind, with no file
    in it. *)
Theorem save_audio_failed_normalization (self : AudioProcessor)
    (audio : list F) (output_path : list N) (rate : option Z) (w : world F)
    (e : exn) :
  normalize_audio self audio default_target_level = Raise e →
  dirname output_path ≠ [] →
  fs w !! dirname output_path = None →
  within_reach (fs w) (dirname output_path) →
  save_audio self audio output_path rate w
  = (Raise e, set_fs w (<[dirname output_path := Dir]> (fs w))).
Proof.
  intros Hn Hd Hnone _. unfold save_audio.
  destruct (os_makedirs_run (dirname output_path) w)
    as [(_ & _ & Hmk)|[[?|[c Hc]] _]]; [|done|congruence].
  rewrite (bind_ok _ _ _ _ _ Hmk), Hn.
  erewrite bind_raise by reflexivity.
  unfold with_dir. by rewrite Hnone.
Qed.

End save_more.

(** Membership in a literal list of code points. *)
Ltac not_in_literal :=
  let Hin := fresh in
  intros Hin; apply list_elem_of_In in Hin; cbn in Hin; intuition discriminate.

(** A bare file name in the studio. *)
Lemma save_audio_bare_file_name_witness :
  @save_audio float ieee_arith ieee_numlib (env_with silent_model)
     default_processor Studio.recording
     (u "take.wav") None Studio.initial
  = (Raise (FileNotFoundError []), Studio.initial).
Proof.
  apply (@save_audio_bare_file_name float ieee_arith ieee_numlib
           (env_with silent_model) default_processor Studio.recording (u "take.wav") None
           Studio.initial).
  not_in_literal.
Defined.

(** An empty waveform saved below a directory that does not exist yet: in
    binary64 arithmetic its RMS is NaN and its peak cannot be taken. *)
Lemma save_audio_failed_normalization_witness :
  ∃ e, @save_audio float ieee_arith ieee_numlib (env_with silent_model)
     default_processor []
         (u "fresh/take.wav") None Studio.initial
       = (Raise e, set_fs Studio.initial (<[u "fresh" := Dir]> Studio.files))
     ∧ (<[u "fresh" := Dir]> Studio.files) !! u "fresh/take.wav" = None.
Proof.
  eexists. split; [|vm_compute; reflexivity].
  apply (@save_audio_failed_normalization float ieee_arith ieee_numlib
           (env_with silent_model) default_processor [] (u "fresh/take.wav") None Studio.initial).
  - vm_compute. reflexivity.
  - vm_compute. discriminate.
  - vm_compute. reflexivity.
  - right. left. vm_compute. reflexivity.
Defined.

Section exact_files.
Context (lib : NumLib Q) (dsp : Dsp Q) (E : Env Q).
Local Existing Instance exact_arith.
Local Open Scope Q_scope.

(** X7: [preprocess_for_tts] trims, filters (80 Hz, order 5), gates
    (threshold 0.02) and normalizes, in this order; whatever the three
    signal-processing stages return, in exact arithmetic the result is the
    gated signal itself, whose RMS is zero, or has a peak of at most
    1.0. *)
Theorem preprocess_for_tts_peak_bounded (self : AudioProcessor)
    (audio out : list Q) :
  preprocess_for_tts self audio = Ok out →
  ∃ trimmed filtered gated,
    trim_silence self audio 30 = Ok trimmed
    ∧ apply_highpass_filter self trimmed (80 # 1) 5 = Ok filtered
    ∧ reduce_noise self filtered (2 # 100) = Ok gated
    ∧ ((out = gated ∧ feq (rms_of gated) (of_int 0) = true)
       ∨ (∃ p, peak_of out = Ok p ∧ p <= 1)).
Proof.
  unfold preprocess_for_tts. intros Hrun.
  destruct (trim_silence self audio 30) as [trimmed|e]; [|done].
  cbn [outcome_bind] in Hrun.
  destruct (apply_highpass_filter self trimmed (lit (80 # 1)) 5)
    as [filtered|e] eqn:Hf; [|done].
  cbn [outcome_bind] in Hrun.
  destruct (reduce_noise self filtered (lit (2 # 100))) as [gated|e] eqn:Hg;
    [|done].
  cbn [outcome_bind] in Hrun.
  destruct (normalize_audio self gated default_target_level) as [o|e] eqn:Hn;
    [|done].
  cbn [outcome_bind] in Hrun. injection Hrun as ->.
  exists trimmed, filtered, gated. repeat split; [done..|].
  by apply (exact_normalize_bounded lib self gated out default_target_level).
Qed.

(** X8: "normalize audio to prevent clipping": in exact arithmetic the
    samples [save_audio] stores are the samples passed in, whose RMS is
    zero, or have a peak of at most 1.0. *)
Theorem save_audio_peak_bounded (self : AudioProcessor) (audio : list Q)
    (output_path : list N) (rate : option Z) (w w1 : world Q) :
  save_audio self audio output_path rate w = (Ok tt, w1) →
  ∃ out,
    fs w1 !! output_path
    = Some (File (Audio (default (sample_rate self) rate) out))
    ∧ ((out = audio ∧ feq (rms_of audio) (of_int 0) = true)
       ∨ (∃ p, peak_of out = Ok p ∧ p <= 1)).
Proof.
  intros Hrun.
  destruct (save_audio_ok self audio output_path rate w w1 Hrun)
    as (out & Hn & _ & _ & ->).
  exists out. split; [apply lookup_insert_eq|].
  by apply (exact_normalize_bounded lib self audio out default_target_level).
Qed.

End exact_files.

(** A spike and silence, through signal-processing stages that pass the
    samples on. *)
Lemma preprocess_for_tts_peak_bounded_witness :
  ∃ out p,
    @preprocess_for_tts Q exact_arith exact_numlib passthrough_dsp
       default_processor ((1 # 1) :: repeat (0 # 1) 120)%Q = Ok out
    ∧ @peak_of Q exact_arith out = Ok p ∧ (p <= 1)%Q.
Proof.
  destruct (@preprocess_for_tts Q exact_arith exact_numlib passthrough_dsp
              default_processor ((1 # 1) :: repeat (0 # 1) 120)%Q)
    as [out|e] eqn:E; [|vm_compute in E; discriminate].
  destruct (preprocess_for_tts_peak_bounded exact_numlib passthrough_dsp
              default_processor _ out E)
    as (t & f & g & Ht & Hf & Hg & [[-> Hz]|(p & Hp & Hle)]).
  - injection Ht as <-. injection Hf as <-. injection Hg as <-.
    vm_compute in Hz. discriminate.
  - exists out, p. split; [reflexivity|]. split; [exact Hp|exact Hle].
Defined.

(** The same waveform, saved. *)
Lemma save_audio_peak_bounded_witness :
  ∃ w1 out p,
    @save_audio Q exact_arith exact_numlib (env_with silent_model)
       default_processor
       ((1 # 1) :: repeat (0 # 1) 120)%Q (u "outputs/spike.wav") None
       {| fs := {[ u "outputs" := Dir ]}; trace := []; ticks := 0 |}
    = (Ok tt, w1)
    ∧ fs w1 !! u "outputs/spike.wav" = Some (File (Audio 22050 out))
    ∧ @peak_of Q exact_arith out = Ok p ∧ (p <= 1)%Q.
Proof.
  destruct (@save_audio Q exact_arith exact_numlib (env_with silent_model)
       default_processor
              ((1 # 1) :: repeat (0 # 1) 120)%Q (u "outputs/spike.wav") None
              {| fs := {[ u "outputs" := Dir ]}; trace := []; ticks := 0 |})
    as [[[]|e] w1] eqn:E; [|vm_compute in E; discriminate].
  destruct (save_audio_peak_bounded exact_numlib (env_with silent_model)
              default_processor _ _ _ _ _ E)
    as (out & Hfile & [[-> Hz]|(p & Hp & Hle)]).
  - vm_compute in Hz. discriminate.
  - exists w1, out, p. split; [reflexivity|]. split; [exact Hfile|].
    split; [exact Hp|exact Hle].
Defined.

(** ** [synthesize_speech] *)

(** The case analysis on the reply of the model and on the presence of the
    output. *)
Ltac model_replies fs1 output_path :=
  let e := fresh "e" in
  let fs2 := fresh "fs2" in
  let Eo := fresh "Eo" in
  destruct (tts_to_file _ fs1) as [[e|] fs2];
  cbn [fst snd]; cbv beta iota delta [fs trace ticks];
  [|destruct (fs2 !! output_path) as [[?|]|] eqn:Eo;
    [rewrite bool_decide_eq_true_2 by eauto
    |rewrite bool_decide_eq_true_2 by eauto
    |rewrite bool_decide_eq_false_2 by (by intros [? ?])];
    cbv beta iota delta [fs trace ticks]; rewrite ?Eo; cbv beta iota];
  eexists _, _; rewrite <- ?app_assoc;
  (split; [reflexivity|]); split; reflexivity.

Section engine_more.
Context {F : Type} `{Arith F, NumLib F, Dsp F, Env F}.

(** The run of [synthesize_speech] once the output directory exists or
    has been made: one request to the model, then the look at the output
    path. *)
Lemma synthesize_speech_run (self : TTSEngine) (text output_path : list N)
    (speaker_wav : option (list N)) (language : list N) (w : world F) :
  dirname output_path ≠ [] →
  ¬ is_file (fs w) (dirname output_path) →
  let fs1 := with_dir (dirname output_path) (fs w) in
  let rq := request_of text output_path speaker_wav language fs1 in
  let reply := tts_to_file rq fs1 in
  ∃ r l,
    synthesize_speech self text output_path speaker_wav language w
    = (Ok r, {| fs := reply.2; trace := trace w ++ l; ticks := ticks w |})
    ∧ model_calls l = [rq]
    ∧ r = match reply.1, reply.2 !! output_path with
          | Some e, _ => SynthesisFailed (str_of_exn e)
          | None, Some n =>
              Synthesized output_path (node_size n) (length text)
                          (current_model self) None
          | None, None => SynthesisFailed (u "Output file was not created")
          end.
Proof.
  intros Hd Hnf fs1 rq reply.
  unfold synthesize_speech. destruct w as [fs0 tr tk].
  cbn [fs trace ticks] in *.
  destruct (os_makedirs_run (dirname output_path)
              {| fs := fs0; trace := tr; ticks := tk |})
    as [(_ & _ & Hmk)|[[?|?] _]]; [|done|done].
  unfold try_except.
  rewrite (bind_ok _ _ _ _ _ Hmk).
  erewrite bind_ok by apply logger_run.
  cbn [fs set_fs] in *. fold fs1.
  subst reply rq. unfold request_of.
  destruct speaker_wav as [wav|];
    [destruct (truthy wav);
     [destruct (bool_decide (is_Some (fs1 !! wav))) eqn:Hex|]|];
    unfold default_voice, call_tts, os_path_exists, os_path_getsize, logger;
    run_m; cbv beta iota delta [fs trace ticks set_fs add_event];
    fold fs1; rewrite ?Hex; cbn [andb]; cbv beta iota;
    try fold (cloning_request text output_path wav language);
    fold (default_request text output_path);
    model_replies fs1 output_path.
Qed.

(** X9: given an output directory that exists or can be made in one
    step, [synthesize_speech] makes exactly one request to the model and
    reports success exactly when the model returned without raising and
    an entry exists at the output path afterwards, whether or not this
    call has created it; the success dictionary carries the size of that
    entry, the length of the text and the name of the current model. *)
Theorem synthesize_speech_success_criterion (self : TTSEngine)
    (text output_path : list N) (speaker_wav : option (list N))
    (language : list N) (w : world F) :
  dirname output_path ≠ [] →
  ¬ is_file (fs w) (dirname output_path) →
  within_reach (fs w) (dirname output_path) →
  let fs1 := with_dir (dirname output_path) (fs w) in
  let rq := request_of text output_path speaker_wav language fs1 in
  ∃ r w1 l,
    synthesize_speech self text output_path speaker_wav language w
    = (Ok r, w1)
    ∧ fs w1 = (tts_to_file rq fs1).2
    ∧ trace w1 = trace w ++ l ∧ model_calls l = [rq]
    ∧ (success r = true
       ↔ (tts_to_file rq fs1).1 = None ∧ is_Some (fs w1 !! output_path))
    ∧ (success r = true →
         ∃ n size,
           fs w1 !! output_path = Some n
           ∧ r = Synthesized output_path size (length text)
                             (current_model self) None
           ∧ ∀ c, n = File c → size = size_of c).
Proof.
  intros Hd Hnf _ fs1 rq.
  destruct (synthesize_speech_run self text output_path speaker_wav language
              w Hd Hnf) as (r & l & Hrun & Hcalls & Hr).
  fold fs1 rq in Hrun, Hcalls, Hr.
  eexists r, _, l. split; [exact Hrun|]. cbn [fs trace].
  split; [done|]. split; [done|]. split; [done|].
  destruct (tts_to_file rq fs1) as [[e|] fs2]; cbn [fst snd] in *.
  - subst r. split; [split; [done|intros [? _]; done]|done].
  - destruct (fs2 !! output_path) as [n|] eqn:Eo; subst r; cbn.
    + split; [split; eauto|]. intros _. exists n, (node_size n).
      split; [done|]. split; [done|]. by intros c ->.
    + split; [split; [done|]|done]. by intros [_ [? ?]].
Qed.

(** X10: a speaker path that is empty, or at which nothing exists (and
    which the making of the output directory does not bring into
    existence), is ignored without an error: the call behaves exactly as
    a call without a speaker, in default-voice mode, and the language
    passed is immaterial. *)
Theorem synthesize_speech_missing_speaker (self : TTSEngine)
    (text output_path wav language language' : list N) (w : world F) :
  wav = [] ∨ (fs w !! wav = None ∧ ¬ in_tree wav (dirname output_path)) →
  synthesize_speech self text output_path (Some wav) language w
  = synthesize_speech self text output_path None language' w.
Proof.
  intros Hwav. unfold synthesize_speech, try_except.
  destruct (os_makedirs_run (dirname output_path) w)
    as [(_ & _ & Hmk)|[_ [e Hmk]]];
    [|by rewrite !(bind_raise _ _ _ _ _ Hmk)].
  rewrite !(bind_ok _ _ _ _ _ Hmk).
  rewrite !(bind_ok _ _ _ _ _ (logger_run _ _ _ _)).
  set (w1 := add_event _ _).
  assert ((if truthy wav then os_path_exists wav else ret false) w1
          = (Ok false, w1)) as Hex.
  { destruct Hwav as [->|[Hnone Hout]]; [done|].
    assert (wav ≠ dirname output_path) as Hne
      by (intros Heq; apply Hout; by left).
    destruct (truthy wav); [|done].
    unfold os_path_exists. run_m. subst w1. cbn [fs add_event set_fs].
    rewrite with_dir_lookup_ne by done. rewrite Hnone.
    rewrite bool_decide_eq_false_2; [done|]. by intros [? ?]. }
  unfold mbind, M_bind, bind. by rewrite Hex.
Qed.

(** X11: an output path without a directory part makes the call fail
    before the model is invoked: [os.makedirs] raises on the empty
    string, the error is logged and a failure dictionary is returned. *)
Theorem synthesize_speech_bare_output_name (self : TTSEngine)
    (text output_path : list N) (speaker_wav : option (list N))
    (language : list N) (w : world F) :
  slash ∉ output_path →
  ∃ error,
    synthesize_speech self text output_path speaker_wav language w
    = (Ok (SynthesisFailed error),
       add_event w (Log ERROR (u "Synthesis error: {}")
                        [AExn (FileNotFoundError [])])).
Proof.
  intros Hp. unfold synthesize_speech, try_except.
  rewrite (dirname_bare _ Hp).
  erewrite bind_raise by reflexivity. by eexists.
Qed.

End engine_more.

(** The studio's model writes its output: success, after one request in
    default-voice mode. *)
Lemma synthesize_speech_success_criterion_witness :
  ∃ r w1 l,
    @synthesize_speech float (env_with writing_model) engine (u "Hello")
       (u "outputs/hello.wav") None (u "en") Studio.initial = (Ok r, w1)
    ∧ trace w1 = trace Studio.initial ++ l
    ∧ model_calls l = [default_request (u "Hello") (u "outputs/hello.wav")]
    ∧ success r = true.
Proof.
  destruct (@synthesize_speech_success_criterion float (env_with writing_model)
              engine (u "Hello") (u "outputs/hello.wav") None (u "en")
              Studio.initial)
    as (r & w1 & l & Hrun & Hfs & Htr & Hcalls & Hiff & _).
  - vm_compute. discriminate.
  - intros [c Hc]. vm_compute in Hc. discriminate.
  - left. vm_compute. reflexivity.
  - exists r, w1, l. split; [exact Hrun|]. split; [exact Htr|].
    split; [exact Hcalls|]. apply Hiff. split; [reflexivity|].
    rewrite Hfs. vm_compute. eauto.
Defined.

(** A speaker file that is not there. *)
Lemma synthesize_speech_missing_speaker_witness :
  @synthesize_speech float (env_with writing_model) engine (u "Hello")
     (u "outputs/hello.wav") (Some (u "uploads/missing.wav")) (u "fr")
     Studio.initial
  = @synthesize_speech float (env_with writing_model) engine (u "Hello")
      (u "outputs/hello.wav") None (u "en") Studio.initial.
Proof.
  apply (@synthesize_speech_missing_speaker float (env_with writing_model)
           engine (u "Hello") (u "outputs/hello.wav")
           (u "uploads/missing.wav") (u "fr") (u "en") Studio.initial).
  right. split; [vm_compute; reflexivity|].
  intros [Heq|Hb]; [vm_compute in Heq|vm_compute in Hb]; discriminate.
Defined.

(** A bare output name. *)
Lemma synthesize_speech_bare_output_name_witness :
  ∃ error,
    @synthesize_speech float (env_with writing_model) engine (u "Hello")
       (u "hello.wav") None (u "en") Studio.initial
    = (Ok (SynthesisFailed error),
       add_event Studio.initial
         (Log ERROR (u "Synthesis error: {}") [AExn (FileNotFoundError [])])).
Proof.
  apply (@synthesize_speech_bare_output_name float (env_with writing_model)
           engine (u "Hello") (u "hello.wav") None (u "en") Studio.initial).
  not_in_literal.
Defined.

(** ** [clone_voice] on a reference that cannot be loaded *)

Section clone_more.
Context {F : Type} `{Arith F, NumLib F, Dsp F, Env F}.

(** X12: when the reference path does not hold a recording (nothing is
    there, or a directory, or a file that is not audio), [clone_voice]
    returns a failure dictionary; the model is not invoked, the file
    system is left as it was, and the log holds the announcement and the
    error. *)
Theorem clone_voice_unreadable_reference (self : TTSEngine)
    (text reference_audio output_path language : list N) (w : world F) :
  (∀ rate samples,
     fs w !! reference_audio ≠ Some (File (Audio rate samples))) →
  ∃ e w2,
    clone_voice self text reference_audio output_path language w
    = (Ok (SynthesisFailed (str_of_exn e)), w2)
    ∧ fs w2 = fs w ∧ ticks w2 = ticks w
    ∧ trace w2
      = trace w ++ [Log INFO (u "Voice cloning with reference: {}")
                        [AStr reference_audio];
                    Log ERROR (u "Voice cloning error: {}") [AExn e]].
Proof.
  intros Hnone. rewrite clone_voice_steps.
  pose proof (load_audio_run (TtsEngine.audio_processor self) reference_audio
                (announced w reference_audio)) as Hload.
  cbn [fs announced add_event] in Hload.
  assert (∃ e, load_audio (TtsEngine.audio_processor self) reference_audio
                 None (announced w reference_audio)
               = (Raise e, announced w reference_audio)) as [e He].
  { destruct (fs w !! reference_audio) as [[[rate samples| | |]|]|] eqn:E;
      [by destruct (Hnone rate samples)|done..]. }
  exists e. eexists. unfold try_except, prepare_reference.
  rewrite (bind_raise _ _ _ _ _ (bind_raise _ _ _ _ _ He)).
  unfold cloning_failed.
  erewrite bind_ok by apply logger_run.
  split; [reflexivity|]. cbn. by rewrite <- app_assoc.
Qed.

End clone_more.

(** Nothing is stored at [uploads/missing.wav]. *)
Lemma clone_voice_unreadable_reference_witness :
  ∃ e w2,
    @clone_voice float ieee_arith ieee_numlib passthrough_dsp
       (env_with writing_model) engine (u "Hello") (u "uploads/missing.wav")
       (u "outputs/hello.wav") (u "en") Studio.initial
    = (Ok (SynthesisFailed (str_of_exn e)), w2)
    ∧ fs w2 = Studio.files
    ∧ model_calls (trace w2) = [].
Proof.
  destruct (@clone_voice_unreadable_reference float ieee_arith ieee_numlib
              passthrough_dsp (env_with writing_model) engine (u "Hello")
              (u "uploads/missing.wav") (u "outputs/hello.wav") (u "en")
              Studio.initial)
    as (e & w2 & Hrun & Hfs & _ & Htr).
  - intros rate samples. vm_compute. discriminate.
  - exists e, w2. split; [exact Hrun|]. split; [exact Hfs|].
    rewrite Htr. reflexivity.
Defined.

(** ** Construction of a [TTSEngine] *)

Section setup.
Context {F : Type} `{Env F, Runtime F}.

(** X13: the constructor selects the device (["cuda"] only when a GPU is
    asked for and available), loads XTTS-v2, and falls back to
    Tacotron2-DDC only when loading XTTS-v2 raises.  When the fallback
    raises as well the constructor raises the exception of the fallback,
    not that of the first attempt.  The speech model is not invoked and
    the clock is not read; the file system is as the loading leaves
    it. *)
Theorem new_TTSEngine_model_priority (use_gpu : bool) (w : world F) :
  let dev := if use_gpu && cuda_is_available then u "cuda" else u "cpu" in
  let engine_with model :=
    {| device := dev; TtsEngine.audio_processor := default_processor;
       current_model := model |} in
  let first := load_model xtts_v2 dev (fs w) in
  let second := load_model tacotron2_DDC dev first.2 in
  ∃ w1,
    new_TTSEngine use_gpu w
    = (match first.1, second.1 with
       | None, _ => Ok (engine_with xtts_v2)
       | Some _, None => Ok (engine_with tacotron2_DDC)
       | Some _, Some e2 => Raise e2
       end, w1)
    ∧ fs w1 = (if first.1 is Some _ then second.2 else first.2)
    ∧ ticks w1 = ticks w
    ∧ model_calls (trace w1) = model_calls (trace w).
Proof.
  intros dev engine_with first second. subst first second.
  unfold new_TTSEngine. fold dev.
  unfold _load_default_model, tts_load, logger. run_m. cbn [fs].
  destruct (load_model xtts_v2 dev (fs w)) as [[e1|] fs1];
    cbn [fst snd fs];
    [destruct (load_model tacotron2_DDC dev fs1) as [[e2|] fs2]|];
    cbn [fst snd fs]; cbv beta iota; eexists; (split; [reflexivity|]); cbn;
    unfold model_calls; rewrite !omap_app; cbn; by rewrite ?app_nil_r.
Qed.

End setup.

(** ** The metadata document *)

Section metadata_more.
Context {F : Type} `{Arith F, NumLib F, Dsp F, Env F, Unicode}.

Lemma write_file_unwritable (p : list N) (c : content F) (w : world F) :
  ¬ writable (fs w) p → ∃ e, write_file p c w = (Raise e, w).
Proof.
  intros Hnw. unfold write_file. run_m.
  destruct (fs w !! p) as [[x|]|] eqn:E; [|by eexists|];
    (destruct (dirname p) as [|a d] eqn:Ed;
     [destruct Hnw; split; [congruence|by left]|]);
    (destruct (fs w !! (a :: d)) as [[y|]|] eqn:Ea; [by eexists| |by eexists]);
    destruct Hnw; (split; [congruence|right; by rewrite Ed]).
Qed.

(** The two ways [_save_metadata] can go. *)
Lemma save_metadata_cases (self : VoiceCloner) (s : state F) :
  (writable (fs (env s)) (metadata_file self)
   ∧ _save_metadata self s
     = (Ok tt, {| env := set_fs (env s)
                           (<[metadata_file self := File (Json (metadata s))]>
                              (fs (env s)));
                  metadata := metadata s |}))
  ∨ (¬ writable (fs (env s)) (metadata_file self)
     ∧ ∃ e, _save_metadata self s
            = (Ok tt, {| env := logged (env s) ERROR "Error saving metadata: {}"
                                       [AExn e];
                         metadata := metadata s |})).
Proof.
  unfold _save_metadata, get_metadata. run_m. rewrite in_env_run.
  destruct (write_file_run (metadata_file self) (Json (metadata s)) (env s))
    as [Hw|[e Hw]].
  - left. rewrite Hw. cbn [fst snd]. split; [|done].
    split.
    + intros Hd. revert Hw. unfold write_file. run_m. by rewrite Hd.
    + revert Hw. unfold write_file. run_m.
      destruct (fs (env s) !! metadata_file self) as [[x|]|]; [|done|];
        (destruct (dirname (metadata_file self)) as [|a d]; [by left|]);
        (destruct (fs (env s) !! (a :: d)) as [[y|]|]; [done| |done]);
        by right.
  - right. rewrite Hw. cbn [fst snd]. rewrite in_env_run, logger_run.
    cbn [fst snd]. split; [|by exists e].
    intros Hwr. rewrite write_file_writable in Hw by done. discriminate.
Qed.

(** The ways [_load_metadata] can go. *)
Lemma load_metadata_run (self : VoiceCloner) (w : world F) :
  match fs w !! metadata_file self with
  | Some (File (Json models)) =>
      _load_metadata self w = (Ok (RegistryDoc models), w)
  | Some (File (OtherJson value)) =>
      _load_metadata self w = (Ok (ForeignDoc value), w)
  | None => _load_metadata self w = (Ok (RegistryDoc ∅), w)
  | _ => ∃ e, _load_metadata self w
              = (Ok (RegistryDoc ∅),
                 logged w ERROR "Error loading metadata: {}" [AExn e])
  end.
Proof.
  unfold _load_metadata, os_path_exists, read_file, logger. run_m.
  destruct (fs w !! metadata_file self) as [[[rate samples|md|value|data]|]|] eqn:E;
    [rewrite bool_decide_eq_true_2 by eauto..
    |rewrite bool_decide_eq_false_2 by (by intros [? ?])];
    cbv beta iota; rewrite ?E; cbv beta iota; try by destruct w.
  all: by eexists.
Qed.

Lemma load_metadata_returns (self : VoiceCloner) (w : world F) :
  ∃ doc w1, _load_metadata self w = (Ok doc, w1) ∧ fs w1 = fs w.
Proof.
  generalize (load_metadata_run self w).
  destruct (fs w !! metadata_file self) as [[[rate samples|md|value|data]|]|];
    [intros [e ->]| intros -> | intros -> |intros [e ->]|intros [e ->]
    |intros ->];
    by eexists _, _.
Qed.


(** What a successful construction has established. *)
Lemma new_VoiceCloner_ok (dir : list N) (w w0 : world F)
    (self : VoiceCloner) (md0 : document F) :
  new_VoiceCloner dir w = (Ok (self, md0), w0) →
  self = {| models_dir := dir;
            VoiceClonerModule.audio_processor := default_processor;
            metadata_file := path_join dir (u "models_metadata.json") |}
  ∧ dir ≠ [] ∧ fs w0 !! dir = Some Dir.
Proof.
  unfold new_VoiceCloner. intros Hrun.
  destruct (os_makedirs_run dir w) as [(Hd & Hnf & Hmk)|[_ [e Hmk]]];
    [|by rewrite (bind_raise _ _ _ _ _ Hmk) in Hrun].
  rewrite (bind_ok _ _ _ _ _ Hmk) in Hrun.
  set (self0 := {| models_dir := dir |}) in *.
  destruct (load_metadata_returns self0 (set_fs w (with_dir dir (fs w))))
    as (md & w1 & Hload & Hfs).
  rewrite (bind_ok _ _ _ _ _ Hload) in Hrun. injection Hrun as <- <- <-.
  split; [done|]. split; [done|]. rewrite Hfs. cbn [fs set_fs].
  by apply with_dir_lookup_dir.
Qed.

(** X15: the registry persists.  Once a cloner has been constructed on a
    directory and has saved a mapping to a writable metadata file, a
    cloner constructed on the same directory starts with that mapping,
    and its construction changes nothing. *)
Theorem registry_persists (dir : list N) (w w0 : world F)
    (self : VoiceCloner) (md0 : document F) (md : models_metadata F)
    (s1 : state F) :
  new_VoiceCloner dir w = (Ok (self, md0), w0) →
  writable (fs w0) (metadata_file self) →
  _save_metadata self {| env := w0; metadata := md |} = (Ok tt, s1) →
  new_VoiceCloner dir (env s1) = (Ok (self, RegistryDoc md), env s1).
Proof.
  intros Hnew Hwr Hsave.
  destruct (new_VoiceCloner_ok _ _ _ _ _ Hnew) as (Hself & Hdir & Hisdir).
  destruct (save_metadata_cases self {| env := w0; metadata := md |})
    as [[_ Hs]|[Hnw _]]; [|done].
  rewrite Hs in Hsave. injection Hsave as <-. cbn [env metadata] in *.
  assert (metadata_file self ≠ dir) as Hne.
  { rewrite Hself. cbn [metadata_file]. unfold path_join. intros Heq.
    apply (f_equal length) in Heq. rewrite length_app in Heq. cbn in Heq. lia. }
  unfold new_VoiceCloner.
  erewrite bind_ok; last first.
  { unfold os_makedirs. run_m. cbn [fs set_fs].
    rewrite lookup_insert_ne by done. rewrite Hisdir.
    destruct dir; [done|]. reflexivity. }
  rewrite <- Hself at 1.
  pose proof (load_metadata_run self
                (set_fs w0 (<[metadata_file self := File (Json md)]> (fs w0))))
    as Hload.
  cbn [fs set_fs] in Hload. rewrite lookup_insert_eq in Hload.
  rewrite (bind_ok _ _ _ _ _ Hload). by rewrite <- Hself.
Qed.

End metadata_more.

(** A registry made, saved and opened again. *)
Lemma registry_persists_witness :
  ∃ w0 s1,
    @new_VoiceCloner float (u "models") {| fs := ∅; trace := []; ticks := 0 |}
    = (Ok (cloner, RegistryDoc ∅), w0)
    ∧ @_save_metadata float cloner {| env := w0; metadata := Registry.models |}
      = (Ok tt, s1)
    ∧ @new_VoiceCloner float (u "models") (env s1)
      = (Ok (cloner, RegistryDoc Registry.models), env s1).
Proof.
  eexists _, _. split; [vm_compute; reflexivity|].
  split; [vm_compute; reflexivity|].
  eapply (@registry_persists float (u "models")
            {| fs := ∅; trace := []; ticks := 0 |} _ cloner (RegistryDoc ∅)
            Registry.models).
  - vm_compute. reflexivity.
  - split; [vm_compute; discriminate | right; vm_compute; reflexivity].
  - vm_compute. reflexivity.
Defined.

(** ** [update_model_info]: unknown models and failed writes *)

Section update_more.
Context {F : Type} `{Arith F, NumLib F, Dsp F, Env F, Unicode}.

(** The run of [update_model_info] on an existing model, up to the
    writing of the metadata file. *)
Lemma update_model_info_steps (self : VoiceCloner) (model_id : list N)
    (name description : option (list N)) (s : state F) (info : model_info F) :
  metadata s !! model_id = Some info →
  let info' := updated_info name description
                 (isoformat (clock (ticks (env s)))) info in
  ∃ s',
    _save_metadata self {| env := after_now (env s);
                           metadata := <[model_id := info']> (metadata s) |}
    = (Ok tt, s')
    ∧ update_model_info self model_id name description s
      = (Ok (Updated info'), s').
Proof.
  intros Hid info'. unfold update_model_info, try_except.
  erewrite bind_ok by reflexivity.
  rewrite bool_decide_eq_false_2; last first.
  { intros Hn. apply Hn. apply elem_of_dom. eauto. }
  rewrite (bind_ok _ _ _ _ _ (apply_name_run model_id name s info Hid)).
  set (s1 := {| env := env s; metadata := _ |}).
  assert (metadata s1 !! model_id = Some (apply_name name info)) as Hid1
    by apply lookup_insert_eq.
  rewrite (bind_ok _ _ _ _ _
             (apply_description_run model_id description s1 _ Hid1)).
  set (s2 := {| env := env s1; metadata := _ |}).
  assert (metadata s2 !! model_id
          = Some (apply_description description (apply_name name info)))
    as Hid2 by apply lookup_insert_eq.
  erewrite bind_ok; last first.
  { rewrite in_env_run. unfold now. reflexivity. }
  cbn [fst snd]. set (s3 := {| env := _; metadata := metadata s2 |}).
  rewrite (bind_ok _ _ _ _ _
             (set_field_run model_id (u "updated_at")
                (JStr (isoformat (clock (ticks (env s))))) s3 _ Hid2)).
  set (s4 := {| env := env s3; metadata := _ |}).
  assert (s4 = {| env := after_now (env s);
                  metadata := <[model_id := info']> (metadata s) |}) as ->.
  { subst s4 s3 s2 s1 info'. cbn [metadata env]. unfold updated_info.
    by rewrite !insert_insert_eq. }
  destruct (save_metadata_run self
              {| env := after_now (env s);
                 metadata := <[model_id := info']> (metadata s) |})
    as (w1 & Hsave & _).
  rewrite (bind_ok _ _ _ _ _ Hsave).
  erewrite bind_ok; last first.
  { unfold get_item, get_metadata. run_m. cbn [metadata].
    rewrite lookup_insert_eq. reflexivity. }
  eexists. split; [exact Hsave|reflexivity].
Qed.

Lemma update_model_info_not_found (self : VoiceCloner) (model_id : list N)
    (name description : option (list N)) (s : state F) :
  metadata s !! model_id = None →
  update_model_info self model_id name description s
  = (Ok (UpdateFailed (u "Model not found")), s).
Proof.
  intros Hid. unfold update_model_info, try_except, get_metadata. run_m.
  rewrite bool_decide_eq_true_2; [done|]. by apply not_elem_of_dom.
Qed.

(** X16: an update of a model that is not registered fails with "Model
    not found" and changes nothing: no field is set, the clock is not
    read, the metadata file is not written and nothing is logged. *)
Theorem update_model_info_unknown (self : VoiceCloner) (model_id : list N)
    (name description : option (list N)) (s : state F) :
  get_model (metadata s) model_id = None →
  update_model_info self model_id name description s
  = (Ok (UpdateFailed (u "Model not found")), s).
Proof. apply update_model_info_not_found. Qed.

(** X17: a failure to write the metadata file does not fail the update.
    When the file cannot be opened for writing, [update_model_info] still
    returns success with the updated record and the record in memory is
    replaced, but the file system is left as it was: the error is only
    logged. *)
Theorem update_model_info_unsaved (self : VoiceCloner) (model_id : list N)
    (name description : option (list N)) (s : state F) (info : model_info F) :
  get_model (metadata s) model_id = Some info →
  ¬ writable (fs (env s)) (metadata_file self) →
  ∃ info' s' e,
    update_model_info self model_id name description s
    = (Ok (Updated info'), s')
    ∧ get_model (metadata s') model_id = Some info'
    ∧ info' = updated_info name description
                (isoformat (clock (ticks (env s)))) info
    ∧ fs (env s') = fs (env s)
    ∧ trace (env s')
      = trace (env s) ++ [Log ERROR (u "Error saving metadata: {}") [AExn e]].
Proof.
  intros Hid Hnw.
  destruct (update_model_info_steps self model_id name description s info Hid)
    as (s' & Hsave & Hrun).
  destruct (save_metadata_cases self
              {| env := after_now (env s);
                 metadata := <[model_id := updated_info name description
                                 (isoformat (clock (ticks (env s)))) info]>
                               (metadata s) |})
    as [[Hwr _]|[_ [e He]]]; [done|].
  rewrite He in Hsave. injection Hsave as <-.
  eexists _, _, e. split; [exact Hrun|]. cbn.
  split; [apply lookup_insert_eq|]. done.
Qed.

End update_more.

(** An id that is not in the registry. *)
Lemma update_model_info_unknown_witness :
  @update_model_info float (env_with silent_model) cloner (u "nobody")
     (Some (u "New name")) None Registry.initial
  = (Ok (UpdateFailed (u "Model not found")), Registry.initial).
Proof.
  apply (@update_model_info_unknown float (env_with silent_model) cloner
           (u "nobody") (Some (u "New name")) None Registry.initial).
  vm_compute. reflexivity.
Defined.

(** The registry directory is missing: the new description lives in memory
    only. *)
Lemma update_model_info_unsaved_witness :
  ∃ info' s',
    @update_model_info float (env_with silent_model) cloner
       (u "my_voice__20240101_120000") None (Some (u "second take"))
       {| env := {| fs := ∅; trace := []; ticks := 0 |};
          metadata := Registry.models |}
    = (Ok (Updated info'), s')
    ∧ info' !! u "description" = Some (JStr (u "second take"))
    ∧ fs (env s') = ∅.
Proof.
  destruct (@update_model_info_unsaved float (env_with silent_model) cloner
              (u "my_voice__20240101_120000") None (Some (u "second take"))
              {| env := {| fs := ∅; trace := []; ticks := 0 |};
                 metadata := Registry.models |} Registry.voice)
    as (info' & s' & e & Hrun & _ & Hinfo & Hfs & _).
  - vm_compute. reflexivity.
  - intros [_ [Hd|Hd]]; vm_compute in Hd; discriminate.
  - exists info', s'. split; [exact Hrun|]. split; [|exact Hfs].
    rewrite Hinfo. vm_compute. reflexivity.
Defined.

(** ** [delete_model] *)

Section delete_more.
Context {F : Type} `{Arith F, NumLib F, Dsp F, Env F, Unicode}.

Lemma outside_lookup_in (d p : list N) (fs0 : filesystem F) :
  in_tree d p → outside d fs0 !! p = None.
Proof.
  intros Hin. unfold outside. apply map_lookup_filter_None. right.
  intros x _ [Hne Hb]. cbn in *. destruct Hin; congruence.
Qed.

Lemma outside_lookup_out (d p : list N) (fs0 : filesystem F) :
  ¬ in_tree d p → outside d fs0 !! p = fs0 !! p.
Proof.
  intros Hout. unfold outside.
  destruct (fs0 !! p) as [x|] eqn:E.
  - apply map_lookup_filter_Some. split; [done|]. cbn. split.
    + intros ->. apply Hout. by left.
    + destruct (below d p) eqn:Hb; [|done]. destruct Hout. by right.
  - apply map_lookup_filter_None. by left.
Qed.

Lemma shutil_rmtree_run (d : list N) (w : world F) :
  match fs w !! d with
  | Some Dir => shutil_rmtree d w = (Ok tt, set_fs w (outside d (fs w)))
  | _ => ∃ e, shutil_rmtree d w = (Raise e, w)
  end.
Proof.
  unfold shutil_rmtree. run_m.
  destruct (fs w !! d) as [[c|]|]; [by eexists|done|by eexists].
Qed.

Lemma delete_model_not_found (self : VoiceCloner) (model_id : list N)
    (s : state F) :
  metadata s !! model_id = None →
  delete_model self model_id s = (Ok (DeleteFailed (u "Model not found")), s).
Proof.
  intros Hid. unfold delete_model, try_except, get_metadata. run_m.
  rewrite bool_decide_eq_true_2; [done|]. by apply not_elem_of_dom.
Qed.

(** The run of [delete_model] on a registered model. *)
Lemma delete_model_steps (self : VoiceCloner) (model_id : list N)
    (s : state F) (info : model_info F) :
  metadata s !! model_id = Some info →
  let model_dir := path_join (models_dir self) model_id in
  match fs (env s) !! model_dir with
  | Some (File _) =>
      ∃ e, delete_model self model_id s
           = (Ok (DeleteFailed (str_of_exn e)),
              {| env := logged (env s) ERROR "Error deleting model: {}"
                               [AExn e];
                 metadata := metadata s |})
  | _ =>
      ∃ s1,
        _save_metadata self
          {| env := set_fs (env s) (without_tree model_dir (fs (env s)));
             metadata := delete model_id (metadata s) |} = (Ok tt, s1)
        ∧ delete_model self model_id s
          = (Ok (Deleted (u "Model deleted successfully")),
             {| env := logged (env s1) INFO "Model deleted: {}" [AStr model_id];
                metadata := metadata s1 |})
  end.
Proof.
  intros Hid model_dir. unfold delete_model, try_except. fold model_dir.
  erewrite bind_ok by reflexivity.
  rewrite bool_decide_eq_false_2; last first.
  { intros Hn. apply Hn. apply elem_of_dom. eauto. }
  erewrite bind_ok; last first.
  { rewrite in_env_run. unfold os_path_exists. run_m. reflexivity. }
  cbn [fst snd].
  generalize (shutil_rmtree_run model_dir (env s)).
  unfold without_tree.
  destruct (fs (env s) !! model_dir) as [[c|]|] eqn:Ed.
  - intros [e He]. rewrite bool_decide_eq_true_2 by eauto.
    erewrite bind_raise; last first.
    { rewrite in_env_run. cbn [env]. rewrite He. reflexivity. }
    cbn [fst snd metadata]. exists e.
    erewrite bind_ok by (rewrite in_env_run, logger_run; reflexivity).
    reflexivity.
  - intros Hrm. rewrite bool_decide_eq_true_2 by eauto.
    erewrite bind_ok; last first.
    { rewrite in_env_run. cbn [env]. rewrite Hrm. reflexivity. }
    cbn [fst snd metadata].
    erewrite bind_ok; last first.
    { unfold del_item, get_metadata, put_metadata. run_m. cbn [metadata env].
      rewrite Hid. reflexivity. }
    destruct (save_metadata_run self
                {| env := set_fs (env s) (outside model_dir (fs (env s)));
                   metadata := delete model_id (metadata s) |})
      as (w1 & Hsave & _).
    rewrite (bind_ok _ _ _ _ _ Hsave).
    erewrite bind_ok; last first.
    { rewrite in_env_run, logger_run. reflexivity. }
    eexists. split; [exact Hsave|]. reflexivity.
  - intros _. rewrite bool_decide_eq_false_2 by (by intros [? ?]).
    erewrite bind_ok by reflexivity.
    erewrite bind_ok; last first.
    { unfold del_item, get_metadata, put_metadata. run_m. cbn [metadata env].
      rewrite Hid. reflexivity. }
    cbn [env]. rewrite set_fs_same.
    destruct (save_metadata_run self
                {| env := env s; metadata := delete model_id (metadata s) |})
      as (w1 & Hsave & _).
    rewrite (bind_ok _ _ _ _ _ Hsave).
    erewrite bind_ok; last first.
    { rewrite in_env_run, logger_run. reflexivity. }
    eexists. split; [exact Hsave|]. reflexivity.
Qed.

Lemma writable_outside (d p : list N) (fs0 : filesystem F) :
  writable fs0 p → ¬ in_tree d p → ¬ in_tree d (dirname p) →
  writable (outside d fs0) p.
Proof.
  intros [Hp Hd] Hout Hdout. split.
  - by rewrite outside_lookup_out.
  - destruct Hd as [?|Hd]; [by left|right]. by rewrite outside_lookup_out.
Qed.

(** X18: the deletion of a model that is not registered fails with
    "Model not found" and changes nothing: no directory is removed, the
    metadata file is not written and nothing is logged. *)
Theorem delete_model_unknown (self : VoiceCloner) (model_id : list N)
    (s : state F) :
  get_model (metadata s) model_id = None →
  delete_model self model_id s = (Ok (DeleteFailed (u "Model not found")), s).
Proof. apply delete_model_not_found. Qed.

(** X19: the deletion of a registered model whose id is a single path
    component and whose directory exists removes the directory with
    everything below it and the record of the model, and nothing else:
    the other records and every path outside the directory are left as
    they were, except for the metadata file, which then holds the
    remaining records. *)
Theorem delete_model_removes (self : VoiceCloner) (model_id : list N)
    (s : state F) (info : model_info F) :
  let model_dir := path_join (models_dir self) model_id in
  plain_component model_id →
  get_model (metadata s) model_id = Some info →
  fs (env s) !! model_dir = Some Dir →
  writable (fs (env s)) (metadata_file self) →
  ¬ in_tree model_dir (metadata_file self) →
  ¬ in_tree model_dir (dirname (metadata_file self)) →
  ∃ s',
    delete_model self model_id s
    = (Ok (Deleted (u "Model deleted successfully")), s')
    ∧ metadata s' = delete model_id (metadata s)
    ∧ (∀ p, in_tree model_dir p → fs (env s') !! p = None)
    ∧ (∀ p, ¬ in_tree model_dir p → p ≠ metadata_file self →
         fs (env s') !! p = fs (env s) !! p)
    ∧ fs (env s') !! metadata_file self = Some (File (Json (metadata s'))).
Proof.
  intros model_dir _ Hid Hdir Hwr Hout Hdout.
  generalize (delete_model_steps self model_id s info Hid).
  cbn zeta. fold model_dir. unfold without_tree. rewrite Hdir.
  intros (s1 & Hsave & Hrun).
  destruct (save_metadata_cases self
              {| env := set_fs (env s) (outside model_dir (fs (env s)));
                 metadata := delete model_id (metadata s) |})
    as [[_ Hs]|[Hnw _]]; [|destruct Hnw; by apply writable_outside].
  rewrite Hs in Hsave. injection Hsave as <-.
  eexists. split; [exact Hrun|]. cbn.
  split; [done|]. split; [|split].
  - intros p Hin. rewrite lookup_insert_ne by (by intros <-).
    by apply outside_lookup_in.
  - intros p Hp Hne. rewrite lookup_insert_ne by done.
    by apply outside_lookup_out.
  - apply lookup_insert_eq.
Qed.

(** X20: a regular file in the place of the model directory blocks the
    deletion: [shutil.rmtree] raises before the record is removed, so the
    call returns a failure and the model stays registered; the file
    system is left as it was. *)
Theorem delete_model_blocked_by_file (self : VoiceCloner)
    (model_id : list N) (s : state F) (info : model_info F) :
  plain_component model_id →
  get_model (metadata s) model_id = Some info →
  is_file (fs (env s)) (path_join (models_dir self) model_id) →
  ∃ error s',
    delete_model self model_id s = (Ok (DeleteFailed error), s')
    ∧ metadata s' = metadata s
    ∧ fs (env s') = fs (env s).
Proof.
  intros _ Hid [c Hc].
  generalize (delete_model_steps self model_id s info Hid).
  cbn zeta. rewrite Hc. intros [e Hrun].
  eexists _, _. split; [exact Hrun|]. done.
Qed.

(** X21: [delete_model] never raises, and the record is removed from the
    registry exactly when the call reports success: a failure leaves the
    mapping in memory as it was.  After a success the model is unknown to
    [get_model], to a second [delete_model] and to [update_model_info]. *)
Theorem delete_model_success_removes_record (self : VoiceCloner)
    (model_id : list N) (s : state F) :
  ∃ r s',
    delete_model self model_id s = (Ok r, s')
    ∧ match r with
      | Deleted _ =>
          is_Some (get_model (metadata s) model_id)
          ∧ metadata s' = delete model_id (metadata s)
          ∧ get_model (metadata s') model_id = None
          ∧ delete_model self model_id s'
            = (Ok (DeleteFailed (u "Model not found")), s')
          ∧ ∀ name description,
              update_model_info self model_id name description s'
              = (Ok (UpdateFailed (u "Model not found")), s')
      | DeleteFailed _ => metadata s' = metadata s
      end.
Proof.
  destruct (metadata s !! model_id) as [info|] eqn:Hid.
  - generalize (delete_model_steps self model_id s info Hid). cbn zeta.
    assert (∀ s1,
              _save_metadata self
                {| env := set_fs (env s)
                            (without_tree (path_join (models_dir self) model_id)
                               (fs (env s)));
                   metadata := delete model_id (metadata s) |} = (Ok tt, s1) →
              metadata s1 = delete model_id (metadata s)) as Hmd.
    { intros s1 Hsave.
      destruct (save_metadata_run self
                  {| env := set_fs (env s)
                              (without_tree
                                 (path_join (models_dir self) model_id)
                                 (fs (env s)));
                     metadata := delete model_id (metadata s) |})
        as (w1 & Hsave' & _).
      rewrite Hsave' in Hsave. by injection Hsave as <-. }
    destruct (fs (env s) !! path_join (models_dir self) model_id)
      as [[c|]|];
      [intros [e Hrun]; eexists _, _; split; [exact Hrun|done]
      |intros (s1 & Hsave & Hrun)..];
      (eexists _, _; split; [exact Hrun|]; cbn [metadata];
       unfold get_model; rewrite (Hmd s1 Hsave), Hid;
       split; [by eexists|]; split; [done|];
       split; [apply lookup_delete_eq|];
       split; [|intros name description];
       [apply delete_model_not_found|apply update_model_info_not_found];
       cbn [metadata]; apply lookup_delete_eq).
  - rewrite (delete_model_not_found self model_id s Hid). by eexists _, _.
Qed.

End delete_more.

(** A literal name is a single path component. *)
Ltac plain_literal :=
  split; [vm_compute; discriminate|];
  split; [not_in_literal|];
  split; vm_compute; discriminate.

(** An id that is not in the registry. *)
Lemma delete_model_unknown_witness :
  @delete_model float cloner (u "nobody") Shelf.initial
  = (Ok (DeleteFailed (u "Model not found")), Shelf.initial).
Proof.
  apply (@delete_model_unknown float cloner
           (u "nobody") Shelf.initial).
  vm_compute. reflexivity.
Defined.

(** The model of the shelf is deleted: its reference recording is gone, the
    registry directory and the uploads stay. *)
Lemma delete_model_removes_witness :
  ∃ s',
    @delete_model float cloner Shelf.model_id
       Shelf.initial
    = (Ok (Deleted (u "Model deleted successfully")), s')
    ∧ metadata s' = ∅
    ∧ fs (env s') !! u "models/my_voice__20240101_120000/reference.wav" = None
    ∧ fs (env s') !! u "models/my_voice__20240101_120000" = None
    ∧ fs (env s') !! u "uploads" = Some Dir
    ∧ fs (env s') !! u "models/models_metadata.json" = Some (File (Json ∅)).
Proof.
  destruct (@delete_model_removes float cloner
              Shelf.model_id Shelf.initial Registry.voice)
    as (s' & Hrun & Hmd & Hin & Hout & Hmf).
  - plain_literal.
  - vm_compute. reflexivity.
  - vm_compute. reflexivity.
  - split; [vm_compute; discriminate | right; vm_compute; reflexivity].
  - intros [Heq|Hb]; [vm_compute in Heq|vm_compute in Hb]; discriminate.
  - intros [Heq|Hb]; [vm_compute in Heq|vm_compute in Hb]; discriminate.
  - assert (metadata s' = ∅) as Hmd' by (rewrite Hmd; vm_compute; reflexivity).
    exists s'. split; [exact Hrun|]. split; [exact Hmd'|].
    split; [apply Hin; right; vm_compute; reflexivity|].
    split; [apply Hin; left; reflexivity|].
    split.
    + rewrite Hout; [vm_compute; reflexivity| |vm_compute; discriminate].
      intros [Heq|Hb]; [vm_compute in Heq|vm_compute in Hb]; discriminate.
    + rewrite Hmd' in Hmf. exact Hmf.
Defined.

(** A file sits where the model directory should be. *)
Lemma delete_model_blocked_by_file_witness :
  ∃ error s',
    @delete_model float cloner Shelf.model_id
       {| env := {| fs := {[ u "models" := Dir;
                             u "models/my_voice__20240101_120000"
                               := File (Bytes []) ]};
                    trace := []; ticks := 0 |};
          metadata := Registry.models |}
    = (Ok (DeleteFailed error), s')
    ∧ metadata s' = Registry.models.
Proof.
  destruct (@delete_model_blocked_by_file float cloner
              Shelf.model_id
              {| env := {| fs := {[ u "models" := Dir;
                                    u "models/my_voice__20240101_120000"
                                      := File (Bytes []) ]};
                           trace := []; ticks := 0 |};
                 metadata := Registry.models |} Registry.voice)
    as (error & s' & Hrun & Hmd & _).
  - plain_literal.
  - vm_compute. reflexivity.
  - eexists. vm_compute. reflexivity.
  - by exists error, s'.
Defined.

(** ** [add_preset_voices] *)

Section presets.
Context {F : Type} `{Env F}.

Lemma add_if_absent_present {A} (k : list N) (v : A) (m : gmap (list N) A) :
  is_Some (m !! k) → add_if_absent k v m = m.
Proof. intros [x Hx]. unfold add_if_absent. by rewrite Hx. Qed.

Lemma add_if_absent_lookup {A} (k : list N) (v : A) (m : gmap (list N) A) :
  add_if_absent k v m !! k = Some (default v (m !! k)).
Proof.
  unfold add_if_absent. destruct (m !! k) eqn:E; cbn; [done|].
  apply lookup_insert_eq.
Qed.

Lemma add_if_absent_lookup_ne {A} (k j : list N) (v : A)
    (m : gmap (list N) A) :
  k ≠ j → add_if_absent k v m !! j = m !! j.
Proof.
  intros Hne. unfold add_if_absent. destruct (m !! k); [done|].
  by apply lookup_insert_ne.
Qed.

Lemma add_if_absent_kept {A} (k j : list N) (v x : A)
    (m : gmap (list N) A) :
  m !! j = Some x → add_if_absent k v m !! j = Some x.
Proof.
  intros Hj. destruct (decide (k = j)) as [->|Hne].
  - by rewrite add_if_absent_lookup, Hj.
  - by rewrite add_if_absent_lookup_ne.
Qed.

(** One turn of the loop of [add_preset_voices]. *)
Lemma add_preset_run (k : list N) (v : model_info F) (s : state F) :
  (md ← get_metadata;
   if bool_decide (k ∉ dom md) then put_metadata (<[k := v]> md) else ret tt) s
  = (Ok tt, {| env := env s; metadata := add_if_absent k v (metadata s) |}).
Proof.
  unfold get_metadata, put_metadata, add_if_absent. run_m.
  destruct (metadata s !! k) as [x|] eqn:E.
  - rewrite bool_decide_eq_false_2; [by destruct s|].
    intros Hn. apply Hn, elem_of_dom. eauto.
  - rewrite bool_decide_eq_true_2; [done|]. by apply not_elem_of_dom.
Qed.

(** The run of [add_preset_voices], up to the writing of the metadata
    file. *)
Lemma add_preset_voices_steps (self : VoiceCloner) (s : state F) :
  ∃ s1,
    _save_metadata self
      {| env := after_now (after_now (env s));
         metadata := with_presets (clock (ticks (env s)))
                                  (clock (S (ticks (env s)))) (metadata s) |}
    = (Ok tt, s1)
    ∧ metadata s1 = with_presets (clock (ticks (env s)))
                                 (clock (S (ticks (env s)))) (metadata s)
    ∧ ticks (env s1) = S (S (ticks (env s)))
    ∧ add_preset_voices self s
      = (Ok tt, {| env := logged (env s1) INFO "Preset voices added" [];
                   metadata := metadata s1 |}).
Proof.
  unfold add_preset_voices.
  erewrite bind_ok by (rewrite in_env_run; unfold now; reflexivity).
  cbn [fst snd].
  erewrite bind_ok by (rewrite in_env_run; unfold now; reflexivity).
  cbn [fst snd env metadata ticks]. unfold for_each.
  erewrite bind_ok; last first.
  { erewrite bind_ok by apply add_preset_run.
    erewrite bind_ok by apply add_preset_run. reflexivity. }
  cbn [fst snd env metadata].
  fold (morgan_preset (F:=F) (isoformat (clock (ticks (env s))))).
  fold (david_preset (F:=F) (isoformat (clock (S (ticks (env s)))))).
  fold (with_presets (clock (ticks (env s))) (clock (S (ticks (env s))))
          (metadata s)).
  fold (after_now (env s)).
  change {| fs := fs (env s); trace := trace (env s);
            ticks := S (S (ticks (env s))) |}
    with (after_now (after_now (env s))).
  destruct (save_metadata_run self
              {| env := after_now (after_now (env s));
                 metadata := with_presets (clock (ticks (env s)))
                               (clock (S (ticks (env s)))) (metadata s) |})
    as (w1 & Hsave & Hticks & _).
  rewrite (bind_ok _ _ _ _ _ Hsave).
  eexists. split; [exact Hsave|]. split; [done|]. split; [exact Hticks|].
  by rewrite in_env_run, logger_run.
Qed.

(** X22: [add_preset_voices] never raises and never replaces a record:
    every model registered before the call is registered afterwards with
    the same record, even under the id of a preset; afterwards both
    preset ids are registered, and no other id has been added.  The clock
    is read twice, whether or not a preset is added. *)
Theorem add_preset_voices_keeps_existing (self : VoiceCloner) (s : state F) :
  ∃ s',
    add_preset_voices self s = (Ok tt, s')
    ∧ (∀ id info, get_model (metadata s) id = Some info →
                  get_model (metadata s') id = Some info)
    ∧ is_Some (get_model (metadata s') morgan_freeman)
    ∧ is_Some (get_model (metadata s') david_attenborough)
    ∧ (∀ id, is_Some (get_model (metadata s') id) →
             is_Some (get_model (metadata s) id)
             ∨ id = morgan_freeman ∨ id = david_attenborough)
    ∧ ticks (env s') = S (S (ticks (env s))).
Proof.
  destruct (add_preset_voices_steps self s) as (s1 & _ & Hmd & Htk & Hrun).
  eexists. split; [exact Hrun|]. cbn [metadata env logged add_event ticks].
  rewrite Hmd. unfold get_model, with_presets.
  split; [|split; [|split; [|split; [|done]]]].
  - intros id info Hid. by do 2 apply add_if_absent_kept.
  - rewrite add_if_absent_lookup_ne by (vm_compute; discriminate).
    rewrite add_if_absent_lookup. eauto.
  - rewrite add_if_absent_lookup. eauto.
  - intros id Hsome.
    destruct (decide (david_attenborough = id)) as [<-|Hd]; [by right; right|].
    rewrite add_if_absent_lookup_ne in Hsome by done.
    destruct (decide (morgan_freeman = id)) as [<-|Hm]; [by right; left|].
    rewrite add_if_absent_lookup_ne in Hsome by done. by left.
Qed.

(** X23: [add_preset_voices] is idempotent on the registry: a second call
    leaves the mapping of the first, with the creation times of the
    first. *)
Theorem add_preset_voices_idempotent (self : VoiceCloner) (s : state F) :
  ∃ s1 s2,
    add_preset_voices self s = (Ok tt, s1)
    ∧ add_preset_voices self s1 = (Ok tt, s2)
    ∧ metadata s2 = metadata s1.
Proof.
  destruct (add_preset_voices_steps self s) as (s1 & _ & Hmd1 & _ & Hrun1).
  set (s1' := {| env := logged (env s1) INFO "Preset voices added" [];
                 metadata := metadata s1 |}) in *.
  destruct (add_preset_voices_steps self s1') as (s2 & _ & Hmd2 & _ & Hrun2).
  eexists _, _. split; [exact Hrun1|]. split; [exact Hrun2|].
  cbn [metadata]. rewrite Hmd2. subst s1'. cbn [metadata]. rewrite Hmd1.
  unfold with_presets at 1.
  rewrite (add_if_absent_present morgan_freeman); last first.
  { unfold with_presets.
    rewrite add_if_absent_lookup_ne by (vm_compute; discriminate).
    rewrite add_if_absent_lookup. eauto. }
  apply add_if_absent_present. unfold with_presets.
  rewrite add_if_absent_lookup. eauto.
Qed.

End presets.

(** ** [create_voice_model] *)

Section path_join_facts.

Lemma rfind_succ_last (c : N) (a b : list N) :
  c ∉ b → rfind_succ c (a ++ c :: b) = S (length a).
Proof.
  intros Hb. induction a as [|x a IH]; cbn.
  - by rewrite (rfind_succ_absent c b Hb), N.eqb_refl.
  - by rewrite IH.
Qed.

Lemma rstrip_snoc_other (c x : N) (a : list N) :
  x ≠ c → rstrip c (a ++ [x]) = a ++ [x].
Proof.
  intros Hx. induction a as [|y a IH]; cbn.
  - by destruct (N.eqb_spec x c).
  - rewrite IH. by destruct a.
Qed.

Lemma rstrip_snoc_same (c : N) (a : list N) :
  rstrip c (a ++ [c]) = rstrip c a.
Proof.
  induction a as [|y a IH]; cbn; [by rewrite N.eqb_refl|]. by rewrite IH.
Qed.

(** The directory part of [a/b], for a directory [a] that does not end in
    a slash and a component [b] without a slash. *)
Lemma dirname_path_join (a b : list N) (x : N) :
  x ≠ slash → slash ∉ b → dirname (path_join (a ++ [x]) b) = a ++ [x].
Proof.
  intros Hx Hb. unfold dirname, path_join. cbn [app].
  rewrite rfind_succ_last by done.
  replace (take (S (length (a ++ [x]))) ((a ++ [x]) ++ slash :: b))
    with ((a ++ [x]) ++ [slash]); last first.
  { replace (S (length (a ++ [x]))) with (length ((a ++ [x]) ++ [slash]))
      by (rewrite !length_app; cbn; lia).
    change ((a ++ [x]) ++ slash :: b) with ((a ++ [x]) ++ [slash] ++ b).
    rewrite (app_assoc (a ++ [x])). by rewrite take_app_length. }
  rewrite rstrip_snoc_same, rstrip_snoc_other by done.
  rewrite !forallb_app. cbn.
  destruct (N.eqb_spec x slash); [done|]. by rewrite andb_false_r.
Qed.

(** The extension of [a/b] is that of the component [b]. *)
Lemma extension_path_join (a b : list N) :
  slash ∉ b → extension (path_join a b) = extension b.
Proof.
  intros Hb. unfold extension, path_join. cbn [app].
  rewrite rfind_succ_last by done.
  rewrite (rfind_succ_absent slash b Hb). cbn [drop].
  replace (S (length a)) with (length (a ++ [slash]))
    by (rewrite length_app; cbn; lia).
  change (a ++ slash :: b) with (a ++ [slash] ++ b).
  by rewrite app_assoc, drop_app_length.
Qed.

Lemma digit_not_slash (n : N) : digit n ≠ slash.
Proof.
  unfold digit, slash. generalize (n mod 10)%N. intros r. lia.
Qed.

(** A model directory ends in the last digit of the timestamp. *)
Lemma model_dir_ends_in_digit (d name : list N) (t : datetime) :
  ∃ a, path_join d (name ++ [underscore] ++ strftime_compact t)
       = a ++ [digit (second t)].
Proof.
  unfold path_join, strftime_compact, pad2.
  eexists (d ++ [slash] ++ name ++ [underscore] ++ pad4 (year t)
             ++ [digit (month t / 10); digit (month t)]
             ++ [digit (day t / 10); digit (day t)] ++ [underscore]
             ++ [digit (hour t / 10); digit (hour t)]
             ++ [digit (minute t / 10); digit (minute t)]
             ++ [digit (second t / 10)]).
  by rewrite <- !app_assoc.
Qed.

End path_join_facts.

(** An exception reaches the handler of [create_voice_model]. *)
Ltac create_fails :=
  cbv beta iota;
  erewrite bind_ok by (rewrite in_env_run, logger_run; reflexivity);
  eexists _, _; split; [reflexivity|]; by cbn.

Section create_more.
Context {F : Type} `{Arith F, NumLib F, Dsp F, Env F, Unicode}.

Lemma save_audio_succeeds (self : AudioProcessor) (audio out : list F)
    (p : list N) (w : world F) :
  normalize_audio self audio default_target_level = Ok out →
  dirname p ≠ [] → p ≠ dirname p →
  ¬ is_file (fs w) (dirname p) →
  fs w !! p ≠ Some Dir →
  sf_format_error (drop 1 (extension p)) = None →
  save_audio self audio p None w
  = (Ok tt, set_fs w (<[p := File (Audio (sample_rate self) out)]>
                        (with_dir (dirname p) (fs w)))).
Proof.
  intros Hn Hd Hne Hnf Hp Hfmt. unfold save_audio.
  destruct (os_makedirs_run (dirname p) w) as [(_ & _ & Hmk)|[[?|?] _]];
    [|done|done].
  rewrite (bind_ok _ _ _ _ _ Hmk), Hn.
  erewrite bind_ok by reflexivity.
  unfold sf_write. rewrite Hfmt.
  rewrite write_file_ok; [done| |done|].
  - cbn [fs set_fs]. by rewrite with_dir_lookup_ne.
  - cbn [fs set_fs]. by apply with_dir_lookup_dir.
Qed.

Lemma with_dir_idemp (d : list N) (fs0 : filesystem F) :
  ¬ is_file fs0 d → with_dir d (with_dir d fs0) = with_dir d fs0.
Proof.
  intros Hnf. unfold with_dir at 1.
  by rewrite (with_dir_lookup_dir d fs0 Hnf).
Qed.

(** The run of [create_voice_model] on an accepted recording, up to the
    writing of the metadata file. *)
Lemma create_voice_model_steps (self : VoiceCloner) (audio_path model_name
    description : list N) (s : state F) (v : validation F) (out : list F) :
  let model_id := model_id_at model_name (clock (ticks (env s))) in
  let model_dir := model_dir_of self model_id in
  let reference_path := reference_path_of self model_id in
  let info := new_model_info model_id model_name description
                (isoformat (clock (S (ticks (env s))))) reference_path v in
  accepted_recording self (fs (env s)) audio_path v out →
  ¬ is_file (fs (env s)) model_dir →
  fs (env s) !! reference_path ≠ Some Dir →
  ∃ s1,
    _save_metadata self
      {| env :=
           {| fs := <[reference_path :=
                        File (Audio (sample_rate
                                       (VoiceClonerModule.audio_processor self))
                                    out)]>
                      (with_dir model_dir (fs (env s)));
              trace := trace (env s)
                       ++ [Log INFO (u "Creating voice model: {}")
                               [AStr model_name]];
              ticks := S (S (ticks (env s))) |};
         metadata := <[model_id := info]> (metadata s) |} = (Ok tt, s1)
    ∧ create_voice_model self audio_path model_name description s
      = (Ok (Created model_id info),
         {| env := logged (env s1) INFO
                          "Voice model created successfully: {}"
                          [AStr model_id];
            metadata := metadata s1 |}).
Proof.
  intros model_id model_dir reference_path info
    [(rate & samples & processed & Hfile & Hv & Hpre & Hnorm) Hvalid]
    Hslot Href.
  cbn zeta in *.
  set (ap := VoiceClonerModule.audio_processor self) in *.
  unfold create_voice_model, try_except. fold ap.
  erewrite bind_ok; last first.
  { rewrite in_env_run, logger_run. reflexivity. }
  cbn [fst snd].
  erewrite bind_ok; last first.
  { rewrite in_env_run. cbn [env metadata].
    pose proof (load_audio_run ap audio_path
                  (add_event (env s)
                     (Log INFO (u "Creating voice model: {}") [AStr model_name])))
      as Hload.
    cbn [fs add_event] in Hload. rewrite Hfile in Hload. rewrite Hload.
    reflexivity. }
  cbn [fst snd]. rewrite Hv.
  erewrite bind_ok by reflexivity. rewrite Hvalid. cbn [negb].
  rewrite Hpre. erewrite bind_ok by reflexivity.
  erewrite bind_ok; last first.
  { rewrite in_env_run, generate_model_id_run. reflexivity. }
  unfold after_now, add_event. cbn [fst snd env metadata fs trace ticks].
  fold (model_id_at model_name (clock (ticks (env s)))). fold model_id.
  fold (model_dir_of self model_id). fold model_dir.
  fold (reference_path_of self model_id). fold reference_path.
  destruct (model_dir_ends_in_digit (models_dir self)
              (sanitized_name model_name) (clock (ticks (env s))))
    as [a Ha].
  fold (model_id_at model_name (clock (ticks (env s)))) in Ha.
  fold model_id in Ha. fold (model_dir_of self model_id) in Ha.
  fold model_dir in Ha.
  assert (dirname reference_path = model_dir) as Hdn.
  { unfold reference_path, reference_path_of. fold model_dir. rewrite Ha.
    apply dirname_path_join; [apply digit_not_slash|not_in_literal]. }
  assert (model_dir ≠ []) as Hne by (rewrite Ha; by destruct a).
  assert (reference_path ≠ model_dir) as Hrd.
  { unfold reference_path, reference_path_of, path_join. fold model_dir.
    intros Heq. apply (f_equal length) in Heq.
    rewrite length_app in Heq. cbn in Heq. lia. }
  erewrite bind_ok; last first.
  { rewrite in_env_run. cbn [env].
    destruct (os_makedirs_run model_dir
                {| fs := fs (env s);
                   trace := trace (env s)
                            ++ [Log INFO (u "Creating voice model: {}")
                                    [AStr model_name]];
                   ticks := S (ticks (env s)) |})
      as [(_ & _ & Hmk)|[[?|?] _]]; [|done|done].
    rewrite Hmk. reflexivity. }
  cbn [fst snd env metadata set_fs fs trace ticks].
  erewrite bind_ok; last first.
  { rewrite in_env_run. cbn [env].
    rewrite (save_audio_succeeds ap processed out reference_path);
      [reflexivity|done|by rewrite Hdn|by rewrite Hdn| | |].
    - rewrite Hdn. unfold set_fs. cbn [fs]. intros [c Hc].
      apply with_dir_files in Hc. apply Hslot. by exists c.
    - unfold set_fs. cbn [fs]. by rewrite with_dir_lookup_ne.
    - unfold reference_path, reference_path_of.
      rewrite extension_path_join by not_in_literal.
      exact sf_format_wav. }
  cbn [fst snd env metadata set_fs fs trace ticks].
  rewrite Hdn, with_dir_idemp by done.
  erewrite bind_ok; last first.
  { rewrite in_env_run. unfold now. reflexivity. }
  cbn [fst snd env metadata set_fs fs trace ticks].
  fold info.
  erewrite bind_ok by reflexivity.
  erewrite bind_ok by reflexivity.
  cbn [env metadata].
  change (path_join model_dir (u "reference.wav")) with reference_path.
  fold info.
  match goal with
  | |- context [_save_metadata self ?st] =>
      destruct (save_metadata_run self st) as (w1 & Hsave & _)
  end.
  rewrite (bind_ok _ _ _ _ _ Hsave).
  erewrite bind_ok; last first.
  { rewrite in_env_run, logger_run. reflexivity. }
  eexists. split; [exact Hsave|]. reflexivity.
Qed.

Lemma bind_in_env {A B} (m : M (world F) A) (k : A → M (state F) B)
    (s : state F) :
  (in_env m ≫= k) s
  = match m (env s) with
    | (Ok a, w) => k a {| env := w; metadata := metadata s |}
    | (Raise e, w) => (Raise e, {| env := w; metadata := metadata s |})
    end.
Proof.
  unfold mbind, M_bind, bind. rewrite in_env_run.
  by destruct (m (env s)) as [[a|e] w].
Qed.

Lemma bind_lift {S A B} (o : outcome A) (k : A → M S B) (s : S) :
  (lift o ≫= k) s = match o with Ok a => k a s | Raise e => (Raise e, s) end.
Proof. unfold mbind, M_bind, bind, lift. by destruct o. Qed.

Lemma writable_slot (self : VoiceCloner) (fs0 : filesystem F)
    (model_id : list N) (c : content F) :
  slot_free self fs0 model_id →
  writable (<[reference_path_of self model_id := File c]>
              (with_dir (model_dir_of self model_id) fs0))
           (metadata_file self).
Proof.
  intros [_ Hdir Href [Hmf Hparent] Hmd Hmr Hmp]. split.
  - rewrite lookup_insert_ne by done. by rewrite with_dir_lookup_ne.
  - destruct Hparent as [?|Hparent]; [by left|right].
    rewrite lookup_insert_ne by done.
    destruct (decide (dirname (metadata_file self)
                      = model_dir_of self model_id)) as [->|Hne].
    + by apply with_dir_lookup_dir.
    + by rewrite with_dir_lookup_ne.
Qed.

(** X24: on an accepted recording, with the paths of the new model free,
    [create_voice_model] registers the model under the id made of the
    sanitized name and the first clock reading, replacing any record
    registered under that id.  The record is stamped with the second clock
    reading; the model directory exists afterwards, the reference
    recording in it holds the normalized preprocessed waveform, the
    metadata file holds the new mapping, and every other path, the upload
    included, is left as it was. *)
Theorem create_voice_model_registers (self : VoiceCloner)
    (audio_path model_name description : list N) (s : state F)
    (v : validation F) (out : list F) :
  let model_id := model_id_at model_name (clock (ticks (env s))) in
  let info := new_model_info model_id model_name description
                (isoformat (clock (S (ticks (env s)))))
                (reference_path_of self model_id) v in
  accepted_recording self (fs (env s)) audio_path v out →
  slot_free self (fs (env s)) model_id →
  ∃ s',
    create_voice_model self audio_path model_name description s
    = (Ok (Created model_id info), s')
    ∧ metadata s' = <[model_id := info]> (metadata s)
    ∧ fs (env s') !! model_dir_of self model_id = Some Dir
    ∧ fs (env s') !! reference_path_of self model_id
      = Some (File (Audio (sample_rate (VoiceClonerModule.audio_processor self))
                          out))
    ∧ fs (env s') !! metadata_file self = Some (File (Json (metadata s')))
    ∧ (∀ p, p ≠ model_dir_of self model_id →
            p ≠ reference_path_of self model_id →
            p ≠ metadata_file self →
            fs (env s') !! p = fs (env s) !! p)
    ∧ ticks (env s') = S (S (ticks (env s))).
Proof.
  intros model_id info Hacc Hslot.
  destruct (create_voice_model_steps self audio_path model_name description
              s v out Hacc (slot_dir _ _ _ Hslot) (slot_reference _ _ _ Hslot))
    as (s1 & Hsave & Hrun).
  fold model_id in Hsave, Hrun. fold info in Hsave, Hrun.
  match type of Hsave with
  | _save_metadata self ?st = _ =>
      destruct (save_metadata_cases self st) as [[_ Hs]|[Hnw _]]
  end; [|destruct Hnw; by apply writable_slot].
  rewrite Hs in Hsave. injection Hsave as <-.
  assert (reference_path_of self model_id ≠ model_dir_of self model_id)
    as Hrd.
  { unfold reference_path_of, path_join. intros Heq.
    apply (f_equal length) in Heq. rewrite length_app in Heq. cbn in Heq.
    lia. }
  eexists. split; [exact Hrun|].
  cbn [env metadata logged add_event set_fs fs ticks].
  split; [done|]. split; [|split; [|split; [|split; [|done]]]].
  - rewrite lookup_insert_ne by (apply (slot_metadata_dir _ _ _ Hslot)).
    rewrite lookup_insert_ne by done.
    apply with_dir_lookup_dir, (slot_dir _ _ _ Hslot).
  - rewrite lookup_insert_ne
      by (apply (slot_metadata_reference _ _ _ Hslot)).
    apply lookup_insert_eq.
  - apply lookup_insert_eq.
  - intros p Hpd Hpr Hpm. rewrite !lookup_insert_ne by done.
    by apply with_dir_lookup_ne.
Qed.

(** X25: when the upload path does not hold a recording,
    [create_voice_model] returns a failure dictionary with the message of
    the exception; no id is allocated and the registry, the file system
    and the clock are left as they were. *)
Theorem create_voice_model_unreadable_audio (self : VoiceCloner)
    (audio_path model_name description : list N) (s : state F) :
  (∀ rate samples,
     fs (env s) !! audio_path ≠ Some (File (Audio rate samples))) →
  ∃ e s',
    create_voice_model self audio_path model_name description s
    = (Ok (CreateFailed (str_of_exn e)), s')
    ∧ metadata s' = metadata s
    ∧ fs (env s') = fs (env s) ∧ ticks (env s') = ticks (env s)
    ∧ trace (env s')
      = trace (env s)
        ++ [Log INFO (u "Creating voice model: {}") [AStr model_name];
            Log ERROR (u "Error creating voice model: {}") [AExn e]].
Proof.
  intros Hnone. unfold create_voice_model, try_except.
  erewrite bind_ok by (rewrite in_env_run, logger_run; reflexivity).
  cbn [fst snd]. rewrite bind_in_env. cbn [env metadata].
  pose proof (load_audio_run (VoiceClonerModule.audio_processor self)
                audio_path
                (add_event (env s)
                   (Log INFO (u "Creating voice model: {}") [AStr model_name])))
    as Hload.
  cbn [fs add_event] in Hload.
  assert (∃ e, load_audio (VoiceClonerModule.audio_processor self) audio_path
                 None
                 (add_event (env s)
                    (Log INFO (u "Creating voice model: {}")
                         [AStr model_name]))
               = (Raise e, add_event (env s)
                             (Log INFO (u "Creating voice model: {}")
                                  [AStr model_name]))) as [e He].
  { destruct (fs (env s) !! audio_path) as [[[rate samples| | |]|]|] eqn:E;
      [by destruct (Hnone rate samples)|done..]. }
  rewrite He.
  erewrite bind_ok by (rewrite in_env_run, logger_run; reflexivity).
  exists e. eexists. split; [reflexivity|]. cbn.
  by rewrite <- app_assoc.
Qed.

(** X26: [create_voice_model] never raises, and it registers all or
    nothing: the mapping in memory is changed exactly when the call
    reports success, and then by the one record returned, stored under
    the id returned; a validation failure or an error leaves the mapping
    as it was (directories or files made before the error stay on
    disk). *)
Theorem create_voice_model_all_or_nothing (self : VoiceCloner)
    (audio_path model_name description : list N) (s : state F) :
  ∃ r s',
    create_voice_model self audio_path model_name description s = (Ok r, s')
    ∧ match r with
      | Created model_id info =>
          metadata s' = <[model_id := info]> (metadata s)
          ∧ model_id = model_id_at model_name (clock (ticks (env s)))
      | ValidationFailed _ _ =>
          metadata s' = metadata s ∧ fs (env s') = fs (env s)
      | CreateFailed _ => metadata s' = metadata s
      end.
Proof.
  unfold create_voice_model, try_except.
  erewrite bind_ok by (rewrite in_env_run, logger_run; reflexivity).
  cbn [fst snd]. rewrite bind_in_env. cbn [env metadata].
  pose proof (load_audio_run (VoiceClonerModule.audio_processor self)
                audio_path
                (add_event (env s)
                   (Log INFO (u "Creating voice model: {}") [AStr model_name])))
    as Hload.
  destruct (load_audio _ _ _ _) as [[loaded|e] w1]; [|create_fails].
  assert (w1 = add_event (env s)
                 (Log INFO (u "Creating voice model: {}") [AStr model_name]))
    as ->.
  { destruct (fs _ !! audio_path) as [[[rate samples| | |]|]|];
      first [by injection Hload | by destruct Hload]. }
  clear Hload.
  rewrite bind_lift.
  destruct (validate_audio_quality _ _ _) as [v|e]; [|create_fails].
  destruct (is_valid v); cbn [negb];
    [|eexists _, _; split; [reflexivity|]; by cbn].
  rewrite bind_lift.
  destruct (preprocess_for_tts _ _) as [processed|e]; [|create_fails].
  erewrite bind_ok by (rewrite in_env_run, generate_model_id_run; reflexivity).
  cbn [fst snd]. rewrite bind_in_env. cbn [env metadata].
  destruct (os_makedirs _ _) as [[[]|e] w2]; [|create_fails].
  rewrite bind_in_env. cbn [env metadata].
  destruct (save_audio _ _ _ _ _) as [[[]|e] w3]; [|create_fails].
  erewrite bind_ok by (rewrite in_env_run; unfold now; reflexivity).
  cbn [fst snd]. erewrite bind_ok by reflexivity.
  erewrite bind_ok by reflexivity. cbn [env metadata].
  match goal with
  | |- context [(_save_metadata self ≫= _) ?st] =>
      destruct (save_metadata_run self st) as (w4 & Hsave & _)
  end.
  rewrite (bind_ok _ _ _ _ _ Hsave).
  erewrite bind_ok by (rewrite in_env_run, logger_run; reflexivity).
  eexists _, _. split; [reflexivity|]. by cbn.
Qed.

End create_more.


Section normalize_nonempty.
Context {F : Type} `{Arith F, NumLib F}.

(** A non-empty waveform is always normalized, to a non-empty one. *)
Lemma normalize_audio_nonempty (self : AudioProcessor) (audio : list F)
    (target_level : F) :
  audio ≠ [] →
  ∃ out, normalize_audio self audio target_level = Ok out ∧ out ≠ [].
Proof.
  intros Hne.
  destruct (normalize_audio_cases self audio target_level)
    as [[_ ->]|[(_ & -> & _)|(_ & sp & _ & ->)]]; [eauto|done|].
  eexists. split; [reflexivity|]. unfold rms_scaled.
  destruct (flt _ sp); by destruct audio.
Qed.

End normalize_nonempty.

(** The ten-second upload becomes the model ["narrator_20240101_120000"];
    the upload stays where it was. *)
Lemma create_voice_model_registers_witness :
  ∃ info s',
    @create_voice_model float ieee_arith ieee_numlib passthrough_dsp
       (env_with silent_model) latin1 cloner (u "uploads/take.wav")
       (u "Narrator") (u "ten seconds") Intake.uploaded
    = (Ok (Created (u "narrator_20240101_120000") info), s')
    ∧ metadata s' !! u "narrator_20240101_120000" = Some info
    ∧ is_file (fs (env s'))
              (u "models/narrator_20240101_120000/reference.wav")
    ∧ fs (env s') !! u "uploads/take.wav"
      = Some (File (Audio 22050 Intake.take)).
Proof.
  assert (Intake.take ≠ []) as Hne.
  { intros Heq. apply (f_equal length) in Heq. unfold Intake.take in Heq.
    rewrite repeat_length in Heq. cbn [length] in Heq. lia. }
  destruct (@normalize_audio_nonempty float ieee_arith ieee_numlib
              default_processor Intake.take (-20)%float Hne)
    as (processed & Hpre & Hne').
  destruct (@normalize_audio_nonempty float ieee_arith ieee_numlib
              default_processor processed (-20)%float Hne')
    as (out & Hout & _).
  assert (∃ v, @validate_audio_quality float ieee_arith ieee_numlib
                 default_processor Intake.take 10%float = Ok v
               ∧ is_valid v = true) as (v & Hv & Hvalid).
  { eexists. split; [vm_compute; reflexivity|reflexivity]. }
  destruct (@create_voice_model_registers float ieee_arith ieee_numlib
              passthrough_dsp (env_with silent_model) latin1 cloner
              (u "uploads/take.wav") (u "Narrator") (u "ten seconds")
              Intake.uploaded v out)
    as (s' & Hrun & Hmd & _ & Href & _ & Hrest & _).
  - split; [|exact Hvalid].
    exists 22050%Z, Intake.take, processed. cbn zeta.
    split; [apply lookup_insert_eq|]. split; [exact Hv|].
    split; [|exact Hout].
    change (outcome_bind
              (@normalize_audio float ieee_arith ieee_numlib default_processor
                 Intake.take (-20)%float) (λ audio, Ok audio)
            = Ok processed).
    rewrite Hpre. reflexivity.
  - split.
    + vm_compute. reflexivity.
    + intros [c Hc]. vm_compute in Hc. discriminate.
    + vm_compute. discriminate.
    + split; [vm_compute; discriminate | right; vm_compute; reflexivity].
    + vm_compute. discriminate.
    + vm_compute. discriminate.
    + vm_compute. discriminate.
  - eexists _, s'. split; [exact Hrun|].
    split; [rewrite Hmd; apply lookup_insert_eq|].
    split; [eexists; exact Href|].
    rewrite Hrest; [apply lookup_insert_eq|vm_compute; discriminate..].
Defined.

(** Nothing has been uploaded under the name given. *)
Lemma create_voice_model_unreadable_audio_witness :
  ∃ e s',
    @create_voice_model float ieee_arith ieee_numlib passthrough_dsp
       (env_with silent_model) latin1 cloner (u "uploads/missing.wav")
       (u "Narrator") (u "") Registry.initial
    = (Ok (CreateFailed (str_of_exn e)), s')
    ∧ metadata s' = Registry.models
    ∧ fs (env s') = Registry.files.
Proof.
  destruct (@create_voice_model_unreadable_audio float ieee_arith ieee_numlib
              passthrough_dsp (env_with silent_model) latin1 cloner
              (u "uploads/missing.wav") (u "Narrator") (u "") Registry.initial)
    as (e & s' & Hrun & Hmd & Hfs & _).
  - intros rate samples. vm_compute. discriminate.
  - by exists e, s'.
Defined.

(** ** [get_all_models] and the model ids *)

Section listing.
Context {F : Type} `{Env F, Unicode}.

(** X27: [get_all_models] lists the records of the registry, one for
    each id: a record is listed exactly when [get_model] returns it for
    some id; registering a new id adds its record to the list and
    removing an id takes its record away (the order of the list apart). *)
Theorem get_all_models_lists_registry (md : models_metadata F) :
  length (get_all_models md) = size md
  ∧ (∀ info, info ∈ get_all_models md
             ↔ ∃ model_id, get_model md model_id = Some info)
  ∧ (∀ model_id info, get_model md model_id = None →
       get_all_models (<[model_id := info]> md) ≡ₚ info :: get_all_models md)
  ∧ (∀ model_id info, get_model md model_id = Some info →
       get_all_models md ≡ₚ info :: get_all_models (delete model_id md)).
Proof.
  unfold get_all_models, get_model. split; [|split; [|split]].
  - by rewrite length_fmap, length_map_to_list.
  - intros info. rewrite list_elem_of_fmap. split.
    + intros [[k x] [-> Hin]]. exists k. by apply elem_of_map_to_list in Hin.
    + intros [k Hk]. exists (k, info). split; [done|].
      by apply elem_of_map_to_list.
  - intros k info Hk. by rewrite map_to_list_insert.
  - intros k info Hk. by rewrite <- (map_to_list_delete md k info Hk).
Qed.

Lemma strftime_compact_second (t1 t2 : datetime) :
  to_second t1 = to_second t2 → strftime_compact t1 = strftime_compact t2.
Proof.
  unfold to_second, strftime_compact. by intros [= -> -> -> -> -> ->].
Qed.

(** X28: two generated ids coincide exactly when the names are equal
    after lowercasing and replacing what is not alphanumeric, and the two
    clock readings fall in the same second; names that differ in case or
    punctuation only, used within one second, get one id. *)
Theorem generate_model_id_collision (self : VoiceCloner)
    (name1 name2 : list N) (w1 w2 : world F) :
  wf_datetime (clock (ticks w1)) →
  wf_datetime (clock (ticks w2)) →
  (_generate_model_id self name1 w1).1 = (_generate_model_id self name2 w2).1
  ↔ sanitized_name name1 = sanitized_name name2
    ∧ to_second (clock (ticks w1)) = to_second (clock (ticks w2)).
Proof.
  intros Hwf1 Hwf2. rewrite !generate_model_id_run. cbn [fst]. split.
  - intros [= Heq]. apply app_inj_2 in Heq as [Hname Hstamp]; [|reflexivity].
    split; [done|]. apply strftime_compact_inj; [done..|].
    exact (f_equal (drop 1) Hstamp).
  - intros [-> Hsec]. by rewrite (strftime_compact_second _ _ Hsec).
Qed.

End listing.

(** ["My Voice"] and ["my-voice"], in the same second. *)
Lemma generate_model_id_collision_witness :
  (@_generate_model_id float (env_with silent_model) latin1 cloner
     (u "My Voice") Studio.initial).1
  = (@_generate_model_id float (env_with silent_model) latin1 cloner
       (u "my-voice") Studio.initial).1.
Proof.
  apply (@generate_model_id_collision float (env_with silent_model) latin1
           cloner (u "My Voice") (u "my-voice") Studio.initial Studio.initial).
  - unfold wf_datetime. vm_compute. repeat split; discriminate.
  - unfold wf_datetime. vm_compute. repeat split; discriminate.
  - split; [vm_compute; reflexivity|reflexivity].
Defined.

(** ** The model endpoints of [main.py] *)

Section endpoints.
Context {F : Type} `{Env F}.

(** X29: the three model endpoints on an id that is not registered:
    [GET] answers 404, whereas [PUT] and [DELETE] answer 400, all with
    the detail "Model not found"; none of them changes the registry, the
    file system or the log. *)
Theorem endpoints_unknown_model (voice_cloner : VoiceCloner)
    (model_id : list N) (request : ModelUpdateRequest) (s : state F) :
  get_model (metadata s) model_id = None →
  get_model_endpoint (metadata s) model_id
  = HTTPException 404 (u "Model not found")
  ∧ update_model_endpoint voice_cloner model_id request s
    = (Ok (HTTPException 400 (u "Model not found")), s)
  ∧ delete_model_endpoint voice_cloner model_id s
    = (Ok (HTTPException 400 (u "Model not found")), s).
Proof.
  intros Hid. split; [|split].
  - unfold get_model_endpoint. by rewrite Hid.
  - unfold update_model_endpoint, try_except.
    by rewrite (bind_ok _ _ _ _ _
                  (update_model_info_not_found voice_cloner model_id _ _ s Hid)).
  - unfold delete_model_endpoint, try_except.
    by rewrite (bind_ok _ _ _ _ _
                  (delete_model_not_found voice_cloner model_id s Hid)).
Qed.

End endpoints.

(** An id that is not in the registry. *)
Lemma endpoints_unknown_model_witness :
  @get_model_endpoint float Registry.models (u "nobody")
  = HTTPException 404 (u "Model not found")
  ∧ @update_model_endpoint float (env_with silent_model) cloner (u "nobody")
      {| request_name := Some (u "New name"); request_description := None |}
      Registry.initial
    = (Ok (HTTPException 400 (u "Model not found")), Registry.initial)
  ∧ @delete_model_endpoint float cloner (u "nobody") Registry.initial
    = (Ok (HTTPException 400 (u "Model not found")), Registry.initial).
Proof.
  apply (@endpoints_unknown_model float (env_with silent_model) cloner
           (u "nobody")
           {| request_name := Some (u "New name"); request_description := None |}
           Registry.initial).
  vm_compute. reflexivity.
Defined.
(* ================================================================= *)
(** * Part IV: binary64 arithmetic and the cloning path *)
(* ================================================================= *)

(** ** Rounding in binary64

    The operations of [PrimFloat] are specified by [SpecFloat]: a product
    or a quotient is computed exactly, truncated to the canonical exponent
    and rounded to nearest.  What [normalize_audio] needs of them is
    monotonicity against a representable bound. *)

Section rounding.
Local Open Scope Z_scope.

Lemma digits2_pos_bounds (m : positive) :
  2 ^ (Zpos (digits2_pos m) - 1) ≤ Zpos m < 2 ^ Zpos (digits2_pos m).
Proof.
  induction m as [m IH|m IH|]; cbn [digits2_pos]; [| |cbn; lia];
    rewrite Pos2Z.inj_succ;
    replace (Z.succ (Zpos (digits2_pos m)) - 1) with (Zpos (digits2_pos m)) by lia;
    rewrite Z.pow_succ_r by lia;
    replace (2 ^ Zpos (digits2_pos m))
      with (2 * 2 ^ (Zpos (digits2_pos m) - 1)) in *
      by (rewrite <- Z.pow_succ_r by lia; f_equal; lia);
    lia.
Qed.

(** A smaller number has no more digits. *)
Lemma digits2_pos_mono (a b : positive) :
  Zpos a ≤ Zpos b → Zpos (digits2_pos a) ≤ Zpos (digits2_pos b).
Proof.
  intros Hab.
  destruct (digits2_pos_bounds a) as [Ha _].
  destruct (digits2_pos_bounds b) as [_ Hb].
  assert (2 ^ (Zpos (digits2_pos a) - 1) < 2 ^ Zpos (digits2_pos b)) as Hlt by lia.
  apply Z.pow_lt_mono_r_iff in Hlt; lia.
Qed.

Lemma Zdigits2_mono (a b : Z) : 0 ≤ a ≤ b → Zdigits2 a ≤ Zdigits2 b.
Proof.
  intros [Ha Hab]. destruct a as [|a|a], b as [|b|b]; cbn [Zdigits2]; try lia.
  by apply digits2_pos_mono.
Qed.

Lemma Zdigits2_shift (m : positive) (k : Z) :
  0 ≤ k → Zdigits2 (Zpos m * 2 ^ k) = Zpos (digits2_pos m) + k.
Proof.
  intros Hk. revert k Hk. apply natlike_ind.
  - rewrite Z.pow_0_r, Z.mul_1_r, Z.add_0_r. reflexivity.
  - intros k Hk IH. rewrite Z.pow_succ_r by done.
    replace (Zpos m * (2 * 2 ^ k)) with (2 * (Zpos m * 2 ^ k)) by lia.
    destruct (Zpos m * 2 ^ k) as [|p|p] eqn:E.
    + assert (0 < 2 ^ k) by (apply Z.pow_pos_nonneg; lia). lia.
    + cbn [Zdigits2] in *. change (2 * Zpos p) with (Zpos p~0).
      cbn [Zdigits2 digits2_pos]. rewrite Pos2Z.inj_succ. lia.
    + assert (0 < 2 ^ k) by (apply Z.pow_pos_nonneg; lia). lia.
Qed.

Lemma shr_1_m (mrs : shr_record) :
  0 ≤ shr_m mrs → shr_m (shr_1 mrs) = shr_m mrs / 2.
Proof.
  destruct mrs as [m r s]. cbn [shr_m shr_1]. intros Hm.
  destruct m as [|[p|p|]|p]; cbn [shr_m]; try lia.
  - reflexivity.
  - rewrite Pos2Z.inj_xI. apply Z.div_unique with 1; lia.
  - rewrite Pos2Z.inj_xO. apply Z.div_unique with 0; lia.
  - reflexivity.
Qed.

Lemma pow2_xO (p : positive) : 2 ^ Zpos p~0 = 2 ^ Zpos p * 2 ^ Zpos p.
Proof. rewrite Pos2Z.inj_xO, <- Z.pow_add_r by lia. f_equal. lia. Qed.

Lemma pow2_xI (p : positive) : 2 ^ Zpos p~1 = 2 * (2 ^ Zpos p * 2 ^ Zpos p).
Proof.
  rewrite Pos2Z.inj_xI, <- Z.pow_add_r, <- Z.pow_succ_r by lia. f_equal. lia.
Qed.

Lemma iter_shr_1_m (p : positive) (mrs : shr_record) :
  0 ≤ shr_m mrs →
  shr_m (SpecFloat.iter_pos shr_1 p mrs) = shr_m mrs / 2 ^ Zpos p.
Proof.
  revert mrs. induction p as [p IH|p IH|]; intros mrs Hm;
    cbn [SpecFloat.iter_pos].
  - assert (0 ≤ shr_m (shr_1 mrs))
      by (rewrite shr_1_m by done; apply Z.div_pos; lia).
    assert (0 < 2 ^ Zpos p) by (apply Z.pow_pos_nonneg; lia).
    rewrite IH; rewrite IH; try done.
    + rewrite shr_1_m by done. rewrite !Z.div_div by lia.
      by rewrite pow2_xI.
    + apply Z.div_pos; lia.
  - assert (0 < 2 ^ Zpos p) by (apply Z.pow_pos_nonneg; lia).
    rewrite IH; rewrite IH; try done.
    + rewrite Z.div_div by lia. by rewrite pow2_xO.
    + apply Z.div_pos; lia.
  - rewrite shr_1_m by done. reflexivity.
Qed.

Lemma shr_record_of_loc_m (m : Z) (l : location) :
  shr_m (shr_record_of_loc m l) = m.
Proof. by destruct l as [|[]]. Qed.

(** [shr_fexp] truncates the mantissa to the exponent it returns, which
    is the larger of the given and of the canonical exponent. *)
Lemma shr_fexp_spec (m e : Z) (l : location) :
  0 ≤ m →
  let e1 := Z.max e (fexp prec emax (Zdigits2 m + e)) in
  ∃ mrs, shr_fexp prec emax m e l = (mrs, e1)
         ∧ shr_m mrs = m / 2 ^ (e1 - e).
Proof.
  intros Hm e1. unfold shr_fexp, shr.
  destruct (fexp prec emax (Zdigits2 m + e) - e) as [|p|p] eqn:E.
  - eexists. split; [f_equal; subst e1; lia|].
    rewrite shr_record_of_loc_m.
    replace (e1 - e) with 0 by (subst e1; lia). by rewrite Z.div_1_r.
  - eexists. split; [f_equal; subst e1; lia|].
    rewrite iter_shr_1_m by (by rewrite shr_record_of_loc_m).
    rewrite shr_record_of_loc_m. do 2 f_equal. subst e1. lia.
  - eexists. split; [f_equal; subst e1; lia|].
    rewrite shr_record_of_loc_m.
    replace (e1 - e) with 0 by (subst e1; lia). by rewrite Z.div_1_r.
Qed.

Lemma round_nearest_even_le (m : Z) (l : location) :
  m ≤ round_nearest_even m l ≤ m + 1.
Proof. destruct l as [|[]]; cbn; try destruct (Z.even m); lia. Qed.

Lemma fexp_mono (a b : Z) : a ≤ b → fexp prec emax a ≤ fexp prec emax b.
Proof. unfold fexp. lia. Qed.

End rounding.

Section rounding_bound.
Local Open Scope Z_scope.

Lemma pow2_split (a b c : Z) :
  c ≤ b → b ≤ a → 2 ^ (a - c) = 2 ^ (a - b) * 2 ^ (b - c).
Proof. intros Hcb Hba. rewrite <- Z.pow_add_r by lia. f_equal. lia. Qed.

Lemma pow2_pos (k : Z) : 0 ≤ k → 0 < 2 ^ k.
Proof. intros Hk. apply Z.pow_pos_nonneg; lia. Qed.

(** The canonical exponent of a mantissa below the bound [mb * 2^eb],
    a canonical number, is at most [eb]. *)
Lemma fexp_below (m e : Z) (mb : positive) (eb : Z) :
  0 ≤ m → e ≤ eb →
  fexp prec emax (Zpos (digits2_pos mb) + eb) = eb →
  m ≤ Zpos mb * 2 ^ (eb - e) →
  fexp prec emax (Zdigits2 m + e) ≤ eb.
Proof.
  intros Hm He Hcan Hle. rewrite <- Hcan. apply fexp_mono.
  pose proof (Zdigits2_mono m (Zpos mb * 2 ^ (eb - e)) (conj Hm Hle)) as Hd.
  rewrite Zdigits2_shift in Hd by lia. lia.
Qed.

(** Rounding a value that lies below a representable bound gives at most
    the bound: truncation does not increase the mantissa, and rounding up
    adds one unit, which the bound, a multiple of the unit, allows for. *)
Lemma binary_round_aux_le (sx : bool) (m e : Z) (l : location)
    (mb : positive) (eb : Z) :
  0 ≤ m → e ≤ eb →
  fexp prec emax (Zpos (digits2_pos mb) + eb) = eb →
  eb ≤ emax - prec →
  m < Zpos mb * 2 ^ (eb - e) →
  match binary_round_aux prec emax sx m e l with
  | S754_zero s => s = sx
  | S754_finite s mz ez =>
      s = sx ∧ ez ≤ eb ∧ Zpos mz ≤ Zpos mb * 2 ^ (eb - ez)
  | _ => False
  end.
Proof.
  intros Hm He Hcan Hbnd Hlt. unfold binary_round_aux.
  destruct (shr_fexp_spec m e l Hm) as (mrs1 & -> & Hm1).
  set (e1 := Z.max e (fexp prec emax (Zdigits2 m + e))) in *.
  assert (e1 ≤ eb) as He1.
  { subst e1. pose proof (fexp_below m e mb eb Hm He Hcan). lia. }
  assert (e ≤ e1) as Hee1 by (subst e1; lia).
  set (m1 := shr_m mrs1) in *.
  assert (0 ≤ m1) as Hm1pos.
  { rewrite Hm1. apply Z.div_pos; [done|]. apply pow2_pos. lia. }
  assert (m1 < Zpos mb * 2 ^ (eb - e1)) as Hm1lt.
  { rewrite Hm1. apply Z.div_lt_upper_bound; [apply pow2_pos; lia|].
    rewrite (pow2_split eb e1 e) in Hlt by done. lia. }
  pose proof (round_nearest_even_le m1 (loc_of_shr_record mrs1)) as Hr.
  set (r1 := round_nearest_even m1 (loc_of_shr_record mrs1)) in *.
  assert (0 ≤ r1) as Hr1pos by lia.
  assert (r1 ≤ Zpos mb * 2 ^ (eb - e1)) as Hr1le by lia.
  destruct (shr_fexp_spec r1 e1 loc_Exact Hr1pos) as (mrs2 & -> & Hm2).
  set (e2 := Z.max e1 (fexp prec emax (Zdigits2 r1 + e1))) in *.
  assert (e2 ≤ eb) as He2.
  { subst e2. pose proof (fexp_below r1 e1 mb eb Hr1pos He1 Hcan Hr1le). lia. }
  assert (e1 ≤ e2) as He12 by (subst e2; lia).
  assert (0 ≤ shr_m mrs2) as Hm2pos.
  { rewrite Hm2. apply Z.div_pos; [done|]. apply pow2_pos. lia. }
  assert (shr_m mrs2 ≤ Zpos mb * 2 ^ (eb - e2)) as Hm2le.
  { rewrite Hm2. apply Z.div_le_upper_bound; [apply pow2_pos; lia|].
    rewrite (pow2_split eb e2 e1) in Hr1le by done. lia. }
  destruct (shr_m mrs2) as [|p|p]; [done| |lia].
  assert (Z.leb e2 (emax - prec) = true) as -> by (apply Z.leb_le; lia).
  done.
Qed.

End rounding_bound.

Section magnitudes.
Local Open Scope Z_scope.

(** A valid finite number has at most 53 digits, an exponent between
    -1074 and 971, and 53 digits exactly above the least exponent. *)
Lemma valid_finite (s : bool) (m : positive) (e : Z) :
  valid_binary prec emax (S754_finite s m e) = true →
  -1074 ≤ e ≤ 971 ∧ Zpos m < 2 ^ 53 ∧ (-1074 < e → 2 ^ 52 ≤ Zpos m).
Proof.
  cbn [valid_binary]. unfold bounded, canonical_mantissa, fexp.
  change (emin prec emax) with (-1074). change prec with 53.
  change (emax - 53) with 971.
  intros [Hc He]%andb_true_iff. apply Z.eqb_eq in Hc. apply Z.leb_le in He.
  destruct (digits2_pos_bounds m) as [Hlo Hhi].
  split; [lia|]. split.
  - assert (Zpos (digits2_pos m) ≤ 53) as Hd by lia.
    eapply Z.lt_le_trans; [exact Hhi|]. apply Z.pow_le_mono_r; lia.
  - intros Hgt. assert (Zpos (digits2_pos m) = 53) as Hd by lia.
    rewrite Hd in Hlo. exact Hlo.
Qed.

Lemma magnitude_finite_bounds (s : bool) (m : positive) (e : Z) :
  valid_binary prec emax (S754_finite s m e) = true →
  0 < Zpos m * 2 ^ (e + 1074) < 2 ^ 2200.
Proof.
  intros (He & Hm & _)%valid_finite.
  assert (0 < 2 ^ (e + 1074)) by (apply pow2_pos; lia).
  split; [lia|].
  apply Z.lt_le_trans with (2 ^ 53 * 2 ^ (e + 1074)); [nia|].
  rewrite <- Z.pow_add_r by lia. apply Z.pow_le_mono_r; lia.
Qed.

(** On valid numbers the comparison of absolute values is the comparison
    of magnitudes. *)
Lemma SFcompare_abs (x y : spec_float) (a b : Z) :
  valid_binary prec emax x = true → valid_binary prec emax y = true →
  magnitude x = Some a → magnitude y = Some b →
  SFcompare (SFabs x) (SFabs y) = Some (a ?= b).
Proof.
  intros Hx Hy Ha Hb.
  destruct x as [sx|sx| |sx mx ex], y as [sy|sy| |sy my ey];
    cbn [magnitude] in Ha, Hb; try discriminate;
    injection Ha as <-; injection Hb as <-;
    cbn [SFabs SFcompare];
    try pose proof (magnitude_finite_bounds _ _ _ Hx) as Bx;
    try pose proof (magnitude_finite_bounds _ _ _ Hy) as By;
    f_equal; symmetry;
    try first [ reflexivity
              | apply Z.compare_lt_iff; lia
              | apply Z.compare_gt_iff; lia ].
  destruct (valid_finite _ _ _ Hx) as (Hex & Hmx & Hnx).
  destruct (valid_finite _ _ _ Hy) as (Hey & Hmy & Hny).
  destruct (Z.compare_spec ex ey) as [->|Hlt|Hgt].
  - rewrite Pos.compare_cont_spec.
    replace (Pos.switch_Eq Eq (mx ?= my)%positive) with (Zpos mx ?= Zpos my)
      by (cbn [Z.compare]; by destruct (mx ?= my)%positive).
    assert (0 < 2 ^ (ey + 1074)) by (apply pow2_pos; lia).
    destruct (Z.compare_spec (Zpos mx) (Zpos my)) as [Heq|Hlt|Hgt].
    + rewrite Heq. apply Z.compare_refl.
    + apply Z.compare_lt_iff. nia.
    + apply Z.compare_gt_iff. nia.
  - apply Z.compare_lt_iff. specialize (Hny ltac:(lia)).
      apply Z.lt_le_trans with (2 ^ 53 * 2 ^ (ex + 1074)).
      { assert (0 < 2 ^ (ex + 1074)) by (apply pow2_pos; lia). nia. }
      apply Z.le_trans with (2 ^ 52 * 2 ^ (ey + 1074)).
      { rewrite <- !Z.pow_add_r by lia. apply Z.pow_le_mono_r; lia. }
      assert (0 < 2 ^ (ey + 1074)) by (apply pow2_pos; lia). nia.
  - apply Z.compare_gt_iff. specialize (Hnx ltac:(lia)).
      apply Z.lt_le_trans with (2 ^ 53 * 2 ^ (ey + 1074)).
      { assert (0 < 2 ^ (ey + 1074)) by (apply pow2_pos; lia). nia. }
      apply Z.le_trans with (2 ^ 52 * 2 ^ (ex + 1074)).
      { rewrite <- !Z.pow_add_r by lia. apply Z.pow_le_mono_r; lia. }
      assert (0 < 2 ^ (ex + 1074)) by (apply pow2_pos; lia). nia.
Qed.

Lemma SFabs_eq_of_compare (x y : spec_float) :
  SFcompare (SFabs x) (SFabs y) = Some Eq → SFabs x = SFabs y.
Proof.
  destruct x as [sx|sx| |sx mx ex], y as [sy|sy| |sy my ey];
    cbn [SFabs SFcompare]; try done.
  destruct (Z.compare_spec ex ey) as [->|Hlt|Hgt]; try done.
  intros [= Hm]. apply Pcompare_Eq_eq in Hm. by subst.
Qed.

(** Valid numbers of equal magnitude have equal absolute values. *)
Lemma SFabs_eq_of_magnitude (x y : spec_float) (a : Z) :
  valid_binary prec emax x = true → valid_binary prec emax y = true →
  magnitude x = Some a → magnitude y = Some a →
  SFabs x = SFabs y.
Proof.
  intros Hx Hy Ha Hb. apply SFabs_eq_of_compare.
  rewrite (SFcompare_abs x y a a) by done. by rewrite Z.compare_refl.
Qed.

Lemma magnitude_abs (x : spec_float) : magnitude (SFabs x) = magnitude x.
Proof. by destruct x. Qed.

End magnitudes.

Section division.
Local Open Scope Z_scope.

Lemma magnitude_le_of_round (s : bool) (mz : positive) (ez : Z)
    (mb : positive) (eb : Z) :
  ez ≤ eb → -1074 ≤ eb →
  Zpos mz ≤ Zpos mb * 2 ^ (eb - ez) →
  Zpos mz * 2 ^ (ez + 1074) ≤ Zpos mb * 2 ^ (eb + 1074).
Proof.
  intros He Hb Hm. destruct (Z.le_gt_cases 0 (ez + 1074)) as [Hz|Hz].
  - replace (eb + 1074) with ((eb - ez) + (ez + 1074)) by lia.
    rewrite (Z.pow_add_r 2 (eb - ez) (ez + 1074)) by lia.
    assert (0 < 2 ^ (ez + 1074)) by (by apply pow2_pos). nia.
  - rewrite (Z.pow_neg_r 2 (ez + 1074)) by lia.
    assert (0 < 2 ^ (eb + 1074)) by (apply pow2_pos; lia). lia.
Qed.

Lemma div_eucl_div (a b : Z) : Z.div_eucl a b = (a / b, a mod b).
Proof. unfold Z.div, Z.modulo. by destruct (Z.div_eucl a b). Qed.

(** The quotient of two numbers of the same magnitude is one. *)
Lemma SFdiv_same (sx sy : bool) (m : positive) (e : Z) :
  SF64div (S754_finite sx m e) (S754_finite sy m e)
  = S754_finite (xorb sx sy) 4503599627370496 (-52).
Proof.
  unfold SF64div, SFdiv, SFdiv_core_binary. cbn [Zdigits2].
  rewrite !Z.sub_diag.
  change (Z.min (fexp prec emax 0) 0) with (-53).
  change (0 - -53) with 53. cbv iota.
  rewrite div_eucl_div, Z.shiftl_mul_pow2 by lia.
  rewrite (Z.mul_comm (Zpos m)), Z.div_mul, Z.mod_mul by lia.
  replace (new_location (Zpos m) 0) with loc_Exact
    by (unfold new_location, new_location_even, new_location_odd;
        by destruct (Z.even (Zpos m))).
  by destruct (xorb sx sy).
Qed.

(** The truncated quotient of a number by a larger one. *)
Lemma SFdiv_core_lt (mx my : positive) (ex ey : Z) :
  -1074 ≤ ex → -1074 ≤ ey →
  Zpos mx * 2 ^ (ex + 1074) < Zpos my * 2 ^ (ey + 1074) →
  ∃ q e' l,
    SFdiv_core_binary prec emax (Zpos mx) ex (Zpos my) ey = (q, e', l)
    ∧ 0 ≤ q ∧ e' ≤ -53 ∧ q < 2 ^ (- e').
Proof.
  intros Hex Hey Hlt. unfold SFdiv_core_binary. cbn [Zdigits2].
  set (d1 := Zpos (digits2_pos mx)). set (d2 := Zpos (digits2_pos my)).
  assert (d1 + ex ≤ d2 + ey) as Hd.
  { destruct (digits2_pos_bounds mx) as [Hlo _].
    destruct (digits2_pos_bounds my) as [_ Hhi]. fold d1 in Hlo. fold d2 in Hhi.
    assert (0 < 2 ^ (ex + 1074)) by (apply pow2_pos; lia).
    assert (0 < 2 ^ (ey + 1074)) by (apply pow2_pos; lia).
    assert (2 ^ (d1 - 1) * 2 ^ (ex + 1074) < 2 ^ d2 * 2 ^ (ey + 1074)) as Hp
      by nia.
    rewrite <- !Z.pow_add_r in Hp by lia.
    apply Z.pow_lt_mono_r_iff in Hp; lia. }
  set (e' := Z.min (fexp prec emax (d1 + ex - (d2 + ey))) (ex - ey)).
  assert (e' ≤ -53) as He'.
  { subst e'. pose proof (fexp_mono (d1 + ex - (d2 + ey)) 0 ltac:(lia)) as Hf.
    change (fexp prec emax 0) with (-53) in Hf. lia. }
  assert (0 ≤ ex - ey - e') as Hs by (subst e'; lia).
  set (s := ex - ey - e') in *.
  assert (match s with
          | 0 => Zpos mx
          | Zpos _ => Z.shiftl (Zpos mx) s
          | Zneg _ => 0
          end = Zpos mx * 2 ^ s) as ->.
  { destruct s as [|p|p] eqn:Es; [lia| |lia].
    by rewrite Z.shiftl_mul_pow2. }
  rewrite div_eucl_div. eexists _, _, _. split; [reflexivity|].
  assert (0 < 2 ^ s) by (by apply pow2_pos).
  split; [apply Z.div_pos; lia|]. split; [done|].
  apply Z.div_lt_upper_bound; [lia|].
  assert (0 < 2 ^ (ey + 1074)) by (apply pow2_pos; lia).
  assert (2 ^ s * 2 ^ (ey + 1074) = 2 ^ (ex + 1074) * 2 ^ (- e')) as Hpow.
  { rewrite <- !Z.pow_add_r by lia. f_equal. subst s. lia. }
  assert (0 < 2 ^ (- e')) by (apply pow2_pos; lia).
  nia.
Qed.

(** The quotient of a number by one that is not smaller in magnitude has
    magnitude at most one, and exactly one when the magnitudes agree. *)
Lemma SFdiv_magnitude (x y : spec_float) (a b : Z) :
  valid_binary prec emax x = true → valid_binary prec emax y = true →
  magnitude x = Some a → magnitude y = Some b →
  0 < b < 2 ^ 2200 → a ≤ b →
  ∃ c, magnitude (SF64div x y) = Some c
       ∧ c ≤ 2 ^ 1074 ∧ (a = b → c = 2 ^ 1074).
Proof.
  intros Hx Hy Ha Hb Hfin Hab.
  destruct y as [sy|sy| |sy my ey]; cbn [magnitude] in Hb;
    try discriminate; injection Hb as <-; [lia|lia|].
  destruct x as [sx|sx| |sx mx ex]; cbn [magnitude] in Ha;
    try discriminate; injection Ha as <-.
  - exists 0. cbn. split; [done|]. split; lia.
  - lia.
  - destruct (Z.eq_dec (Zpos mx * 2 ^ (ex + 1074))
                       (Zpos my * 2 ^ (ey + 1074))) as [Heq|Hne].
    + pose proof (SFabs_eq_of_magnitude (S754_finite sx mx ex)
                    (S754_finite sy my ey) _ Hx Hy eq_refl
                    (f_equal Some (eq_sym Heq))) as Habs.
      cbn [SFabs] in Habs. injection Habs as -> ->.
      rewrite SFdiv_same. exists (2 ^ 1074). by repeat split.
    + destruct (valid_finite _ _ _ Hx) as (Hex & _).
      destruct (valid_finite _ _ _ Hy) as (Hey & _).
      destruct (SFdiv_core_lt mx my ex ey) as (q & e' & l & Hcore & Hq & He' & Hlt);
        [lia..|].
      unfold SF64div, SFdiv. rewrite Hcore.
      assert (q < Zpos 4503599627370496 * 2 ^ (-52 - e')) as Hq2.
      { change (Zpos 4503599627370496) with (2 ^ 52).
        rewrite <- Z.pow_add_r by lia.
        by replace (52 + (-52 - e')) with (- e') by lia. }
      pose proof (binary_round_aux_le (xorb sx sy) q e' l
                    4503599627370496 (-52) Hq ltac:(lia) eq_refl
                    ltac:(change (emax - prec) with 971; lia) Hq2) as Hround.
      destruct (binary_round_aux prec emax (xorb sx sy) q e' l)
        as [s|s| |s mz ez]; [|done|done|].
      * exists 0. cbn. split; [done|]. split; [lia|done].
      * destruct Hround as (_ & Hez & Hmz). eexists. split; [reflexivity|].
        split; [|done].
        pose proof (magnitude_le_of_round s mz ez 4503599627370496 (-52)
                      Hez ltac:(lia) Hmz) as Hle.
        change (Zpos 4503599627370496) with (2 ^ 52) in Hle.
        rewrite <- Z.pow_add_r in Hle by lia. exact Hle.
Qed.

(** The product by [0.99] of a number of magnitude at most one has
    magnitude at most [0.99], and exactly [0.99] when the number has
    magnitude one. *)
Lemma SFmul_magnitude (z : spec_float) (c : Z) :
  valid_binary prec emax z = true →
  magnitude z = Some c → c ≤ 2 ^ 1074 →
  ∃ d, magnitude (SF64mul z C99) = Some d
       ∧ d ≤ 8917127262193582 * 2 ^ 1021
       ∧ (c = 2 ^ 1074 → SFabs (SF64mul z C99) = C99).
Proof.
  intros Hz Hc Hle.
  destruct z as [s|s| |s mz ez]; cbn [magnitude] in Hc;
    try discriminate; injection Hc as <-.
  - exists 0. cbn. split; [done|]. split; [lia|]. intros Heq.
    assert (0 < 2 ^ 1074) by (by apply pow2_pos). lia.
  - assert (2 ^ 1074 < 2 ^ 2200) by (apply Z.pow_lt_mono_r; lia). lia.
  - destruct (valid_finite _ _ _ Hz) as (Hez & _).
    destruct (Z.eq_dec (Zpos mz * 2 ^ (ez + 1074)) (2 ^ 1074)) as [Heq|Hne].
    + pose proof (SFabs_eq_of_magnitude (S754_finite s mz ez)
                    (S754_finite false 4503599627370496 (-52)) (2 ^ 1074)
                    Hz eq_refl (f_equal Some Heq)) as Habs.
      specialize (Habs ltac:(cbn [magnitude]; f_equal;
                             change (Zpos 4503599627370496) with (2 ^ 52);
                             rewrite <- Z.pow_add_r by lia; f_equal)).
      cbn [SFabs] in Habs. injection Habs as -> ->.
      destruct s; (eexists; split; [vm_compute; reflexivity|]);
        (split; [apply Z.leb_le; vm_compute; reflexivity|]);
        intros _; reflexivity.
    + assert (0 < 2 ^ (ez + 1074)) by (apply pow2_pos; lia).
      assert (ez < 0) as Hneg.
      { assert (2 ^ (ez + 1074) < 2 ^ 1074) as Hp by nia.
        apply Z.pow_lt_mono_r_iff in Hp; lia. }
      assert (Zpos mz < 2 ^ (- ez)) as Hmz.
      { assert (2 ^ 1074 = 2 ^ (- ez) * 2 ^ (ez + 1074)) as Hp
          by (rewrite <- Z.pow_add_r by lia; f_equal; lia).
        nia. }
      unfold SF64mul, C99. cbn [SFmul].
      assert (Zpos (mz * 8917127262193582)
              < Zpos 8917127262193582 * 2 ^ (-53 - (ez + -53))) as Hm.
      { replace (-53 - (ez + -53)) with (- ez) by lia.
        rewrite Pos2Z.inj_mul. nia. }
      pose proof (binary_round_aux_le (xorb s false)
                    (Zpos (mz * 8917127262193582)) (ez + -53) loc_Exact
                    8917127262193582 (-53) ltac:(lia) ltac:(lia) eq_refl
                    ltac:(change (emax - prec) with 971; lia) Hm) as Hround.
      destruct (binary_round_aux prec emax (xorb s false)
                  (Zpos (mz * 8917127262193582)) (ez + -53) loc_Exact)
        as [s'|s'| |s' m' e']; [|done|done|].
      * exists 0. cbn. split; [done|]. split; [|done].
        assert (0 < 2 ^ 1021) by (by apply pow2_pos). lia.
      * destruct Hround as (_ & He' & Hm'). eexists. split; [reflexivity|].
        split; [|done].
        exact (magnitude_le_of_round s' m' e' 8917127262193582 (-53)
                 He' ltac:(lia) Hm').
Qed.

End division.

Section binary64_order.
Local Open Scope Z_scope.

Lemma magnitude_None (x : spec_float) : magnitude x = None → x = S754_nan.
Proof. by destruct x. Qed.

Lemma mag_abs (x : float) : mag (abs x) = mag x.
Proof. unfold mag. by rewrite abs_spec, magnitude_abs. Qed.

Lemma SFcompare_nan_r (x : spec_float) : SFcompare x S754_nan = None.
Proof. by destruct x. Qed.

(** The comparisons of absolute values, read on magnitudes. *)
Lemma SFcompare_mag (x y : float) :
  SFcompare (SFabs (Prim2SF x)) (SFabs (Prim2SF y))
  = match mag x, mag y with
    | Some a, Some b => Some (a ?= b)
    | _, _ => None
    end.
Proof.
  unfold mag.
  destruct (magnitude (Prim2SF x)) as [a|] eqn:Ea.
  - destruct (magnitude (Prim2SF y)) as [b|] eqn:Eb.
    + apply SFcompare_abs; auto using Prim2SF_valid.
    + apply magnitude_None in Eb as ->. apply SFcompare_nan_r.
  - by apply magnitude_None in Ea as ->.
Qed.

Lemma leb_abs (x y : float) :
  PrimFloat.leb (abs x) (abs y)
  = match mag x, mag y with
    | Some a, Some b => a <=? b
    | _, _ => false
    end.
Proof.
  rewrite FloatAxioms.leb_spec, !abs_spec. unfold SFleb. rewrite SFcompare_mag.
  by destruct (mag x) as [a|], (mag y) as [b|].
Qed.

Lemma ltb_abs (x y : float) :
  PrimFloat.ltb (abs x) (abs y)
  = match mag x, mag y with
    | Some a, Some b => a <? b
    | _, _ => false
    end.
Proof.
  rewrite FloatAxioms.ltb_spec, !abs_spec. unfold SFltb. rewrite SFcompare_mag.
  by destruct (mag x) as [a|], (mag y) as [b|].
Qed.

Lemma is_nan_abs (x : float) :
  is_nan (abs x) = match mag x with Some _ => false | None => true end.
Proof.
  unfold is_nan. rewrite FloatAxioms.eqb_spec, !abs_spec. unfold SFeqb.
  rewrite SFcompare_mag. destruct (mag x) as [a|]; [|done].
  by rewrite Z.compare_refl.
Qed.

Lemma abs_eq_of_mag (x y : float) (a : Z) :
  mag x = Some a → mag y = Some a → abs x = abs y.
Proof.
  intros Hx Hy. apply Prim2SF_inj. rewrite !abs_spec.
  apply (SFabs_eq_of_magnitude _ _ a); auto using Prim2SF_valid.
Qed.

Lemma abs_abs (x : float) : abs (abs x) = abs x.
Proof. apply Prim2SF_inj. rewrite !abs_spec. by destruct (Prim2SF x). Qed.

(** A finite number has a magnitude below that of the infinities. *)
Lemma is_finite_mag (x : float) :
  is_finite x = true → ∃ a, mag x = Some a ∧ 0 ≤ a < 2 ^ 2200.
Proof.
  unfold is_finite, is_nan, is_infinity, mag.
  rewrite !FloatAxioms.eqb_spec, abs_spec.
  change (Prim2SF infinity) with (S754_infinity false).
  pose proof (Prim2SF_valid x) as Hv.
  destruct (Prim2SF x) as [s|s| |s m e]; cbn; try done.
  - intros _. exists 0. split; [done|]. split; [lia|by apply pow2_pos].
  - rewrite orb_true_r. done.
  - intros _. eexists. split; [done|].
    pose proof (magnitude_finite_bounds _ _ _ Hv). lia.
Qed.

(** The step [x / max_val * 0.99] of [normalize_audio] on a sample that
    does not exceed the peak: the result does not exceed [0.99], and it is
    [0.99] exactly for a sample that attains the peak. *)
Lemma rescaled_sample (x sp : float) (b : Z) :
  mag sp = Some b → 0 < b < 2 ^ 2200 →
  PrimFloat.leb (abs x) (abs sp) = true →
  PrimFloat.leb (abs (x / sp * 0.99)) 0.99 = true
  ∧ (abs x = abs sp → abs (x / sp * 0.99) = 0.99%float).
Proof.
  intros Hb Hfin Hle. rewrite leb_abs, Hb in Hle.
  destruct (mag x) as [a|] eqn:Ha; [|done]. apply Z.leb_le in Hle.
  destruct (SFdiv_magnitude (Prim2SF x) (Prim2SF sp) a b)
    as (c & Hc & Hc1 & Hceq); auto using Prim2SF_valid.
  rewrite <- FloatAxioms.div_spec in Hc.
  destruct (SFmul_magnitude (Prim2SF (x / sp)) c)
    as (d & Hd & Hd1 & Hdeq); auto using Prim2SF_valid.
  change C99 with (Prim2SF 0.99) in Hd, Hdeq.
  rewrite <- FloatAxioms.mul_spec in Hd, Hdeq. split.
  - change 0.99%float with (abs 0.99) at 2. rewrite leb_abs.
    unfold mag at 1. rewrite Hd.
    change (mag 0.99) with (Some (8917127262193582 * 2 ^ 1021)).
    by apply Z.leb_le.
  - intros Habs. apply Prim2SF_inj. rewrite abs_spec. apply Hdeq, Hceq.
    apply (f_equal mag) in Habs. rewrite !mag_abs, Ha, Hb in Habs.
    by injection Habs.
Qed.

End binary64_order.

Section binary64_peak.
Local Open Scope Z_scope.

(** [float_maximum] on absolute values that are not NaN. *)
Lemma float_maximum_abs (x y : float) (a b : Z) :
  mag x = Some a → mag y = Some b →
  float_maximum (abs x) (abs y) = if a <? b then abs y else abs x.
Proof.
  intros Ha Hb. unfold float_maximum.
  by rewrite !is_nan_abs, ltb_abs, Ha, Hb.
Qed.

Lemma float_maximum_nan_l (x y : float) :
  mag x = None → float_maximum (abs x) (abs y) = abs x.
Proof. intros Ha. unfold float_maximum. by rewrite is_nan_abs, Ha. Qed.

Lemma float_maximum_nan_r (x y : float) (a : Z) :
  mag x = Some a → mag y = None → float_maximum (abs x) (abs y) = abs y.
Proof.
  intros Ha Hb. unfold float_maximum. by rewrite !is_nan_abs, Ha, Hb.
Qed.

Lemma elem_of_skip_second {A} (w x y : A) (l : list A) :
  w ∈ x :: l → w ∈ x :: y :: l.
Proof. intros [->|Hw]%elem_of_cons; [by left|]. right. by right. Qed.

(** The peak of a signal, when it is not NaN, is the absolute value of
    one of the samples and no sample exceeds it. *)
Lemma peak_fold_attained (l : list float) (x0 sp : float) :
  fold_left float_maximum (map abs l) (abs x0) = sp →
  is_nan sp = false →
  ∃ y, y ∈ x0 :: l ∧ abs y = sp
       ∧ ∀ z, z ∈ x0 :: l → PrimFloat.leb (abs z) (abs y) = true.
Proof.
  revert x0. induction l as [|y l IH]; intros x0 Hfold Hnan.
  - cbn in Hfold. subst sp. exists x0. split; [by left|]. split; [done|].
    intros z ->%list_elem_of_singleton. rewrite leb_abs.
    rewrite is_nan_abs in Hnan.
    destruct (mag x0) as [a|]; [apply Z.leb_refl|done].
  - cbn [map fold_left] in Hfold.
    destruct (mag x0) as [a0|] eqn:E0.
    + destruct (mag y) as [ay|] eqn:Ey.
      * rewrite (float_maximum_abs x0 y a0 ay E0 Ey) in Hfold.
        destruct (a0 <? ay) eqn:Hlt.
        -- apply Z.ltb_lt in Hlt.
           destruct (IH y Hfold Hnan) as (w & Hw & Hsp & Hall).
           exists w. split; [by right|]. split; [done|].
           intros z [->|Hz]%elem_of_cons; [|by apply Hall].
           specialize (Hall y ltac:(by left)).
           rewrite leb_abs, Ey in Hall. rewrite leb_abs, E0.
           destruct (mag w) as [aw|]; [|done].
           apply Z.leb_le in Hall. apply Z.leb_le. lia.
        -- apply Z.ltb_ge in Hlt.
           destruct (IH x0 Hfold Hnan) as (w & Hw & Hsp & Hall).
           exists w. split; [by apply elem_of_skip_second|]. split; [done|].
           intros z [->|[->|Hz]%elem_of_cons]%elem_of_cons.
           ++ apply Hall. by left.
           ++ specialize (Hall x0 ltac:(by left)).
              rewrite leb_abs, E0 in Hall. rewrite leb_abs, Ey.
              destruct (mag w) as [aw|]; [|done].
              apply Z.leb_le in Hall. apply Z.leb_le. lia.
           ++ apply Hall. by right.
      * rewrite (float_maximum_nan_r x0 y a0 E0 Ey) in Hfold.
        destruct (IH y Hfold Hnan) as (w & Hw & Hsp & Hall).
        specialize (Hall y ltac:(by left)).
        by rewrite leb_abs, Ey in Hall.
    + rewrite (float_maximum_nan_l x0 y E0) in Hfold.
      destruct (IH x0 Hfold Hnan) as (w & Hw & Hsp & Hall).
      specialize (Hall x0 ltac:(by left)).
      by rewrite leb_abs, E0 in Hall.
Qed.

(** A signal whose samples do not exceed [c], one of them attaining it,
    has peak [c]. *)
Lemma peak_fold_const (l : list float) (x0 c : float) :
  abs c = c →
  (∀ z, z ∈ x0 :: l → PrimFloat.leb (abs z) c = true) →
  (∃ y, y ∈ x0 :: l ∧ abs y = c) →
  fold_left float_maximum (map abs l) (abs x0) = c.
Proof.
  intros Hc. revert x0. induction l as [|y l IH]; intros x0 Hall Hex.
  - destruct Hex as (w & ->%list_elem_of_singleton & Hw). done.
  - cbn [map fold_left].
    pose proof (Hall x0 ltac:(by left)) as H0.
    pose proof (Hall y ltac:(right; by left)) as Hy.
    rewrite <- Hc, leb_abs in H0, Hy.
    destruct (mag x0) as [a0|] eqn:E0; [|done].
    destruct (mag y) as [ay|] eqn:Ey; [|done].
    destruct (mag c) as [D|] eqn:Ec; [|done].
    apply Z.leb_le in H0, Hy.
    rewrite (float_maximum_abs x0 y a0 ay E0 Ey).
    destruct Hex as (w & Hw & Hwc).
    destruct (a0 <? ay) eqn:Hlt.
    + apply Z.ltb_lt in Hlt. apply IH; [intros z Hz; apply Hall; by right|].
      apply elem_of_cons in Hw as [->|Hw]; [|by exists w].
      apply (f_equal mag) in Hwc. rewrite mag_abs, E0, Ec in Hwc.
      injection Hwc as ->. lia.
    + apply Z.ltb_ge in Hlt.
      apply IH; [intros z Hz; by apply Hall, elem_of_skip_second|].
      apply elem_of_cons in Hw as [->|[->|Hw]%elem_of_cons].
      * exists x0. split; [by left|done].
      * exists x0. split; [by left|].
        apply (f_equal mag) in Hwc. rewrite mag_abs, Ey, Ec in Hwc.
        injection Hwc as ->. rewrite <- Hc.
        apply (abs_eq_of_mag _ _ a0); [done|]. rewrite Ec. f_equal. lia.
      * exists w. split; [by right|done].
Qed.

End binary64_peak.

(** ** [normalize_audio] in binary64 *)

(** C6 (as stated, refuted): a waveform may have an RMS that is not zero
    for the test [rms == 0] and yet no output of peak at most 1.0.  The RMS
    numpy computes for the empty waveform is NaN; the scaled signal is
    empty, its peak cannot be taken and [normalize_audio] raises.  A
    waveform with an infinite sample has an infinite RMS; the scaling
    factor is zero, the scaled sample is NaN, and so is the peak of the
    waveform returned. *)
Lemma normalize_audio_unbounded_peak :
  (@feq float ieee_arith (@rms_of float ieee_arith ieee_numlib [])
        (@of_int float ieee_arith 0) = false
   ∧ ∀ out, @normalize_audio float ieee_arith ieee_numlib default_processor []
              (-20)%float ≠ Ok out)
  ∧ (@feq float ieee_arith (@rms_of float ieee_arith ieee_numlib [infinity])
          (@of_int float ieee_arith 0) = false
     ∧ ∃ out p,
         @normalize_audio float ieee_arith ieee_numlib default_processor
            [infinity] (-20)%float = Ok out
         ∧ @peak_of float ieee_arith out = Ok p
         ∧ PrimFloat.leb p 1 = false).
Proof.
  split; [split; [vm_compute; reflexivity|]|].
  - intros out. vm_compute. discriminate.
  - split; [vm_compute; reflexivity|].
    eexists _, _. split; [vm_compute; reflexivity|].
    split; vm_compute; reflexivity.
Qed.

Section binary64_normalize.
Context (L : NumLib float).
Local Existing Instance ieee_arith.

(** C6 (amended): in binary64 arithmetic, whatever values the library
    computes for the RMS and for the target level: for every non-empty
    waveform whose RMS is not zero and whose RMS-scaled signal has a
    finite peak (no sample of it is NaN or infinite), [normalize_audio]
    returns a waveform whose peak is at most 1.0; when the peak of the
    RMS-scaled signal exceeds 1.0 the peak of the result is exactly the
    number 0.99, and otherwise the result is the RMS-scaled signal
    itself. *)
Theorem normalize_audio_peak_bounded (self : AudioProcessor)
    (audio : list float) (target_level : float) :
  audio ≠ [] →
  feq (rms_of audio) (of_int 0) = false →
  let scaled := rms_scaled audio target_level in
  (∀ sp, peak_of scaled = Ok sp → is_finite sp = true) →
  ∃ out p sp,
    normalize_audio self audio target_level = Ok out
    ∧ peak_of scaled = Ok sp
    ∧ peak_of out = Ok p ∧ PrimFloat.leb p 1 = true
    ∧ (PrimFloat.ltb 1 sp = true → p = 0.99%float)
    ∧ (PrimFloat.ltb 1 sp = false → out = scaled).
Proof.
  intros Hne Hnz scaled Hfin.
  assert (∃ n0 ns, scaled = n0 :: ns) as (n0 & ns & Hsc).
  { subst scaled. unfold rms_scaled. destruct audio; [done|]. by eexists _, _. }
  set (sp := fold_left float_maximum (map abs ns) (abs n0)).
  assert (peak_of scaled = Ok sp) as Hsp by (by rewrite Hsc).
  specialize (Hfin sp Hsp).
  destruct (is_finite_mag sp Hfin) as (b & Hb & Hb0 & Hb1).
  assert (is_nan sp = false) as Hnan.
  { revert Hfin. unfold is_finite. by destruct (is_nan sp). }
  destruct (peak_fold_attained ns n0 sp eq_refl Hnan)
    as (w & Hw & Hwsp & Hall).
  pose proof (normalize_audio_scaled self audio target_level sp Hnz Hsp)
    as Hrun.
  cbn zeta in Hrun. fold scaled in Hrun.
  change (flt (lit (1 # 1)) sp) with (PrimFloat.ltb 1 sp) in Hrun.
  assert (mag w = Some b) as Hwb by (by rewrite <- mag_abs, Hwsp).
  assert (PrimFloat.ltb 1 sp = (2 ^ 1074 <? b)%Z) as Hcmp.
  { rewrite <- Hwsp. change 1%float with (abs 1). rewrite ltb_abs, Hwb.
    by change (mag 1) with (Some (4503599627370496 * 2 ^ 1022)%Z). }
  rewrite Hcmp in Hrun.
  destruct (2 ^ 1074 <? b)%Z eqn:Hlt.
  - apply Z.ltb_lt in Hlt.
    set (g := λ x : float, fmul (fdiv x sp) (lit (99 # 100))) in Hrun.
    assert (peak_of (map g scaled) = Ok 0.99%float) as Hp.
    { rewrite Hsc. cbn [map]. unfold peak_of. cbn [map ndarray_max].
      f_equal. rewrite <- list_fmap_compose.
      change (fmaximum) with float_maximum.
      change (fabs (g n0)) with (abs (g n0)).
      rewrite (list_fmap_compose g abs).
      assert (0 < 2 ^ 1074)%Z by (by apply pow2_pos).
      apply peak_fold_const; [reflexivity| |].
      - intros z Hz.
        assert (∃ x, z = g x ∧ x ∈ n0 :: ns) as (x & -> & Hx).
        { apply elem_of_cons in Hz as [->|Hz]; [exists n0; split; [done|by left]|].
          apply list_elem_of_fmap in Hz as (x & -> & Hx).
          exists x. split; [done|by right]. }
        apply (rescaled_sample x sp b Hb ltac:(lia)).
        rewrite <- Hwsp, abs_abs. by apply Hall.
      - exists (g w). split.
        + apply elem_of_cons in Hw as [->|Hw]; [by left|right].
          apply list_elem_of_fmap. eauto.
        + apply (rescaled_sample w sp b Hb ltac:(lia)).
          * rewrite <- Hwsp, abs_abs. by apply Hall.
          * by rewrite <- Hwsp, abs_abs. }
    exists (map g scaled), 0.99%float, sp.
    split; [done|]. split; [done|]. split; [done|].
    split; [reflexivity|]. split; [done|]. rewrite Hcmp. discriminate.
  - apply Z.ltb_ge in Hlt. exists scaled, sp, sp.
    split; [done|]. split; [done|]. split; [done|]. split.
    + rewrite <- Hwsp. change 1%float with (abs 1). rewrite leb_abs, Hwb.
      change (mag 1) with (Some (4503599627370496 * 2 ^ 1022)%Z).
      apply Z.leb_le.
      replace (4503599627370496 * 2 ^ 1022)%Z with (2 ^ 1074)%Z; [done|].
      change 4503599627370496%Z with (2 ^ 52)%Z.
      rewrite <- Z.pow_add_r by lia. f_equal.
    + rewrite Hcmp. split; [discriminate|done].
Qed.

End binary64_normalize.

(** A unit spike followed by 120 silent samples: the scaled peak is 1.1
    and the result has peak 0.99. *)
Lemma normalize_audio_peak_bounded_witness :
  let audio := 1%float :: repeat 0%float 120 in
  ∃ out p,
    @normalize_audio float ieee_arith ieee_numlib default_processor audio
                     (-20)%float = Ok out
    ∧ @peak_of float ieee_arith out = Ok p
    ∧ PrimFloat.leb p 1 = true
    ∧ p = 0.99%float.
Proof.
  destruct (normalize_audio_peak_bounded ieee_numlib default_processor
              (1%float :: repeat 0%float 120) (-20)%float)
    as (out & p & sp & Hrun & Hsp & Hp & Hle & Hgt & _).
  - done.
  - vm_compute. reflexivity.
  - intros sp Hsp. vm_compute in Hsp. injection Hsp as <-. reflexivity.
  - exists out, p. split; [exact Hrun|]. split; [exact Hp|].
    split; [exact Hle|]. apply Hgt.
    vm_compute in Hsp. injection Hsp as <-. reflexivity.
Defined.

(** ** Silence in binary64 *)

(** C7 (as stated, refuted): the empty waveform is all-zero, yet the RMS
    numpy computes for it is NaN, which is not zero for the test
    [rms == 0], and [normalize_audio] raises on the peak of the empty scaled
    signal instead of returning its input. *)
Lemma normalize_audio_empty_waveform :
  Forall is_zero_sample ([] : list float)
  ∧ @feq float ieee_arith (@rms_of float ieee_arith ieee_numlib [])
         (@of_int float ieee_arith 0) = false
  ∧ ∀ out, @normalize_audio float ieee_arith ieee_numlib default_processor []
             (-20)%float ≠ Ok out.
Proof.
  split; [constructor|]. split; [vm_compute; reflexivity|].
  intros out. vm_compute. discriminate.
Qed.

(** The square of a zero of either sign is the positive zero. *)
Lemma zero_sample_square (x : float) :
  is_zero_sample x → PrimFloat.mul x x = 0%float.
Proof.
  unfold is_zero_sample. rewrite FloatAxioms.eqb_spec.
  change (Prim2SF 0) with (S754_zero false). intros Hz.
  pose proof (SF2Prim_Prim2SF x) as Hx.
  destruct (Prim2SF x) as [s|s| |s m e]; [|by destruct s|done|by destruct s].
  rewrite <- Hx. by destruct s.
Qed.

Lemma silence_squares (silence : list float) :
  Forall is_zero_sample silence →
  map (λ x, PrimFloat.mul x x) silence = repeat 0%float (length silence).
Proof.
  induction 1 as [|x l Hx _ IH]; [done|]. cbn [map length repeat].
  by rewrite IH, zero_sample_square.
Qed.

(** C7 (amended): for every waveform whose RMS is exactly zero,
    [normalize_audio] returns the input unchanged, and it does so whatever
    the division operator does: the quotient [target_rms / rms] of the
    scaling step is never needed.  In binary64 this is the case of every
    non-empty all-zero waveform (zeros of either sign), for every library
    whose mean of an array of zeros of that length is zero and whose square
    root of zero is zero. *)
Theorem normalize_audio_zero_rms_unchanged {F : Type} (A : Arith F)
    (L : NumLib F) (self : AudioProcessor) (audio : list F) (target_level : F) :
  (feq (rms_of audio) (of_int 0) = true →
   normalize_audio self audio target_level = Ok audio
   ∧ ∀ division,
       @normalize_audio F (with_fdiv A division) L self audio target_level
       = Ok audio)
  ∧ ∀ (lib : NumLib float) (silence : list float) (level : float),
      silence ≠ [] →
      Forall is_zero_sample silence →
      @np_mean float lib (repeat 0%float (length silence)) = 0%float →
      @np_sqrt float lib 0%float = 0%float →
      @feq float ieee_arith (@rms_of float ieee_arith lib silence)
           (@of_int float ieee_arith 0) = true
      ∧ ∀ division,
          @normalize_audio float (with_fdiv ieee_arith division) lib self
                           silence level
          = Ok silence.
Proof.
  split.
  - intros Hz. split; [by apply normalize_audio_rms_zero|].
    intros division.
    by apply (@normalize_audio_rms_zero F (with_fdiv A division) L).
  - intros lib silence level _ Hsil Hmean Hsqrt.
    assert (@feq float ieee_arith (@rms_of float ieee_arith lib silence)
                 (@of_int float ieee_arith 0) = true) as Hz.
    { unfold rms_of. cbn [fmul ieee_arith].
      by rewrite (silence_squares silence Hsil), Hmean, Hsqrt. }
    split; [exact Hz|]. intros division.
    by apply (@normalize_audio_rms_zero float (with_fdiv ieee_arith division) lib).
Qed.

(** Three zeros, one of them negative, in binary64 arithmetic. *)
Lemma normalize_audio_zero_rms_unchanged_witness :
  let silence := [0%float; (-0)%float; 0%float] in
  @normalize_audio float ieee_arith ieee_numlib default_processor
     [0%float; 0%float; 0%float] (-20)%float
  = Ok [0%float; 0%float; 0%float]
  ∧ @feq float ieee_arith (@rms_of float ieee_arith ieee_numlib silence)
         (@of_int float ieee_arith 0) = true
  ∧ @normalize_audio float ieee_arith ieee_numlib default_processor silence
                     (-20)%float = Ok silence.
Proof.
  destruct (normalize_audio_zero_rms_unchanged ieee_arith ieee_numlib
              default_processor [0%float; 0%float; 0%float] (-20)%float)
    as [Hzero Hsilence].
  destruct (Hzero eq_refl) as [Hrun _].
  destruct (Hsilence ieee_numlib [0%float; (-0)%float; 0%float] (-20)%float)
    as [Hrms Hsame].
  - done.
  - repeat constructor.
  - vm_compute. reflexivity.
  - vm_compute. reflexivity.
  - split; [exact Hrun|]. split; [exact Hrms|].
    exact (Hsame PrimFloat.div).
Defined.

(** ** The temporary path of [clone_voice] *)

Section temp_path_facts.

(** No occurrence of [".wav"] starts in a string that holds none and ends
    in the occurrence that follows it: the pattern begins with a dot and
    has no other. *)
Lemma startswith_wav_straddle (c : N) (s rest : list N) :
  contains (u ".wav") (c :: s) = false →
  startswith (u ".wav") (c :: s ++ u ".wav" ++ rest) = false.
Proof.
  change (u ".wav") with [46; 119; 97; 118]%N.
  cbn [contains]. intros [Hs _]%orb_false_iff. revert Hs.
  destruct s as [|c1 [|c2 [|c3 s3]]]; cbn [startswith app];
    intros Hs;
    repeat match goal with
           | |- context [(?a =? ?b)%N] =>
               destruct (N.eqb_spec a b); subst; cbn [andb]; try done
           end.
Qed.

(** The first occurrence after a string that holds none is replaced, and
    the scan resumes behind it. *)
Lemma replace_through (s rest new : list N) :
  contains (u ".wav") s = false →
  replace (s ++ u ".wav" ++ rest) (u ".wav") new
  = s ++ new ++ replace rest (u ".wav") new.
Proof.
  induction s as [|c s IH]; intros Hs.
  - cbn [app]. by rewrite replace_occurrence.
  - cbn [app]. rewrite replace_keep by (by apply startswith_wav_straddle).
    rewrite IH; [done|]. cbn [contains] in Hs.
    by apply orb_false_iff in Hs as [_ Hs].
Qed.

(** [str.replace] replaces every occurrence: a path cut at its
    occurrences of [".wav"] is put together again with
    ["_processed.wav"] in their place. *)
Lemma temp_path_of_join (parts : list (list N)) :
  Forall (λ s, contains (u ".wav") s = false) parts →
  temp_path_of (join (u ".wav") parts) = join (u "_processed.wav") parts.
Proof.
  unfold temp_path_of.
  induction parts as [|s parts IH]; [done|]. intros Hall.
  apply Forall_cons in Hall as [Hs Hall].
  destruct parts as [|s2 rest]; [by apply replace_absent|].
  change (join (u ".wav") (s :: s2 :: rest))
    with (s ++ u ".wav" ++ join (u ".wav") (s2 :: rest)).
  change (join (u "_processed.wav") (s :: s2 :: rest))
    with (s ++ u "_processed.wav" ++ join (u "_processed.wav") (s2 :: rest)).
  by rewrite replace_through, IH.
Qed.

End temp_path_facts.

(** ** [clone_voice]: what the model is given, and what becomes of the
       reference *)

Section cloning_path.
Context {F : Type} `{Arith F, NumLib F, Dsp F, Env F, Unicode}.

Lemma model_calls_app (l1 l2 : list (event F)) :
  model_calls (l1 ++ l2) = model_calls l1 ++ model_calls l2.
Proof. apply omap_app. Qed.


(** When the temporary file cannot be written the preparation raises;
    every file is left as it was and the model has not been invoked. *)
Lemma prepare_reference_blocked (self : TTSEngine) (reference_audio : list N)
    (w : world F) :
  unwritable_temp reference_audio →
  ∃ e w1,
    prepare_reference self reference_audio w = (Raise e, w1)
    ∧ (∀ q c, fs w !! q = Some (File c) → fs w1 !! q = Some (File c))
    ∧ model_calls (trace w1) = model_calls (trace w).
Proof.
  intros Hblock. unfold prepare_reference.
  set (ap := TtsEngine.audio_processor self).
  pose proof (load_audio_run ap reference_audio w) as Hload.
  destruct (fs w !! reference_audio) as [[[rate samples|md|value|data]|]|];
    [| destruct Hload as [e0 Hload];
       rewrite (bind_raise _ _ _ _ _ Hload); by eexists _, _ .. ].
  rewrite (bind_ok _ _ _ _ _ Hload). cbn [fst].
  destruct (validate_audio_quality ap (loaded_samples ap rate samples)
              (lit (5 # 1))) as [v0|e]; [|by eexists _, _].
  erewrite bind_ok by reflexivity.
  set (w0 := if is_valid v0 then w
             else add_event w (Log WARNING (u "Audio quality issues: {}")
                                   [AIssues (issues v0)])).
  assert ((if negb (is_valid v0)
           then logger WARNING "Audio quality issues: {}" [AIssues (issues v0)]
           else ret tt) w = (Ok tt, w0)) as Hwarn.
  { subst w0. by destruct (is_valid v0). }
  assert (fs w0 = fs w) as Hfs0 by (subst w0; by destruct (is_valid v0)).
  assert (model_calls (trace w0) = model_calls (trace w)) as Htr0.
  { subst w0. destruct (is_valid v0); [done|]. cbn [trace add_event].
    by rewrite model_calls_app, app_nil_r. }
  rewrite (bind_ok _ _ _ _ _ Hwarn).
  destruct (preprocess_for_tts ap (loaded_samples ap rate samples))
    as [processed|e].
  2: { erewrite bind_raise by reflexivity. eexists _, _.
       split; [reflexivity|]. split; [|exact Htr0].
       intros q c Hq. by rewrite Hfs0. }
  erewrite bind_ok by reflexivity.
  assert (∃ e w1, save_audio ap processed (temp_path_of reference_audio) None w0
                  = (Raise e, w1)
                ∧ trace w1 = trace w0
                ∧ ∀ q c, fs w0 !! q = Some (File c) → fs w1 !! q = Some (File c))
    as (e & w1 & Hsave & Htr & Hfs).
  { unfold save_audio.
    destruct (os_makedirs_run (dirname (temp_path_of reference_audio)) w0)
      as [(Hd & _ & Hmk)|[_ [e Hmk]]].
    - destruct Hblock as [Hempty|[e Hfmt]]; [done|].
      rewrite (bind_ok _ _ _ _ _ Hmk).
      destruct (normalize_audio ap processed default_target_level) as [out|e'].
      + erewrite bind_ok by reflexivity. unfold sf_write. rewrite Hfmt.
        eexists _, _. split; [reflexivity|]. split; [done|].
        intros q c. cbn [fs set_fs]. by rewrite with_dir_files.
      + erewrite bind_raise by reflexivity. eexists _, _.
        split; [reflexivity|]. split; [done|].
        intros q c. cbn [fs set_fs]. by rewrite with_dir_files.
    - rewrite (bind_raise _ _ _ _ _ Hmk). by eexists _, _. }
  rewrite (bind_raise _ _ _ _ _ Hsave). exists e, w1.
  split; [done|]. split.
  - intros q c Hq. apply Hfs. by rewrite Hfs0.
  - by rewrite Htr.
Qed.


(** C9 (amended): the temporary path of [clone_voice] is the reference
    path with every occurrence of [".wav"] replaced by ["_processed.wav"],
    so it is the reference path itself exactly when the reference path
    contains no [".wav"].  For such a path the reference does not survive
    a call that gets as far as writing the temporary file: the processed
    recording is written over it and the clean-up removes it.  It does
    survive when the temporary file cannot be written, which is the case
    of a path without a directory part and of an extension soundfile
    rejects: the call then fails before the model is invoked and every
    file is left as it was. *)
Theorem clone_voice_reference_fate (self : TTSEngine) (text reference_audio
    output_path language : list N) (w : world F) :
  (∀ parts, Forall (λ s, contains (u ".wav") s = false) parts →
            temp_path_of (join (u ".wav") parts)
            = join (u "_processed.wav") parts)
  ∧ (temp_path_of reference_audio = reference_audio
     ↔ contains (u ".wav") reference_audio = false)
  ∧ (contains (u ".wav") reference_audio = false →
     ∀ v out,
       reference_usable self (fs w) reference_audio v out →
       (∃ w1, prepare_reference self reference_audio
                (announced w reference_audio) = (Ok v, w1)
              ∧ fs w1 !! reference_audio
                = Some (File (Audio (sample_rate (TtsEngine.audio_processor self))
                                    out)))
       ∧ ∃ r w2,
           clone_voice self text reference_audio output_path language w
           = (Ok r, w2)
           ∧ ¬ is_file (fs w2) reference_audio)
  ∧ (unwritable_temp reference_audio →
     ∃ error w2,
       clone_voice self text reference_audio output_path language w
       = (Ok (SynthesisFailed error), w2)
       ∧ (∀ q c, fs w !! q = Some (File c) → fs w2 !! q = Some (File c))
       ∧ model_calls (trace w2) = model_calls (trace w)).
Proof.
  split; [exact temp_path_of_join|]. split; [apply temp_path_of_same|].
  split.
  - intros Hc v out Huse.
    pose proof (proj2 (temp_path_of_same reference_audio) Hc) as Esame.
    pose proof (prepare_reference_run self reference_audio
                  (announced w reference_audio) v out Huse) as Hprep.
    split.
    + eexists. split; [exact Hprep|]. cbn [fs]. unfold with_temp_file.
      rewrite Esame. apply lookup_insert_eq.
    + rewrite clone_voice_steps. unfold try_except at 1.
      rewrite (bind_ok _ _ _ _ _ Hprep).
      match goal with
      | |- context [finish_cloning _ _ _ _ _ _ ?w1] =>
          destruct (finish_cloning_cleans self text reference_audio
                      output_path language v w1) as (r & w2 & Hfin & Hgone)
      end.
      unfold try_except in Hfin. rewrite Esame in Hgone.
      exists r, w2. split; [exact Hfin | exact Hgone].
  - intros Hblock.
    destruct (prepare_reference_blocked self reference_audio
                (announced w reference_audio) Hblock)
      as (e & w1 & Hprep & Hfs & Htr).
    rewrite clone_voice_steps. unfold try_except.
    rewrite (bind_raise _ _ _ _ _ Hprep). unfold cloning_failed.
    eexists _, _. split; [reflexivity|]. cbn [fs trace add_event].
    split; [exact Hfs|].
    rewrite model_calls_app, Htr. cbn [announced add_event trace].
    by rewrite model_calls_app, !app_nil_r.
Qed.

End cloning_path.


(** C9 (as stated, refuted): two reference paths without [".wav"] whose
    files survive the call with their content.  ["voice.mp3"] has no
    directory part, so that [os.makedirs] raises on the empty string;
    ["uploads/voice.bin"] has an extension that names no audio format, so
    that [sf.write] raises before it opens the file.  Either call returns
    a failure and the model is not invoked. *)
Lemma clone_voice_reference_survives :
  (contains (u ".wav") (u "voice.mp3") = false
   ∧ ∃ error w2,
       @clone_voice float ieee_arith ieee_numlib passthrough_dsp
          (env_with writing_model) engine (u "Hello") (u "voice.mp3")
          (u "outputs/hello.wav") (u "en") Desk.initial
       = (Ok (SynthesisFailed error), w2)
       ∧ fs w2 !! u "voice.mp3" = Some (File (Audio 22050 Studio.recording))
       ∧ model_calls (trace w2) = [])
  ∧ (contains (u ".wav") (u "uploads/voice.bin") = false
     ∧ ∃ error w2,
         @clone_voice float ieee_arith ieee_numlib passthrough_dsp
            (env_with writing_model) engine (u "Hello") (u "uploads/voice.bin")
            (u "outputs/hello.wav") (u "en") Desk.initial
         = (Ok (SynthesisFailed error), w2)
         ∧ fs w2 !! u "uploads/voice.bin"
           = Some (File (Audio 22050 Studio.recording))
         ∧ model_calls (trace w2) = []).
Proof.
  split; (split; [reflexivity|]); eexists _, _;
    (split; [vm_compute; reflexivity|]); split; vm_compute; reflexivity.
Qed.

(** The reference [uploads/voice.mp3] does not outlive the call, while
    ["voice.mp3"] in the working directory does. *)
Lemma clone_voice_reference_fate_witness :
  (is_file Studio.files (u "uploads/voice.mp3")
   ∧ ∃ r w2,
       @clone_voice float ieee_arith ieee_numlib passthrough_dsp
          (env_with writing_model) engine (u "Hello") (u "uploads/voice.mp3")
          (u "outputs/hello.wav") (u "en") Studio.initial = (Ok r, w2)
       ∧ ¬ is_file (fs w2) (u "uploads/voice.mp3"))
  ∧ ∃ error w2,
      @clone_voice float ieee_arith ieee_numlib passthrough_dsp
         (env_with writing_model) engine (u "Hello") (u "voice.mp3")
         (u "outputs/hello.wav") (u "en") Desk.initial
      = (Ok (SynthesisFailed error), w2)
      ∧ fs w2 !! u "voice.mp3" = Some (File (Audio 22050 Studio.recording)).
Proof.
  split.
  - split; [eexists; vm_compute; reflexivity|].
    destruct (@clone_voice_reference_fate float ieee_arith ieee_numlib
                passthrough_dsp (env_with writing_model) engine
                (u "Hello") (u "uploads/voice.mp3") (u "outputs/hello.wav")
                (u "en") Studio.initial) as (_ & _ & Hfate & _).
    edestruct (Hfate eq_refl) as [_ Hrun]; [studio_usable|exact Hrun].
  - destruct (@clone_voice_reference_fate float ieee_arith ieee_numlib
                passthrough_dsp (env_with writing_model) engine
                (u "Hello") (u "voice.mp3") (u "outputs/hello.wav")
                (u "en") Desk.initial) as (_ & _ & _ & Hstays).
    destruct Hstays as (error & w2 & Hrun & Hfs & _);
      [left; vm_compute; reflexivity|].
    exists error, w2. split; [exact Hrun|]. apply Hfs. vm_compute. reflexivity.
Defined.
